(** * Management app: tag reconciliation, containment policy and search

    A shallow embedding of the repository and service layers of the
    application (app/api/repositories, app/api/services) together with
    the properties its specification states about them.

    The relational store is a record of tables, every table a list of
    rows in storage order.  A SELECT is a [filter] over the table, ORDER
    BY a stable sort, OFFSET/LIMIT a [drop]/[take]; the default engine of
    app/schemas/database.py (SQLite) fixes the dialect-dependent details
    (LIKE wild cards, no escape character, no foreign-key enforcement). *)

From Stdlib Require Import ZArith Ascii String Lia.
From stdpp Require Import base decidable list numbers sorting gmap strings.

Local Open Scope Z_scope.

(** ** Exceptions and the error monad *)

(** The [detail] payload of the [HTTPException]s raised by the layers
    modelled here. *)
Inductive Detail : Type :=
  | TagsNotFound (missing : list Z)
  | QueryTooShort
  | TaskNotFound
  | NoteNotFound
  | CollectionNotFound
  | CannotAddTask
  | CannotAddNote.

Inductive Exception : Type :=
  | HTTPException (status_code : Z) (detail : Detail)
  | InvalidRequestError
  | MultipleResultsFound.

Inductive result (A : Type) : Type :=
  | Ok (a : A)
  | Raise (e : Exception).
Arguments Ok {A} a.
Arguments Raise {A} e.

#[global] Instance result_ret : MRet result := λ A a, Ok a.
#[global] Instance result_bind : MBind result := λ A B k m,
  match m with
  | Ok a => k a
  | Raise e => Raise e
  end.

#[global] Instance result_fmap : FMap result := λ A B f m,
  match m with
  | Ok a => Ok (f a)
  | Raise e => Raise e
  end.

Definition is_ok {A : Type} (m : result A) : bool :=
  match m with Ok _ => true | Raise _ => false end.

(** ** Data model (app/schemas/models) *)

(** enums/collections_types.py *)
Inductive CollectionType : Type := MIXED | TASKS_ONLY | NOTES_ONLY.

#[global] Instance CollectionType_eq_dec : EqDecision CollectionType.
Proof. solve_decision. Defined.

(** The [str] value and the member name of a [CollectionType]. *)
Definition CollectionType_value (ty : CollectionType) : string :=
  match ty with
  | MIXED => "mixed"
  | TASKS_ONLY => "tasks-only"
  | NOTES_ONLY => "notes-only"
  end.

Definition CollectionType_name (ty : CollectionType) : string :=
  match ty with
  | MIXED => "MIXED"
  | TASKS_ONLY => "TASKS_ONLY"
  | NOTES_ONLY => "NOTES_ONLY"
  end.

(** tags_models.py: a row of table [tags].  Timestamps are instants on
    the store's clock; [created_at] is never read by the operations
    below and is left out of every row. *)
Record Tag : Type := mkTag {
  tag_id : Z;
  tag_user_id : Z;
  tag_title : string;
  tag_updated_at : Z
}.

(** Column values of tables [tasks], [notes] and [collections].  The
    status and priority enums are stored and compared as strings. *)
Record TaskRow : Type := mkTaskRow {
  task_id : Z;
  task_user_id : Z;
  task_collection_id : option Z;
  task_title : string;
  task_description : option string;
  task_status : string;
  task_priority : string;
  task_updated_at : Z
}.

Record NoteRow : Type := mkNoteRow {
  note_id : Z;
  note_user_id : Z;
  note_collection_id : option Z;
  note_title : string;
  note_description : option string;
  note_updated_at : Z
}.

Record CollectionRow : Type := mkCollectionRow {
  collection_id : Z;
  collection_user_id : Z;
  collection_title : string;
  collection_description : option string;
  collection_type : CollectionType;
  collection_updated_at : Z
}.

#[global] Instance Tag_eq_dec : EqDecision Tag.
Proof. solve_decision. Defined.
#[global] Instance TaskRow_eq_dec : EqDecision TaskRow.
Proof. solve_decision. Defined.
#[global] Instance NoteRow_eq_dec : EqDecision NoteRow.
Proof. solve_decision. Defined.
#[global] Instance CollectionRow_eq_dec : EqDecision CollectionRow.
Proof. solve_decision. Defined.

(** The store: the four entity tables, the three association tables
    (pairs [(tag_id, entity_id)]) and the clock behind [func.now()]. *)
Record DB : Type := mkDB {
  db_tags : list Tag;
  db_tasks : list TaskRow;
  db_notes : list NoteRow;
  db_collections : list CollectionRow;
  tag_task_association : list (Z * Z);
  tag_note_association : list (Z * Z);
  tag_collection_association : list (Z * Z);
  db_now : Z
}.

(** ** Python built-ins used by the code *)

(** Truth value of an [Optional[str]] and of an [Optional[int]]. *)
Definition truthy_str (o : option string) : bool :=
  match o with
  | Some s => negb (String.eqb s "")
  | None => false
  end.

Definition truthy_int (o : option Z) : bool :=
  match o with
  | Some z => negb (z =? 0)
  | None => false
  end.

(** [list(dict.fromkeys(xs))]: drop repetitions, keep first occurrences in
    order.  [seen] is the key set of the dict under construction. *)
Fixpoint dict_fromkeys_from (seen : gset Z) (xs : list Z) : list Z :=
  match xs with
  | [] => []
  | x :: xs' =>
      if decide (x ∈ seen) then dict_fromkeys_from seen xs'
      else x :: dict_fromkeys_from ({[x]} ∪ seen) xs'
  end.

Definition dict_fromkeys (xs : list Z) : list Z := dict_fromkeys_from ∅ xs.

(** [set(xs)] *)
Definition set (xs : list Z) : gset Z := list_to_set xs.

(** [sorted(s)] for a set of ints *)
Definition sorted (s : gset Z) : list Z := merge_sort Z.le (elements s).

(** [xs.clear()] and [xs.extend(ys)], as the list left behind. *)
Definition list_clear {A : Type} (xs : list A) : list A := [].
Definition list_extend {A : Type} (xs ys : list A) : list A := xs ++ ys.

(** [xs[:n]]: a negative bound counts from the end. *)
Definition slice_to {A : Type} (n : Z) (xs : list A) : list A :=
  if 0 <=? n then take (Z.to_nat n) xs
  else take (Z.to_nat (Z.of_nat (length xs) + n)) xs.

(** Characters are the code points below 256.  [str.isspace] holds
    there of the controls 9 to 13 and 28 to 31, of the space, of NEXT
    LINE (U+0085) and of NO-BREAK SPACE (U+00A0); the letters SQLite's
    [lower] folds are the ASCII ones. *)
Definition isspace (c : ascii) : bool :=
  let n := N_of_ascii c in
  ((9 <=? n) && (n <=? 13) || (28 <=? n) && (n <=? 32)
   || (n =? 133) || (n =? 160))%N.

(** [str.strip()] *)
Fixpoint lstrip (s : string) : string :=
  match s with
  | EmptyString => EmptyString
  | String c s' => if isspace c then lstrip s' else s
  end.

Fixpoint rstrip (s : string) : string :=
  match s with
  | EmptyString => EmptyString
  | String c s' =>
      match rstrip s' with
      | EmptyString => if isspace c then EmptyString else String c EmptyString
      | r => String c r
      end
  end.

Definition strip (s : string) : string := rstrip (lstrip s).

(** ** The SQL the queries are compiled to *)

(** [lower()] folds the ASCII letters only. *)
Definition lower_char (c : ascii) : ascii :=
  let n := N_of_ascii c in
  if ((65 <=? n) && (n <=? 90))%N then ascii_of_N (n + 32) else c.

Fixpoint lower (s : string) : string :=
  match s with
  | EmptyString => EmptyString
  | String c s' => String (lower_char c) (lower s')
  end.

(** [s LIKE p]: [%] stands for any run of characters, [_] for any one
    character, and there is no escape character. *)
Fixpoint like (p s : string) : bool :=
  match p with
  | EmptyString =>
      match s with
      | EmptyString => true
      | String _ _ => false
      end
  | String c p' =>
      if Ascii.eqb c "%" then
        (fix any (s : string) : bool :=
           like p' s ||
           match s with
           | EmptyString => false
           | String _ s' => any s'
           end) s
      else
        match s with
        | EmptyString => false
        | String d s' => (Ascii.eqb c "_" || Ascii.eqb c d) && like p' s'
        end
  end.

(** [column.ilike(pattern)], rendered [lower(column) LIKE lower(pattern)];
    a NULL column makes the comparison NULL ([None]). *)
Definition ilike (column : option string) (pattern : string) : option bool :=
  match column with
  | Some s => Some (like (lower pattern) (lower s))
  | None => None
  end.

(** Three-valued [OR]. *)
Definition sql_or (a b : option bool) : option bool :=
  match a, b with
  | Some true, _ | _, Some true => Some true
  | Some false, Some false => Some false
  | _, _ => None
  end.

(** A row passes a WHERE clause when the condition is true (not NULL). *)
Definition sql_true (c : option bool) : Prop := c = Some true.

(** [f"%{query}%"] *)
Definition search_term (query : string) : string :=
  String "%" query +:+ "%".

(** [ORDER BY key DESC] over rows in storage order: a stable insertion
    sort, so rows with equal keys stay in storage order. *)
Section order_by.
Context {A : Type} (key : A → Z).

Fixpoint insert_desc (x : A) (l : list A) : list A :=
  match l with
  | [] => [x]
  | y :: l' => if key y <=? key x then x :: l else y :: insert_desc x l'
  end.

Definition order_by_desc (l : list A) : list A := foldr insert_desc [] l.
End order_by.

(** [OFFSET] and [LIMIT]; SQLite reads a negative offset as zero and a
    negative limit as no limit. *)
Definition offset {A : Type} (skip : option Z) (l : list A) : list A :=
  match skip with
  | Some n => drop (Z.to_nat n) l
  | None => l
  end.

Definition limit {A : Type} (lim : option Z) (l : list A) : list A :=
  match lim with
  | Some n => if n <? 0 then l else take (Z.to_nat n) l
  | None => l
  end.

(** [scalar_one_or_none()] *)
Definition scalar_one_or_none {A : Type} (rows : list A) : result (option A) :=
  match rows with
  | [] => Ok None
  | [r] => Ok (Some r)
  | _ => Raise MultipleResultsFound
  end.

(** ** The ORM session *)

(** The states [inspect(obj)] reports. *)
Inductive InstanceState : Type :=
  Transient | Pending | Persistent | Deleted | Detached.

#[global] Instance InstanceState_eq_dec : EqDecision InstanceState.
Proof. solve_decision. Defined.

(** A mapped instance: its column attributes, its state and its [tags]
    relationship ([None] while the collection is not loaded). *)
Record Obj (R : Type) : Type := mkObj {
  obj_row : R;
  obj_state : InstanceState;
  obj_tags : option (list Tag)
}.
Arguments mkObj {R} _ _ _.
Arguments obj_row {R} _.
Arguments obj_state {R} _.
Arguments obj_tags {R} _.

(** What the session needs to know about a mapped class with a [tags]
    relationship: key and owner columns, its table and its association
    table. *)
Class Mapped (R : Type) : Type := {
  pk : R → Z;
  owner : R → Z;
  with_pk : Z → R → R;
  with_updated_at : Z → R → R;
  table : DB → list R;
  with_table : list R → DB → DB;
  association : DB → list (Z * Z);
  with_association : list (Z * Z) → DB → DB;
  row_eq_dec :: EqDecision R
}.

#[global] Instance Task_mapped : Mapped TaskRow := {|
  pk := task_id;
  owner := task_user_id;
  with_pk := λ i r, mkTaskRow i (task_user_id r) (task_collection_id r)
    (task_title r) (task_description r) (task_status r) (task_priority r)
    (task_updated_at r);
  with_updated_at := λ t r, mkTaskRow (task_id r) (task_user_id r)
    (task_collection_id r) (task_title r) (task_description r)
    (task_status r) (task_priority r) t;
  table := db_tasks;
  with_table := λ l db, mkDB (db_tags db) l (db_notes db) (db_collections db)
    (tag_task_association db) (tag_note_association db)
    (tag_collection_association db) (db_now db);
  association := tag_task_association;
  with_association := λ a db, mkDB (db_tags db) (db_tasks db) (db_notes db)
    (db_collections db) a (tag_note_association db)
    (tag_collection_association db) (db_now db)
|}.

#[global] Instance Note_mapped : Mapped NoteRow := {|
  pk := note_id;
  owner := note_user_id;
  with_pk := λ i r, mkNoteRow i (note_user_id r) (note_collection_id r)
    (note_title r) (note_description r) (note_updated_at r);
  with_updated_at := λ t r, mkNoteRow (note_id r) (note_user_id r)
    (note_collection_id r) (note_title r) (note_description r) t;
  table := db_notes;
  with_table := λ l db, mkDB (db_tags db) (db_tasks db) l (db_collections db)
    (tag_task_association db) (tag_note_association db)
    (tag_collection_association db) (db_now db);
  association := tag_note_association;
  with_association := λ a db, mkDB (db_tags db) (db_tasks db) (db_notes db)
    (db_collections db) (tag_task_association db) a
    (tag_collection_association db) (db_now db)
|}.

#[global] Instance Collection_mapped : Mapped CollectionRow := {|
  pk := collection_id;
  owner := collection_user_id;
  with_pk := λ i r, mkCollectionRow i (collection_user_id r)
    (collection_title r) (collection_description r) (collection_type r)
    (collection_updated_at r);
  with_updated_at := λ t r, mkCollectionRow (collection_id r)
    (collection_user_id r) (collection_title r) (collection_description r)
    (collection_type r) t;
  table := db_collections;
  with_table := λ l db, mkDB (db_tags db) (db_tasks db) (db_notes db) l
    (tag_task_association db) (tag_note_association db)
    (tag_collection_association db) (db_now db);
  association := tag_collection_association;
  with_association := λ a db, mkDB (db_tags db) (db_tasks db) (db_notes db)
    (db_collections db) (tag_task_association db) (tag_note_association db)
    a (db_now db)
|}.

Definition Task : Type := Obj TaskRow.
Definition Note : Type := Obj NoteRow.
Definition Collection : Type := Obj CollectionRow.

Section session.
Context {R : Type} `{!Mapped R}.

(** The tags linked to entity [id]: the join of its association rows
    with table [tags], in association order. *)
Definition linked_tags (db : DB) (id : Z) : list Tag :=
  '(t, e) ← association db;
  if decide (e = id) then filter (λ tg, tag_id tg = t) (db_tags db) else [].

(** A row as the ORM hands it out: persistent, [tags] loaded
    ([selectinload], or the relationship's [lazy="selectin"]). *)
Definition loaded (db : DB) (r : R) : Obj R :=
  mkObj r Persistent (Some (linked_tags db (pk r))).

(** [session.refresh(obj)] and
    [session.refresh(obj, attribute_names=["tags"])]: only an instance
    persistent in the session can be refreshed. *)
Definition refresh (db : DB) (o : Obj R) : result (Obj R) :=
  match obj_state o with
  | Persistent =>
      match filter (λ r, pk r = pk (obj_row o)) (table db) with
      | r :: _ => Ok (mkObj r Persistent (obj_tags o))
      | [] => Raise InvalidRequestError
      end
  | _ => Raise InvalidRequestError
  end.

Definition refresh_tags (db : DB) (o : Obj R) : result (Obj R) :=
  match obj_state o with
  | Persistent =>
      Ok (mkObj (obj_row o) Persistent
            (Some (linked_tags db (pk (obj_row o)))))
  | _ => Raise InvalidRequestError
  end.

(** The key the store gives the next inserted row. *)
Definition next_pk (rows : list R) : Z :=
  1 + foldr (λ r m, Z.max (pk r) m) 0 rows.

(** Association rows of entity [id] after its [tags] collection became
    [cur]: links no longer in the collection are deleted, links new to
    it are inserted. *)
Definition sync_association (a : list (Z * Z)) (id : Z) (cur : list Tag)
    : list (Z * Z) :=
  filter (λ '(t, e), e ≠ id ∨ t ∈ tag_id <$> cur) a
  ++ filter (λ p, p ∉ a) ((λ t, (tag_id t, id)) <$> cur).

(** [session.flush()] as far as one instance is concerned.  A pending
    instance is inserted with a fresh key and its links; a persistent
    one has its changed columns written (which also stamps
    [updated_at]) and its links synchronised; an instance outside the
    session is not touched. *)
Definition flush (db : DB) (o : Obj R) : DB * Obj R :=
  match obj_state o with
  | Pending =>
      let id := next_pk (table db) in
      let row := with_updated_at (db_now db) (with_pk id (obj_row o)) in
      let db1 := with_table (table db ++ [row]) db in
      let links := (λ t, (tag_id t, id)) <$> default [] (obj_tags o) in
      let db2 := with_association (association db1 ++ links) db1 in
      (db2, mkObj row Persistent (obj_tags o))
  | Persistent =>
      let id := pk (obj_row o) in
      let stamp r :=
        if decide (pk r = id) then
          if decide (r = obj_row o) then r
          else with_updated_at (db_now db) (obj_row o)
        else r in
      let db1 := with_table (stamp <$> table db) db in
      let db2 :=
        match obj_tags o with
        | Some cur =>
            with_association (sync_association (association db1) id cur) db1
        | None => db1
        end in
      let row := default (obj_row o)
                   (head (filter (λ r, pk r = id) (table db2))) in
      (db2, mkObj row Persistent (obj_tags o))
  | _ => (db, o)
  end.

(** [session.add(obj)] *)
Definition add (o : Obj R) : Obj R :=
  match obj_state o with
  | Transient => mkObj (obj_row o) Pending (obj_tags o)
  | _ => o
  end.
End session.

(** ** app/api/repositories/_utils.py *)

(** [select(Tag).where(Tag.user_id == user_id, Tag.id.in_(ids))] *)
Definition select_tags_in (db : DB) (user_id : Z) (ids : list Z) : list Tag :=
  filter (λ t, tag_user_id t = user_id ∧ tag_id t ∈ ids) (db_tags db).

Definition _load_tags (db : DB) (user_id : Z) (tag_ids : list Z)
    (require_all : bool) : result (list Tag) :=
  let ids := dict_fromkeys tag_ids in
  match ids with
  | [] => Ok []
  | _ =>
      let tags := select_tags_in db user_id ids in
      if require_all && negb (Nat.eqb (length tags) (size (set ids))) then
        let found := set (tag_id <$> tags) in
        let missing := sorted (set ids ∖ found) in
        Raise (HTTPException 400 (TagsNotFound missing))
      else Ok tags
  end.

Definition _is_new_or_pending {R : Type} (obj : Obj R) : bool :=
  match obj_state obj with
  | Transient | Pending => true
  | _ => false
  end.

(** ** Repositories *)

(** The three [set_*_tags] methods are the same code over the three
    mapped classes. *)
Section set_tags.
Context {R : Type} `{!Mapped R}.

Definition set_entity_tags (db : DB) (entity : Obj R) (tag_ids : list Z)
    : result (DB * Obj R) :=
  tags ← _load_tags db (owner (obj_row entity)) tag_ids true;
  entity ←
    (if _is_new_or_pending entity then
       (* entity.tags = tags *)
       Ok (mkObj (obj_row entity) (obj_state entity) (Some tags))
     else
       (* refresh(entity, ["tags"]); entity.tags.clear();
          entity.tags.extend(tags) *)
       entity ← refresh_tags db entity;
       let current := default [] (obj_tags entity) in
       let current := list_clear current in
       let current := list_extend current tags in
       Ok (mkObj (obj_row entity) (obj_state entity) (Some current)));
  Ok (flush db entity).
End set_tags.

(** [get_tags_by_ids_and_user], the same in the three repositories *)
Definition get_tags_by_ids_and_user (db : DB) (tag_ids : list Z)
    (user_id : Z) : list Tag :=
  match tag_ids with
  | [] => []
  | _ => select_tags_in db user_id tag_ids
  end.

(** [get_collection_by_id_and_user] of the task and note repositories *)
Definition get_collection_by_id_and_user (db : DB) (cid user_id : Z)
    : result (option CollectionRow) :=
  scalar_one_or_none
    (filter (λ c, collection_id c = cid ∧ collection_user_id c = user_id)
       (db_collections db)).

(** *** tasks_repositories.py *)

Definition set_task_tags (db : DB) (task : Task) (tag_ids : list Z)
    : result (DB * Task) :=
  set_entity_tags db task tag_ids.

Definition get_task_by_id_and_user (db : DB) (task_id' user_id : Z)
    : result (option Task) :=
  match scalar_one_or_none
          (filter (λ r, task_id r = task_id' ∧ task_user_id r = user_id)
             (db_tasks db)) with
  | Ok (Some r) => Ok (Some (loaded db r))
  | Ok None => Ok None
  | Raise e => Raise e
  end.

(** A new [Task] from the DTO fields, [add], [flush] *)
Definition create_task (db : DB) (task_data : TaskRow) : DB * Task :=
  flush db (add (mkObj task_data Transient None)).

Definition search_tasks (db : DB) (user_id : Z) (query : string)
    (status priority : option string) (collection_id' : option Z)
    (skip lim : option Z) : list Task :=
  let stmt := filter (λ r, task_user_id r = user_id) (db_tasks db) in
  let stmt :=
    if truthy_str status
    then filter (λ r, Some (task_status r) = status) stmt else stmt in
  let stmt :=
    if truthy_str priority
    then filter (λ r, Some (task_priority r) = priority) stmt else stmt in
  let stmt :=
    if truthy_int collection_id'
    then filter (λ r, task_collection_id r = collection_id' ) stmt
    else stmt in
  let stmt :=
    if negb (String.eqb query "") then
      let search_term := search_term query in
      filter (λ r, sql_true (sql_or (ilike (Some (task_title r)) search_term)
                                    (ilike (task_description r) search_term)))
        stmt
    else stmt in
  let stmt := order_by_desc task_updated_at stmt in
  let stmt := offset skip stmt in
  let stmt := limit lim stmt in
  loaded db <$> stmt.

(** *** notes_repositories.py *)

Definition set_note_tags (db : DB) (note : Note) (tag_ids : list Z)
    : result (DB * Note) :=
  set_entity_tags db note tag_ids.

Definition get_note_by_id_and_user (db : DB) (note_id' user_id : Z)
    : result (option Note) :=
  match scalar_one_or_none
          (filter (λ r, note_id r = note_id' ∧ note_user_id r = user_id)
             (db_notes db)) with
  | Ok (Some r) => Ok (Some (loaded db r))
  | Ok None => Ok None
  | Raise e => Raise e
  end.

Definition create_note (db : DB) (note_data : NoteRow) : DB * Note :=
  flush db (add (mkObj note_data Transient None)).

Definition search_notes (db : DB) (user_id : Z) (query : string)
    (collection_id' : option Z) (skip lim : option Z) : list Note :=
  let stmt := filter (λ r, note_user_id r = user_id) (db_notes db) in
  let stmt :=
    match collection_id' with
    | Some _ => filter (λ r, note_collection_id r = collection_id') stmt
    | None => stmt
    end in
  let stmt :=
    if negb (String.eqb query "") then
      let search_term := search_term query in
      filter (λ r, sql_true (sql_or (ilike (Some (note_title r)) search_term)
                                    (ilike (note_description r) search_term)))
        stmt
    else stmt in
  let stmt := order_by_desc note_updated_at stmt in
  let stmt := offset skip stmt in
  let stmt := limit lim stmt in
  loaded db <$> stmt.

(** *** collections_repositories.py *)

Definition set_collection_tags (db : DB) (collection : Collection)
    (tag_ids : list Z) : result (DB * Collection) :=
  set_entity_tags db collection tag_ids.

(** [Collection.type == type_filter] for a string: the Enum column type
    turns the string into the member it denotes, by value or by name. *)
Definition type_is (ty : CollectionType) (type_filter : string) : Prop :=
  type_filter = CollectionType_value ty ∨ type_filter = CollectionType_name ty.

Definition search_collections (db : DB) (user_id : Z) (query : string)
    (type_filter : option string) (skip lim : option Z) : list Collection :=
  let stmt := filter (λ r, collection_user_id r = user_id) (db_collections db) in
  let stmt :=
    match type_filter with
    | Some ty => filter (λ r, type_is (collection_type r) ty) stmt
    | None => stmt
    end in
  let stmt :=
    if negb (String.eqb query "") then
      let search_term := search_term query in
      filter (λ r, sql_true (ilike (Some (collection_title r)) search_term))
        stmt
    else stmt in
  let stmt := order_by_desc collection_updated_at stmt in
  let stmt := offset skip stmt in
  let stmt := limit lim stmt in
  loaded db <$> stmt.

(** *** tags_repositories.py *)

Definition search_tags (db : DB) (user_id : Z) (query : string)
    (skip lim : option Z) : list Tag :=
  let stmt := filter (λ r, tag_user_id r = user_id) (db_tags db) in
  let stmt :=
    if negb (String.eqb query "") then
      let search_term := search_term query in
      filter (λ r, sql_true (ilike (Some (tag_title r)) search_term)) stmt
    else stmt in
  let stmt := order_by_desc tag_updated_at stmt in
  let stmt := offset skip stmt in
  let stmt := limit lim stmt in
  stmt.

(** ** Contracts (app/schemas/contracts) *)

(** [TaskBase] / [TaskCreate] as received: every field but [title] may be
    left unset ([None]); a field that is set may still be null. *)
Record TaskBase : Type := mkTaskBase {
  tb_title : string;
  tb_description : option (option string);
  tb_status : option string;
  tb_priority : option string;
  tb_collection_id : option (option Z);
  tb_tag_ids : option (option (list Z))
}.

Record NoteBase : Type := mkNoteBase {
  nb_title : string;
  nb_description : option (option string);
  nb_collection_id : option (option Z);
  nb_tag_ids : option (option (list Z))
}.

(** The default members [TaskStatus.TODO] and [TaskPriority.MEDIUM], as
    the Enum columns store them. *)
Definition TaskStatus_TODO : string := "TODO".
Definition TaskPriority_MEDIUM : string := "MEDIUM".

Record TaskOut : Type := mkTaskOut {
  to_id : Z;
  to_user_id : Z;
  to_title : string;
  to_description : option string;
  to_status : string;
  to_priority : string;
  to_collection_id : option Z;
  to_updated_at : Z;
  to_tag_ids : list Z
}.

Record NoteOut : Type := mkNoteOut {
  no_id : Z;
  no_user_id : Z;
  no_title : string;
  no_description : option string;
  no_collection_id : option Z;
  no_updated_at : Z;
  no_tag_ids : list Z
}.

Record CollectionOut : Type := mkCollectionOut {
  co_id : Z;
  co_user_id : Z;
  co_title : string;
  co_description : option string;
  co_type : CollectionType;
  co_updated_at : Z;
  co_tag_ids : list Z;
  co_task_count : Z;
  co_note_count : Z
}.

Record TagOut : Type := mkTagOut {
  tgo_id : Z;
  tgo_user_id : Z;
  tgo_title : string;
  tgo_updated_at : Z
}.

(** The [tag_ids] property of the models: [[t.id for t in (self.tags or [])]] *)
Definition tag_ids {R : Type} (o : Obj R) : list Z :=
  tag_id <$> default [] (obj_tags o).

(** [model_validate] with [from_attributes]: the DTO reads the
    attributes of the instance. *)
Definition TaskOut_model_validate (task : Task) : TaskOut :=
  let r := obj_row task in
  mkTaskOut (task_id r) (task_user_id r) (task_title r) (task_description r)
    (task_status r) (task_priority r) (task_collection_id r)
    (task_updated_at r) (tag_ids task).

Definition NoteOut_model_validate (note : Note) : NoteOut :=
  let r := obj_row note in
  mkNoteOut (note_id r) (note_user_id r) (note_title r) (note_description r)
    (note_collection_id r) (note_updated_at r) (tag_ids note).

Definition CollectionOut_model_validate (collection : Collection)
    : CollectionOut :=
  let r := obj_row collection in
  mkCollectionOut (collection_id r) (collection_user_id r)
    (collection_title r) (collection_description r) (collection_type r)
    (collection_updated_at r) (tag_ids collection) 0 0.

Definition TagOut_model_validate (tag : Tag) : TagOut :=
  mkTagOut (tag_id tag) (tag_user_id tag) (tag_title tag) (tag_updated_at tag).

(** ** Services *)

(** The tag pre-check every create and update method repeats inline. *)
Definition check_tags_found (found : list Tag) (tag_ids : list Z)
    : result unit :=
  if negb (Nat.eqb (length found) (size (set tag_ids))) then
    let found_ids := set (tag_id <$> found) in
    let missing := sorted (set tag_ids ∖ found_ids) in
    Raise (HTTPException 400 (TagsNotFound missing))
  else Ok ().

Definition validate_tags (db : DB) (user_id : Z) (tag_ids : option (list Z))
    : result unit :=
  match tag_ids with
  | Some ids =>
      check_tags_found (get_tags_by_ids_and_user db ids user_id) ids
  | None => Ok ()
  end.

(** The query check every search method starts with. *)
Definition query_too_short (query : string) : bool :=
  String.eqb query "" || (String.length (strip query) <? 2)%nat.

(** *** tasks_services.py *)

(** The block "validate collection ownership AND type" of
    [create_task_for_user] and [update_user_task]; it runs under the
    guard [if collection_id:]. *)
Definition check_task_collection (db : DB) (user_id : Z)
    (collection_id' : option Z) : result unit :=
  if truthy_int collection_id' then
    owned_collection ←
      get_collection_by_id_and_user db (default 0 collection_id') user_id;
    match owned_collection with
    | None => Raise (HTTPException 404 CollectionNotFound)
    | Some c =>
        if decide (collection_type c = NOTES_ONLY)
        then Raise (HTTPException 400 CannotAddTask)
        else Ok ()
    end
  else Ok ().

Definition get_user_task_by_id (db : DB) (user_id task_id' : Z)
    : result Task :=
  task ← get_task_by_id_and_user db task_id' user_id;
  match task with
  | Some t => Ok t
  | None => Raise (HTTPException 404 TaskNotFound)
  end.

(** [task_create.dict()] with [tag_ids] popped and [user_id] added. *)
Definition task_data (user_id : Z) (task_create : TaskBase) : TaskRow :=
  mkTaskRow 0 user_id (mjoin (tb_collection_id task_create))
    (tb_title task_create) (mjoin (tb_description task_create))
    (default TaskStatus_TODO (tb_status task_create))
    (default TaskPriority_MEDIUM (tb_priority task_create)) 0.

Definition create_task_for_user (db : DB) (user_id : Z)
    (task_create : TaskBase) : result (DB * Task) :=
  let data := task_data user_id task_create in
  let tag_ids := mjoin (tb_tag_ids task_create) in
  check_task_collection db user_id (mjoin (tb_collection_id task_create));;
  validate_tags db user_id tag_ids;;
  let '(db, new_task) := create_task db data in
  '(db, new_task) ←
    match tag_ids with
    | Some ids => set_task_tags db new_task ids
    | None => Ok (db, new_task)
    end;
  (* commit *)
  new_task ← refresh db new_task;
  new_task ← refresh_tags db new_task;
  Ok (db, new_task).

(** One entry of [task_update.dict(exclude_unset=True)]. *)
Inductive TaskAttr : Type :=
  | Task_title (v : string)
  | Task_description (v : option string)
  | Task_status (v : string)
  | Task_priority (v : string)
  | Task_collection_id (v : option Z).

Definition task_update_data (task_update : TaskBase) : list TaskAttr :=
  [Task_title (tb_title task_update)]
  ++ option_list (Task_description <$> tb_description task_update)
  ++ option_list (Task_status <$> tb_status task_update)
  ++ option_list (Task_priority <$> tb_priority task_update)
  ++ option_list (Task_collection_id <$> tb_collection_id task_update).

Definition task_setattr (r : TaskRow) (a : TaskAttr) : TaskRow :=
  match a with
  | Task_title v =>
      mkTaskRow (task_id r) (task_user_id r) (task_collection_id r) v
        (task_description r) (task_status r) (task_priority r)
        (task_updated_at r)
  | Task_description v =>
      mkTaskRow (task_id r) (task_user_id r) (task_collection_id r)
        (task_title r) v (task_status r) (task_priority r) (task_updated_at r)
  | Task_status v =>
      mkTaskRow (task_id r) (task_user_id r) (task_collection_id r)
        (task_title r) (task_description r) v (task_priority r)
        (task_updated_at r)
  | Task_priority v =>
      mkTaskRow (task_id r) (task_user_id r) (task_collection_id r)
        (task_title r) (task_description r) (task_status r) v
        (task_updated_at r)
  | Task_collection_id v =>
      mkTaskRow (task_id r) (task_user_id r) v (task_title r)
        (task_description r) (task_status r) (task_priority r)
        (task_updated_at r)
  end.

(** [TaskRepository.update_task]: [setattr] per entry, then [flush]. *)
Definition update_task (db : DB) (task : Task) (update_data : list TaskAttr)
    : DB * Task :=
  flush db (mkObj (foldl task_setattr (obj_row task) update_data)
              (obj_state task) (obj_tags task)).

Definition update_user_task (db : DB) (user_id task_id' : Z)
    (task_update : TaskBase) : result (DB * Task) :=
  task ← get_user_task_by_id db user_id task_id';
  let update_data := task_update_data task_update in
  let tag_ids_to_set := mjoin (tb_tag_ids task_update) in
  match tb_collection_id task_update with
  | Some new_collection_id => check_task_collection db user_id new_collection_id
  | None => Ok ()
  end;;
  validate_tags db user_id tag_ids_to_set;;
  let '(db, task) :=
    match update_data with
    | [] => (db, task)
    | _ => update_task db task update_data
    end in
  '(db, task) ←
    match tag_ids_to_set with
    | Some ids => set_task_tags db task ids
    | None => Ok (db, task)
    end;
  (* commit *)
  task ← refresh db task;
  task ← refresh_tags db task;
  Ok (db, task).

Definition search_user_tasks (db : DB) (user_id : Z) (query : string)
    (status priority : option string) (collection_id' : option Z)
    (skip lim : option Z) : result (list Task) :=
  if query_too_short query then Raise (HTTPException 400 QueryTooShort)
  else Ok (search_tasks db user_id (strip query) status priority
             collection_id' skip lim).

(** *** notes_services.py *)

Definition check_note_collection (db : DB) (user_id : Z)
    (collection_id' : option Z) : result unit :=
  if truthy_int collection_id' then
    owned_collection ←
      get_collection_by_id_and_user db (default 0 collection_id') user_id;
    match owned_collection with
    | None => Raise (HTTPException 404 CollectionNotFound)
    | Some c =>
        if decide (collection_type c = TASKS_ONLY)
        then Raise (HTTPException 400 CannotAddNote)
        else Ok ()
    end
  else Ok ().

Definition get_user_note_by_id (db : DB) (user_id note_id' : Z)
    : result Note :=
  note ← get_note_by_id_and_user db note_id' user_id;
  match note with
  | Some n => Ok n
  | None => Raise (HTTPException 404 NoteNotFound)
  end.

Definition note_data (user_id : Z) (note_create : NoteBase) : NoteRow :=
  mkNoteRow 0 user_id (mjoin (nb_collection_id note_create))
    (nb_title note_create) (mjoin (nb_description note_create)) 0.

Definition create_note_for_user (db : DB) (user_id : Z)
    (note_create : NoteBase) : result (DB * Note) :=
  let data := note_data user_id note_create in
  let tag_ids := mjoin (nb_tag_ids note_create) in
  check_note_collection db user_id (mjoin (nb_collection_id note_create));;
  validate_tags db user_id tag_ids;;
  let '(db, new_note) := create_note db data in
  '(db, new_note) ←
    match tag_ids with
    | Some ids => set_note_tags db new_note ids
    | None => Ok (db, new_note)
    end;
  (* commit *)
  new_note ← refresh db new_note;
  new_note ← refresh_tags db new_note;
  Ok (db, new_note).

Inductive NoteAttr : Type :=
  | Note_title (v : string)
  | Note_description (v : option string)
  | Note_collection_id (v : option Z).

Definition note_update_data (note_update : NoteBase) : list NoteAttr :=
  [Note_title (nb_title note_update)]
  ++ option_list (Note_description <$> nb_description note_update)
  ++ option_list (Note_collection_id <$> nb_collection_id note_update).

Definition note_setattr (r : NoteRow) (a : NoteAttr) : NoteRow :=
  match a with
  | Note_title v =>
      mkNoteRow (note_id r) (note_user_id r) (note_collection_id r) v
        (note_description r) (note_updated_at r)
  | Note_description v =>
      mkNoteRow (note_id r) (note_user_id r) (note_collection_id r)
        (note_title r) v (note_updated_at r)
  | Note_collection_id v =>
      mkNoteRow (note_id r) (note_user_id r) v (note_title r)
        (note_description r) (note_updated_at r)
  end.

Definition update_note (db : DB) (note : Note) (update_data : list NoteAttr)
    : DB * Note :=
  flush db (mkObj (foldl note_setattr (obj_row note) update_data)
              (obj_state note) (obj_tags note)).

Definition update_user_note (db : DB) (user_id note_id' : Z)
    (note_update : NoteBase) : result (DB * Note) :=
  note ← get_user_note_by_id db user_id note_id';
  let update_data := note_update_data note_update in
  let tag_ids_to_set := mjoin (nb_tag_ids note_update) in
  match nb_collection_id note_update with
  | Some new_collection_id => check_note_collection db user_id new_collection_id
  | None => Ok ()
  end;;
  validate_tags db user_id tag_ids_to_set;;
  let '(db, note) :=
    match update_data with
    | [] => (db, note)
    | _ => update_note db note update_data
    end in
  '(db, note) ←
    match tag_ids_to_set with
    | Some ids => set_note_tags db note ids
    | None => Ok (db, note)
    end;
  (* commit *)
  note ← refresh db note;
  note ← refresh_tags db note;
  Ok (db, note).

Definition search_user_notes (db : DB) (user_id : Z) (query : string)
    (collection_id' : option Z) (skip lim : option Z) : result (list Note) :=
  if query_too_short query then Raise (HTTPException 400 QueryTooShort)
  else Ok (search_notes db user_id (strip query) collection_id' skip lim).

(** *** collections_services.py, tags_services.py *)

Definition search_user_collections (db : DB) (user_id : Z) (query : string)
    (type_filter : option string) (skip lim : option Z)
    : result (list Collection) :=
  if query_too_short query then Raise (HTTPException 400 QueryTooShort)
  else Ok (search_collections db user_id (strip query) type_filter skip lim).

Definition search_user_tags (db : DB) (user_id : Z) (query : string)
    (skip lim : option Z) : result (list Tag) :=
  if query_too_short query then Raise (HTTPException 400 QueryTooShort)
  else Ok (search_tags db user_id (strip query) skip lim).

(** *** search_services.py *)

(** The four services handed to [SearchService.__init__], each seen
    through the one method [global_search] calls. *)
Record SearchService : Type := mkSearchService {
  task_service :
    Z → string → option string → option string → option Z →
    option Z → option Z → result (list Task);
  note_service :
    Z → string → option Z → option Z → option Z → result (list Note);
  collection_service :
    Z → string → option string → option Z → option Z →
    result (list Collection);
  tag_service :
    Z → string → option Z → option Z → result (list Tag)
}.

(** [get_search_service]: the services over one store. *)
Definition get_search_service (db : DB) : SearchService :=
  mkSearchService (search_user_tasks db) (search_user_notes db)
    (search_user_collections db) (search_user_tags db).

(** [await asyncio.gather(a, b, c, d)], [return_exceptions] left at its
    default.  The four awaitables run concurrently.  When all succeed
    the results come back in argument order; otherwise the caller sees
    the exception that is raised first in time.  [finish i] is the time
    at which awaitable [i] finishes; of two that finish together the
    earlier argument counts. *)
Definition raised {A : Type} (i : nat) (m : result A)
    : list (nat * Exception) :=
  match m with
  | Raise e => [(i, e)]
  | Ok _ => []
  end.

Fixpoint first_raised (finish : nat → nat) (first : nat * Exception)
    (later : list (nat * Exception)) : Exception :=
  match later with
  | [] => first.2
  | x :: later =>
      first_raised finish
        (if (finish x.1 <? finish first.1)%nat then x else first) later
  end.

Definition gather {A B C D : Type} (finish : nat → nat) (a : result A)
    (b : result B) (c : result C) (d : result D) : result (A * B * C * D) :=
  match raised 0 a ++ raised 1 b ++ raised 2 c ++ raised 3 d with
  | [] => x ← a; y ← b; z ← c; w ← d; Ok (x, y, z, w)
  | first :: later => Raise (first_raised finish first later)
  end.

Record Results : Type := mkResults {
  tasks : list TaskOut;
  notes : list NoteOut;
  collections : list CollectionOut;
  tags : list TagOut
}.

Record Envelope : Type := mkEnvelope {
  query : string;
  results : Results;
  total_count : nat
}.

(** [SearchService.global_search]; [finish] gives the times at which the
    four sub-searches finish in the event loop. *)
Definition global_search (finish : nat → nat) (self : SearchService)
    (user_id : Z) (query : string) (limit_per_type : Z) : result Envelope :=
  if query_too_short query then Raise (HTTPException 400 QueryTooShort)
  else
    let stripped_query := strip query in
    '(tasks_results, notes_results, collections_results, tags_results) ←
      gather finish
        (task_service self user_id stripped_query None None None None None)
        (note_service self user_id stripped_query None None None)
        (collection_service self user_id stripped_query None None None)
        (tag_service self user_id stripped_query None None);
    let limited_tasks_orm := slice_to limit_per_type tasks_results in
    let limited_notes_orm := slice_to limit_per_type notes_results in
    let limited_collections_orm :=
      slice_to limit_per_type collections_results in
    let limited_tags_orm := slice_to limit_per_type tags_results in
    let limited_tasks_dto := TaskOut_model_validate <$> limited_tasks_orm in
    let limited_notes_dto := NoteOut_model_validate <$> limited_notes_orm in
    let limited_collections_dto :=
      CollectionOut_model_validate <$> limited_collections_orm in
    let limited_tags_dto := TagOut_model_validate <$> limited_tags_orm in
    let total_count :=
      (length tasks_results + length notes_results
       + length collections_results + length tags_results)%nat in
    Ok (mkEnvelope stripped_query
          (mkResults limited_tasks_dto limited_notes_dto
             limited_collections_dto limited_tags_dto)
          total_count).

(** ** What a run does

    The reconcilers, the search services and [global_search] once more,
    statement by statement as above, with the statements that act on the
    request, on the instance or on the session recorded in the order in
    which they run. *)

Inductive Kind : Type := TaskKind | NoteKind | CollectionKind | TagKind.

Inductive Event : Type :=
  | Validated (query : string)
      (* [if not query or len(query.strip()) < 2: raise ...] *)
  | Searched (kind : Kind) (query : string)
      (* [await self.<kind>_repo.search_<kind>s(...)] *)
  | Loaded_tags (tag_ids : list Z)
      (* [tags = await _load_tags(self.db, entity.user_id, tag_ids)] *)
  | Assigned (tags : list Tag)
      (* [entity.tags = tags] *)
  | Refreshed_tags
      (* [await self.db.refresh(entity, attribute_names=["tags"])] *)
  | Cleared
      (* [entity.tags.clear()] *)
  | Extended (tags : list Tag)
      (* [entity.tags.extend(tags)] *)
  | Flushed.
      (* [await self.db.flush()] *)

(** The statements that ran, and how the run ended. *)
Record logged (A : Type) : Type := Logged {
  events : list Event;
  outcome : result A
}.
Arguments Logged {A} _ _.
Arguments events {A} _.
Arguments outcome {A} _.

#[global] Instance logged_ret : MRet logged := λ A a, Logged [] (Ok a).
#[global] Instance logged_bind : MBind logged := λ A B k m,
  match outcome m with
  | Ok a => Logged (events m ++ events (k a)) (outcome (k a))
  | Raise e => Logged (events m) (Raise e)
  end.


Section set_tags_logged.
Context {R : Type} `{!Mapped R}.

End set_tags_logged.















(** ** Notions used to state the properties *)

(** A tag id resolves for a user when table [tags] holds a row with that
    id owned by the user. *)
Definition resolves (db : DB) (user_id x : Z) : Prop :=
  Exists (λ t, tag_id t = x ∧ tag_user_id t = user_id) (db_tags db).

(** Primary key of table [tags]. *)
Definition tags_pk (db : DB) : Prop := NoDup (tag_id <$> db_tags db).

(** [q in s] *)
Fixpoint startswith (q s : string) : bool :=
  match q, s with
  | EmptyString, _ => true
  | String c q', String d s' => Ascii.eqb c d && startswith q' s'
  | String _ _, EmptyString => false
  end.

Fixpoint contains (q s : string) : bool :=
  startswith q s ||
  match s with
  | EmptyString => false
  | String _ s' => contains q s'
  end.

(** Case-insensitive infix match of a query against a column. *)
Definition contains_ci (q s : string) : bool := contains (lower q) (lower s).

Definition contains_ci_opt (q : string) (s : option string) : bool :=
  match s with
  | Some s => contains_ci q s
  | None => false
  end.


(** Descending order on a key, and the same with ties broken by
    descending id. *)
Definition desc_by {A : Type} (key : A → Z) (l : list A) : Prop :=
  StronglySorted (λ a b, key b ≤ key a) l.

Definition desc_by_then_id {A : Type} (key id : A → Z) (l : list A) : Prop :=
  StronglySorted (λ a b, key b < key a ∨ (key b = key a ∧ id b ≤ id a)) l.

(** What the instances of [Mapped] have in common: the accessors of one
    table do not disturb the others. *)
Class MappedLaws (R : Type) `{!Mapped R} : Prop := {
  db_tags_with_table l db : db_tags (with_table l db) = db_tags db;
  db_tags_with_association a db : db_tags (with_association a db) = db_tags db;
  table_with_table l db : table (with_table l db) = l;
  table_with_association a db : table (with_association a db) = table db;
  association_with_table l db :
    association (with_table l db) = association db;
  association_with_association a db :
    association (with_association a db) = a;
  pk_with_updated_at t r : pk (with_updated_at t r) = pk r;
  owner_with_updated_at t r : owner (with_updated_at t r) = owner r;
  pk_with_pk i r : pk (with_pk i r) = i;
  owner_with_pk i r : owner (with_pk i r) = owner r
}.

(** The rows of a user a query matches as an infix, case-insensitively:
    on title or description for tasks and notes, on title for
    collections and tags. *)
Definition task_matches (user_id : Z) (q : string) (r : TaskRow) : Prop :=
  task_user_id r = user_id
  ∧ (contains_ci q (task_title r) = true
     ∨ contains_ci_opt q (task_description r) = true).




(** Two tasks of user 7 stamped at the same instant. *)
Definition db_ties : DB :=
  mkDB []
    [mkTaskRow 1 7 None "alpha one" None "TODO" "MEDIUM" 5;
     mkTaskRow 2 7 None "alpha two" None "TODO" "MEDIUM" 5]
    [] [] [] [] [] 9.

(** A task whose title a wild-card query matches without containing it. *)
Definition db_wild : DB :=
  mkDB []
    [mkTaskRow 1 7 None "task" None "TODO" "MEDIUM" 5]
    [] [] [] [] [] 9.

(** Two tasks of user 7: one title holds [10%], the other does not. *)
Definition db_percent : DB :=
  mkDB []
    [mkTaskRow 1 7 None "100 days" None "TODO" "MEDIUM" 5;
     mkTaskRow 2 7 None "10% off" None "TODO" "MEDIUM" 6]
    [] [] [] [] [] 9.


(** Setting the same tags twice on a persistent instance ends where
    setting them once does: same tag collection, same links. *)
Definition idempotent {R : Type} `{!Mapped R}
    (set_tags : DB → Obj R → list Z → result (DB * Obj R)) : Prop :=
  ∀ db entity tag_ids tags,
    obj_state entity = Persistent →
    _load_tags db (owner (obj_row entity)) tag_ids true = Ok tags →
    ∃ db1 entity1 db2 entity2,
      set_tags db entity tag_ids = Ok (db1, entity1)
      ∧ set_tags db1 entity1 tag_ids = Ok (db2, entity2)
      ∧ obj_tags entity2 = obj_tags entity1
      ∧ obj_tags entity1 = Some tags
      ∧ association (R:=R) db2 = association (R:=R) db1
      ∧ linked_tags (R:=R) db2 (pk (obj_row entity2))
        = linked_tags (R:=R) db1 (pk (obj_row entity1)).


(** ** Sample stores *)

(** Tags 1 and 3 of user 7, tag 2 of user 8, and one persistent task of
    user 7 linked to tag 1. *)
Definition db_tagged : DB :=
  mkDB
    [mkTag 1 7 "home" 1; mkTag 2 8 "work" 2; mkTag 3 7 "urgent" 3]
    [mkTaskRow 1 7 None "Team meeting" None "TODO" "MEDIUM" 5]
    [mkNoteRow 1 7 None "Minutes" (Some "of the meeting") 6]
    [mkCollectionRow 1 7 "Inbox" None MIXED 4]
    [(1, 1)] [] [] 9.

Definition task_1 : Task := loaded db_tagged
  (mkTaskRow 1 7 None "Team meeting" None "TODO" "MEDIUM" 5).


(** Collections of each kind owned by user 7, and one of user 8. *)
Definition db_policy : DB :=
  mkDB [] [] []
    [mkCollectionRow 1 7 "reading" None NOTES_ONLY 1;
     mkCollectionRow 2 7 "chores" None TASKS_ONLY 2;
     mkCollectionRow 3 7 "misc" None MIXED 3;
     mkCollectionRow 4 8 "theirs" None MIXED 4]
    [] [] [] 9.

(** Three tasks, two notes, no collection and one tag of user 7 that
    match "proj". *)
Definition db_proj : DB :=
  mkDB
    [mkTag 1 7 "project" 1; mkTag 2 7 "home" 2]
    [mkTaskRow 1 7 None "Project plan" None "TODO" "MEDIUM" 1;
     mkTaskRow 2 7 None "Review" (Some "the proj budget") "TODO" "HIGH" 2;
     mkTaskRow 3 7 None "proj kickoff" None "DONE" "LOW" 3;
     mkTaskRow 4 8 None "Project of somebody else" None "TODO" "LOW" 4]
    [mkNoteRow 1 7 None "Projector manual" None 1;
     mkNoteRow 2 7 None "Ideas" (Some "side PROJects") 2;
     mkNoteRow 3 7 None "Groceries" None 3]
    [mkCollectionRow 1 7 "Inbox" None MIXED 1]
    [] [] [] 9.




(** Notes of user 7 inside and outside collections. *)
Definition db_notes_sample : DB :=
  mkDB []
    [mkTaskRow 1 7 (Some 3) "report draft" None "TODO" "MEDIUM" 1;
     mkTaskRow 2 7 None "report review" None "TODO" "MEDIUM" 2]
    [mkNoteRow 1 7 (Some 3) "report outline" None 1;
     mkNoteRow 2 7 None "report sources" None 2]
    [mkCollectionRow 3 7 "misc" None MIXED 3]
    [] [] [] 9.

(** * The rest of the repositories, services and routers *)

(** ** Listing (repositories and services) *)

(** [xs[a:b]]: negative indices count from the end, indices beyond the
    ends are clipped. *)
Definition slice_index (len i : Z) : Z :=
  if i <? 0 then Z.max (i + len) 0 else Z.min i len.

Definition slice {A : Type} (a b : Z) (xs : list A) : list A :=
  let len := Z.of_nat (length xs) in
  let lo := slice_index len a in
  let hi := slice_index len b in
  take (Z.to_nat (hi - lo)) (drop (Z.to_nat lo) xs).

(** [TaskRepository.get_tasks_by_user] *)
Definition get_tasks_by_user (db : DB) (user_id : Z)
    (status priority : option string) (collection_id' : option Z)
    : list Task :=
  let stmt := filter (λ r, task_user_id r = user_id) (db_tasks db) in
  let stmt :=
    if truthy_str status
    then filter (λ r, Some (task_status r) = status) stmt else stmt in
  let stmt :=
    if truthy_str priority
    then filter (λ r, Some (task_priority r) = priority) stmt else stmt in
  let stmt :=
    if truthy_int collection_id'
    then filter (λ r, task_collection_id r = collection_id') stmt
    else stmt in
  loaded db <$> stmt.

(** [NoteRepository.get_notes_by_user] *)
Definition get_notes_by_user (db : DB) (user_id : Z)
    (collection_id' : option Z) : list Note :=
  let stmt := filter (λ r, note_user_id r = user_id) (db_notes db) in
  let stmt :=
    if truthy_int collection_id'
    then filter (λ r, note_collection_id r = collection_id') stmt
    else stmt in
  loaded db <$> stmt.

(** [CollectionRepository.get_collections_by_user] *)
Definition get_collections_by_user (db : DB) (user_id : Z)
    (type_filter : option string) : list Collection :=
  let stmt := filter (λ r, collection_user_id r = user_id) (db_collections db) in
  let stmt :=
    if truthy_str type_filter
    then filter (λ r, type_is (collection_type r) (default "" type_filter))
           stmt
    else stmt in
  loaded db <$> stmt.

(** [TagRepository.get_tags_by_user] *)
Definition get_tags_by_user (db : DB) (user_id : Z) : list Tag :=
  filter (λ r, tag_user_id r = user_id) (db_tags db).

(** [get_user_tasks], [get_user_notes], [get_user_collections] and
    [get_user_tags] of the services *)
Definition get_user_tasks (db : DB) (user_id : Z)
    (status priority : option string) (collection_id' : option Z)
    : list Task :=
  get_tasks_by_user db user_id status priority collection_id'.

Definition get_user_notes (db : DB) (user_id : Z) (collection_id' : option Z)
    : list Note :=
  get_notes_by_user db user_id collection_id'.

Definition get_user_collections (db : DB) (user_id : Z)
    (type_filter : option string) : list Collection :=
  get_collections_by_user db user_id type_filter.

Definition get_user_tags (db : DB) (user_id : Z) : list Tag :=
  get_tags_by_user db user_id.

(** ** Search endpoints (app/api/routers)

    Each endpoint takes the id of the authenticated user for
    [current_user].  The bounds FastAPI enforces on the parameters before
    the body runs ([q] of at least 2 characters, [skip >= 0],
    [1 <= limit <= 100]) are preconditions of the bodies below. *)

Module tasks_routers.
Definition search_tasks (db : DB) (current_user : Z) (q : string)
    (status priority : option string) (collection_id' : option Z)
    (skip limit : Z) : result (list TaskOut) :=
  tasks ← search_user_tasks db current_user q status priority collection_id'
             None None;
  let paginated_tasks := slice skip (skip + limit) tasks in
  Ok (TaskOut_model_validate <$> paginated_tasks).
End tasks_routers.

Module notes_routers.
Definition search_notes (db : DB) (current_user : Z) (q : string)
    (collection_id' : option Z) (skip limit : Z) : result (list NoteOut) :=
  notes ← search_user_notes db current_user q collection_id' None None;
  let paginated_notes := slice skip (skip + limit) notes in
  Ok (NoteOut_model_validate <$> paginated_notes).
End notes_routers.

Module collections_routers.
Definition search_collections (db : DB) (current_user : Z) (q : string)
    (type : option string) (skip limit : Z) : result (list CollectionOut) :=
  collections ← search_user_collections db current_user q type None None;
  let paginated_collections := slice skip (skip + limit) collections in
  Ok (CollectionOut_model_validate <$> paginated_collections).
End collections_routers.

Module tags_routers.
Definition search_tags (db : DB) (current_user : Z) (q : string)
    (skip limit : Z) : result (list TagOut) :=
  tags ← search_user_tags db current_user q None None;
  let paginated_tags := slice skip (skip + limit) tags in
  Ok (TagOut_model_validate <$> paginated_tags).
End tags_routers.

Module search_routers.
Definition global_search (finish : nat → nat) (db : DB) (current_user : Z)
    (q : string) (limit : Z) : result Envelope :=
  global_search finish (get_search_service db) current_user q limit.
End search_routers.

(** A query made of [%] only. *)
Fixpoint only_percent (q : string) : bool :=
  match q with
  | EmptyString => true
  | String c q' => Ascii.eqb c "%" && only_percent q'
  end.

(** ** Deleting through the session *)

Section session_delete.
Context {R : Type} `{!Mapped R}.

(** The DELETE statements a flush emits for a deleted instance with key
    [id]: its rows in the association table (the [tags] relationship has
    a secondary table), then its row. *)
Definition delete_row (db : DB) (id : Z) : DB :=
  let db := with_association
              (filter (λ '(t, e), e ≠ id) (association db)) db in
  with_table (filter (λ r, pk r ≠ id) (table db)) db.

(** [session.delete(obj)] followed by [session.flush()]; only an
    instance persistent in the session can be deleted. *)
Definition delete (db : DB) (o : Obj R) : result DB :=
  match obj_state o with
  | Persistent => Ok (delete_row db (pk (obj_row o)))
  | _ => Raise InvalidRequestError
  end.
End session_delete.

(** [TaskRepository.delete_task], [NoteRepository.delete_note] *)
Definition delete_task (db : DB) (task : Task) : result DB := delete db task.
Definition delete_note (db : DB) (note : Note) : result DB := delete db note.

(** [CollectionRepository.delete_collection]: the relationships [tasks]
    and [notes] of [Collection] cascade "all, delete-orphan", so the
    tasks and the notes of the collection are deleted with it. *)
Definition delete_collection (db : DB) (collection : Collection)
    : result DB :=
  match obj_state collection with
  | Persistent =>
      let id := collection_id (obj_row collection) in
      let tasks := filter (λ r, task_collection_id r = Some id) (db_tasks db) in
      let notes := filter (λ r, note_collection_id r = Some id) (db_notes db) in
      let db := foldl (delete_row (R:=TaskRow)) db (task_id <$> tasks) in
      let db := foldl (delete_row (R:=NoteRow)) db (note_id <$> notes) in
      Ok (delete_row (R:=CollectionRow) db id)
  | _ => Raise InvalidRequestError
  end.

(** [delete_user_task], [delete_user_note] of the services (the commit
    makes the returned store the durable one). *)
Definition delete_user_task (db : DB) (user_id task_id' : Z) : result DB :=
  task ← get_user_task_by_id db user_id task_id';
  delete_task db task.

Definition delete_user_note (db : DB) (user_id note_id' : Z) : result DB :=
  note ← get_user_note_by_id db user_id note_id';
  delete_note db note.

(** ** Tags: repository and service *)

(** The exceptions of the tag and collection services: an
    [HTTPException] with its status code and detail text, an exception
    raised by the repository or the session, or the [IntegrityError] of
    a flush that violates [unique_user_tag_title] or
    [unique_user_collection_title]. *)
Inductive Failure : Type :=
  | HTTP (status_code : Z) (detail : string)
  | Raised (e : Exception)
  | IntegrityError.

Inductive reply (A : Type) : Type :=
  | Done (a : A)
  | Failed (f : Failure).
Arguments Done {A} a.
Arguments Failed {A} f.

#[global] Instance reply_ret : MRet reply := λ A a, Done a.
#[global] Instance reply_bind : MBind reply := λ A B k m,
  match m with
  | Done a => k a
  | Failed f => Failed f
  end.

Definition lift {A : Type} (m : result A) : reply A :=
  match m with
  | Ok a => Done a
  | Raise e => Failed (Raised e)
  end.

Definition with_tags (l : list Tag) (db : DB) : DB :=
  mkDB l (db_tasks db) (db_notes db) (db_collections db)
    (tag_task_association db) (tag_note_association db)
    (tag_collection_association db) (db_now db).

Definition get_tag_by_id_and_user (db : DB) (tag_id' user_id : Z)
    : result (option Tag) :=
  scalar_one_or_none
    (filter (λ t, tag_id t = tag_id' ∧ tag_user_id t = user_id) (db_tags db)).

Definition get_tag_by_title_and_user (db : DB) (title : string) (user_id : Z)
    : result (option Tag) :=
  scalar_one_or_none
    (filter (λ t, tag_title t = title ∧ tag_user_id t = user_id) (db_tags db)).

(** The key the store gives the next tag. *)
Definition next_tag_id (db : DB) : Z :=
  1 + foldr (λ t m, Z.max (tag_id t) m) 0 (db_tags db).

(** [UniqueConstraint('user_id', 'title')] of table [tags]: a row
    other than [id] already has this title for this user. *)
Definition tag_title_taken (db : DB) (id user_id : Z) (title : string)
    : Prop :=
  Exists (λ t, tag_id t ≠ id ∧ tag_user_id t = user_id ∧ tag_title t = title)
    (db_tags db).

(** [TagRepository.create_tag]: insert, flush, refresh. *)
Definition create_tag (db : DB) (title : string) (user_id : Z)
    : reply (DB * Tag) :=
  let tag := mkTag (next_tag_id db) user_id title (db_now db) in
  if decide (tag_title_taken db (tag_id tag) user_id title)
  then Failed IntegrityError
  else Done (with_tags (db_tags db ++ [tag]) db, tag).

(** [TagRepository.update_tag]: [tag.title = title], flush, refresh.  A
    title that does not change writes nothing. *)
Definition update_tag (db : DB) (tag : Tag) (title : string)
    : reply (DB * Tag) :=
  if decide (tag_title tag = title) then Done (db, tag)
  else if decide (tag_title_taken db (tag_id tag) (tag_user_id tag) title)
  then Failed IntegrityError
  else
    let tag' := mkTag (tag_id tag) (tag_user_id tag) title (db_now db) in
    Done (with_tags ((λ t, if decide (tag_id t = tag_id tag) then tag' else t)
                       <$> db_tags db) db,
          tag').

(** [TagRepository.delete_tag]: the row, and its rows in the three
    association tables (the relationships [tasks], [notes] and
    [collections] of [Tag] have secondary tables). *)
Definition delete_tag (db : DB) (tag : Tag) : DB :=
  let id := tag_id tag in
  mkDB (filter (λ t, tag_id t ≠ id) (db_tags db))
    (db_tasks db) (db_notes db) (db_collections db)
    (filter (λ '(t, e), t ≠ id) (tag_task_association db))
    (filter (λ '(t, e), t ≠ id) (tag_note_association db))
    (filter (λ '(t, e), t ≠ id) (tag_collection_association db))
    (db_now db).

(** tags_services.py *)
Definition get_user_tag_by_id (db : DB) (user_id tag_id' : Z) : reply Tag :=
  tag ← lift (get_tag_by_id_and_user db tag_id' user_id);
  match tag with
  | Some t => Done t
  | None => Failed (HTTP 404 "Tag not found")
  end.

Definition create_tag_for_user (db : DB) (user_id : Z) (title : string)
    : reply (DB * Tag) :=
  existing_tag ← lift (get_tag_by_title_and_user db title user_id);
  match existing_tag with
  | Some _ =>
      Failed (HTTP 400 "Tag with this title already exists for the user")
  | None => create_tag db title user_id
  end.

Definition update_user_tag (db : DB) (user_id tag_id' : Z) (title : string)
    : reply (DB * Tag) :=
  tag ← get_user_tag_by_id db user_id tag_id';
  (if decide (title ≠ tag_title tag) then
     existing_tag ← lift (get_tag_by_title_and_user db title user_id);
     match existing_tag with
     | Some _ =>
         Failed (HTTP 400 "Tag with this title already exists for the user")
     | None => Done ()
     end
   else Done ());;
  update_tag db tag title.

Definition delete_user_tag (db : DB) (user_id tag_id' : Z) : reply DB :=
  tag ← get_user_tag_by_id db user_id tag_id';
  Done (delete_tag db tag).

(** ** Collections: repository and service *)

(** [CollectionBase] / [CollectionCreate] as received. *)
Record CollectionBase : Type := mkCollectionBase {
  cb_title : string;
  cb_description : option (option string);
  cb_type : option CollectionType;
  cb_tag_ids : option (option (list Z))
}.

Module collections_repositories.
(** The collection repository's own [get_collection_by_id_and_user]
    loads the tags with the row. *)
Definition get_collection_by_id_and_user (db : DB) (cid user_id : Z)
    : result (option Collection) :=
  match scalar_one_or_none
          (filter (λ c, collection_id c = cid ∧ collection_user_id c = user_id)
             (db_collections db)) with
  | Ok (Some r) => Ok (Some (loaded db r))
  | Ok None => Ok None
  | Raise e => Raise e
  end.
End collections_repositories.

Definition get_collection_by_title_and_user (db : DB) (title : string)
    (user_id : Z) : result (option CollectionRow) :=
  scalar_one_or_none
    (filter (λ c, collection_title c = title ∧ collection_user_id c = user_id)
       (db_collections db)).

(** [UniqueConstraint('user_id', 'title')] of table [collections]: a
    row other than [id] already has this title for this user. *)
Definition collection_title_taken (db : DB) (id user_id : Z) (title : string)
    : Prop :=
  Exists (λ c, collection_id c ≠ id ∧ collection_user_id c = user_id
               ∧ collection_title c = title)
    (db_collections db).

Definition create_collection (db : DB) (collection_data : CollectionRow)
    : reply (DB * Collection) :=
  if decide (collection_title_taken db (next_pk (db_collections db))
               (collection_user_id collection_data)
               (collection_title collection_data))
  then Failed IntegrityError
  else Done (flush db (add (mkObj collection_data Transient None))).

(** One entry of [collection_update.dict(exclude_unset=True)]. *)
Inductive CollectionAttr : Type :=
  | Collection_title (v : string)
  | Collection_description (v : option string)
  | Collection_type (v : CollectionType).

Definition collection_update_data (collection_update : CollectionBase)
    : list CollectionAttr :=
  [Collection_title (cb_title collection_update)]
  ++ option_list (Collection_description <$> cb_description collection_update)
  ++ option_list (Collection_type <$> cb_type collection_update).

Definition collection_setattr (r : CollectionRow) (a : CollectionAttr)
    : CollectionRow :=
  match a with
  | Collection_title v =>
      mkCollectionRow (collection_id r) (collection_user_id r) v
        (collection_description r) (collection_type r)
        (collection_updated_at r)
  | Collection_description v =>
      mkCollectionRow (collection_id r) (collection_user_id r)
        (collection_title r) v (collection_type r) (collection_updated_at r)
  | Collection_type v =>
      mkCollectionRow (collection_id r) (collection_user_id r)
        (collection_title r) (collection_description r) v
        (collection_updated_at r)
  end.

Definition update_collection (db : DB) (collection : Collection)
    (update_data : list CollectionAttr) : reply (DB * Collection) :=
  let row := foldl collection_setattr (obj_row collection) update_data in
  if decide (collection_title_taken db (collection_id row)
               (collection_user_id row) (collection_title row))
  then Failed IntegrityError
  else Done (flush db (mkObj row (obj_state collection)
                         (obj_tags collection))).

(** collections_services.py.  [get_user_collection_by_id] is modelled
    with [preload_items] left at its default. *)
Definition get_user_collection_by_id (db : DB) (user_id cid : Z)
    : reply Collection :=
  collection ←
    lift (collections_repositories.get_collection_by_id_and_user db cid
            user_id);
  match collection with
  | Some c => Done c
  | None => Failed (HTTP 404 "Collection not found")
  end.

(** [collection_create.dict()] with [tag_ids] popped and [user_id] added. *)
Definition collection_data (user_id : Z) (collection_create : CollectionBase)
    : CollectionRow :=
  mkCollectionRow 0 user_id (cb_title collection_create)
    (mjoin (cb_description collection_create))
    (default MIXED (cb_type collection_create)) 0.

Definition create_collection_for_user (db : DB) (user_id : Z)
    (collection_create : CollectionBase) : reply (DB * Collection) :=
  existing ←
    lift (get_collection_by_title_and_user db (cb_title collection_create)
            user_id);
  match existing with
  | Some _ =>
      Failed
        (HTTP 400 "Collection with this title already exists for the user")
  | None =>
      let data := collection_data user_id collection_create in
      let tag_ids := mjoin (cb_tag_ids collection_create) in
      lift (validate_tags db user_id tag_ids);;
      '(db, new_collection) ← create_collection db data;
      '(db, new_collection) ←
        match tag_ids with
        | Some ids => lift (set_collection_tags db new_collection ids)
        | None => Done (db, new_collection)
        end;
      (* commit *)
      new_collection ← lift (refresh db new_collection);
      new_collection ← lift (refresh_tags db new_collection);
      Done (db, new_collection)
  end.

Definition update_user_collection (db : DB) (user_id cid : Z)
    (collection_update : CollectionBase) : reply (DB * Collection) :=
  collection ← get_user_collection_by_id db user_id cid;
  (if decide (cb_title collection_update
              ≠ collection_title (obj_row collection)) then
     dup ← lift (get_collection_by_title_and_user db
                   (cb_title collection_update) user_id);
     match dup with
     | Some _ =>
         Failed
           (HTTP 400 "Collection with this title already exists for the user")
     | None => Done ()
     end
   else Done ());;
  let update_data := collection_update_data collection_update in
  let tag_ids_to_set := mjoin (cb_tag_ids collection_update) in
  '(db, collection) ← update_collection db collection update_data;
  '(db, collection) ←
    match tag_ids_to_set with
    | Some ids => lift (set_collection_tags db collection ids)
    | None => Done (db, collection)
    end;
  (* commit *)
  collection ← lift (refresh db collection);
  collection ← lift (refresh_tags db collection);
  Done (db, collection).

Definition delete_user_collection (db : DB) (user_id cid : Z) : reply DB :=
  collection ← get_user_collection_by_id db user_id cid;
  lift (delete_collection db collection).

(** ** Integrity of the store *)

(** Two mapped classes keep their tables apart. *)
Class Separate (R R' : Type) `{!Mapped R, !Mapped R'} : Prop := {
  table_with_table_other l db :
    table (R:=R') (with_table (R:=R) l db) = table (R:=R') db;
  table_with_association_other a db :
    table (R:=R') (with_association (R:=R) a db) = table (R:=R') db;
  association_with_table_other l db :
    association (R:=R') (with_table (R:=R) l db) = association (R:=R') db;
  association_with_association_other a db :
    association (R:=R') (with_association (R:=R) a db)
    = association (R:=R') db
}.

(** Primary key of a table. *)
Definition keys_unique (R : Type) `{!Mapped R} (db : DB) : Prop :=
  NoDup (pk <$> table (R:=R) db).

(** Every row of the association table links a stored tag to a stored
    entity of the same owner. *)
Definition links_sound (R : Type) `{!Mapped R} (db : DB) : Prop :=
  ∀ t e, (t, e) ∈ association (R:=R) db →
    ∃ tg r, tg ∈ db_tags db ∧ tag_id tg = t
            ∧ r ∈ table (R:=R) db ∧ pk r = e
            ∧ tag_user_id tg = owner r.

Definition entity_sound (R : Type) `{!Mapped R} (db : DB) : Prop :=
  keys_unique R db ∧ links_sound R db.

Definition store_sound (db : DB) : Prop :=
  tags_pk db
  ∧ entity_sound TaskRow db
  ∧ entity_sound NoteRow db
  ∧ entity_sound CollectionRow db.

(** An instance the session holds for a stored row: persistent, with a
    row of its key in the table, and with the owner of that row. *)
Definition attached {R : Type} `{!Mapped R} (db : DB) (o : Obj R) : Prop :=
  obj_state o = Persistent
  ∧ pk (obj_row o) ∈ pk <$> table (R:=R) db
  ∧ ∀ r, r ∈ table (R:=R) db → pk r = pk (obj_row o) →
         owner r = owner (obj_row o).

(** A store in good order: keys 1 to 3 per table, links within owner 7. *)
Definition db_sound : DB :=
  mkDB
    [mkTag 1 7 "home" 1; mkTag 2 8 "work" 2; mkTag 3 7 "urgent" 3]
    [mkTaskRow 1 7 (Some 1) "Team meeting" None "TODO" "MEDIUM" 5;
     mkTaskRow 2 7 None "Call back" (Some "about the offer") "DONE" "HIGH" 6;
     mkTaskRow 3 8 None "Theirs" None "TODO" "LOW" 7]
    [mkNoteRow 1 7 (Some 1) "Minutes" (Some "of the meeting") 6;
     mkNoteRow 2 7 None "Ideas" None 7]
    [mkCollectionRow 1 7 "Inbox" None MIXED 4;
     mkCollectionRow 2 7 "Archive" None TASKS_ONLY 5]
    [(1, 1); (3, 1); (3, 2); (2, 3)] [(1, 1)] [(3, 1)] 9.

(** The row a flush of the persistent instance [o] leaves in place of
    [r]: rows of other keys stay, the row of the instance is rewritten
    and stamped when its columns changed. *)
Definition stamped {R : Type} `{!Mapped R} (db : DB) (o : Obj R) (r : R) : R :=
  if decide (pk r = pk (obj_row o)) then
    if decide (r = obj_row o) then r
    else with_updated_at (db_now db) (obj_row o)
  else r.

(** The tags an instance carries are stored tags of its owner. *)
Definition tags_of_owner {R : Type} `{!Mapped R} (db : DB) (o : Obj R)
    : Prop :=
  ∀ tg, tg ∈ default [] (obj_tags o) →
        tg ∈ db_tags db ∧ tag_user_id tg = owner (obj_row o).

(** A write to the table and the association table of [R] alone. *)
Definition only_touches (R : Type) `{!Mapped R} (db db' : DB) : Prop :=
  db_tags db' = db_tags db
  ∧ ∀ (R' : Type) (M' : Mapped R'), Separate R R' →
      table (R:=R') db' = table (R:=R') db
      ∧ association (R:=R') db' = association (R:=R') db.

(** The steps the create and update methods share once the row is
    flushed: reconcile the tags when a list was given, commit, reload
    the instance and its tags. *)
Definition finish {R : Type} `{!Mapped R} (flushed : DB * Obj R)
    (tag_ids : option (list Z)) : result (DB * Obj R) :=
  let '(db, o) := flushed in
  '(db, o) ←
    match tag_ids with
    | Some ids => set_entity_tags db o ids
    | None => Ok (db, o)
    end;
  o ← refresh db o;
  o ← refresh_tags db o;
  Ok (db, o).

(** What a write to the tasks (notes, collections) and their links
    leaves as it was. *)
Definition same_but_tasks (db db' : DB) : Prop :=
  db_tags db' = db_tags db
  ∧ db_notes db' = db_notes db
  ∧ db_collections db' = db_collections db
  ∧ tag_note_association db' = tag_note_association db
  ∧ tag_collection_association db' = tag_collection_association db.

Definition same_but_notes (db db' : DB) : Prop :=
  db_tags db' = db_tags db
  ∧ db_tasks db' = db_tasks db
  ∧ db_collections db' = db_collections db
  ∧ tag_task_association db' = tag_task_association db
  ∧ tag_collection_association db' = tag_collection_association db.

Definition same_but_collections (db db' : DB) : Prop :=
  db_tags db' = db_tags db
  ∧ db_tasks db' = db_tasks db
  ∧ db_notes db' = db_notes db
  ∧ tag_task_association db' = tag_task_association db
  ∧ tag_note_association db' = tag_note_association db.

(** The stored tags of [user_id] among the requested [ids]. *)
Definition requested (db : DB) (user_id : Z) (ids : list Z) (tg : Tag) : Prop :=
  tg ∈ db_tags db ∧ tag_user_id tg = user_id ∧ tag_id tg ∈ ids.

(** No user has two tags, or two collections, of the same title. *)
Definition tag_titles_unique (db : DB) : Prop :=
  ∀ t1 t2, t1 ∈ db_tags db → t2 ∈ db_tags db →
    tag_user_id t1 = tag_user_id t2 → tag_title t1 = tag_title t2 → t1 = t2.

Definition collection_titles_unique (db : DB) : Prop :=
  ∀ c1 c2, c1 ∈ db_collections db → c2 ∈ db_collections db →
    collection_user_id c1 = collection_user_id c2 →
    collection_title c1 = collection_title c2 → c1 = c2.

(** What a write to the tags leaves as it was. *)
Definition same_but_tags (db db' : DB) : Prop :=
  db_tasks db' = db_tasks db
  ∧ db_notes db' = db_notes db
  ∧ db_collections db' = db_collections db
  ∧ tag_task_association db' = tag_task_association db
  ∧ tag_note_association db' = tag_note_association db
  ∧ tag_collection_association db' = tag_collection_association db.

(** * Properties *)

(** ** Python built-ins *)

Example dict_fromkeys_keeps_first :
  dict_fromkeys [5; 3; 9; 3; 2; 5; 1] = [5; 3; 9; 2; 1].
Proof. by vm_compute. Qed.

Lemma elem_of_dict_fromkeys_from seen xs x :
  x ∈ dict_fromkeys_from seen xs ↔ x ∈ xs ∧ x ∉ seen.
Proof.
  revert seen. induction xs as [|y xs IH]; intros seen; simpl.
  - split; [intros H; inversion H | intros [H _]; inversion H].
  - destruct (decide (y ∈ seen)) as [Hy|Hy].
    + rewrite IH, elem_of_cons. split; [tauto|].
      intros [[->|Hx] Hn]; [contradiction | tauto].
    + rewrite !elem_of_cons, IH, elem_of_union, elem_of_singleton.
      split; [intros [->|[Hx Hn]]; tauto|].
      intros [[->|Hx] Hn]; [tauto|].
      destruct (decide (x = y)); tauto.
Qed.

Lemma NoDup_dict_fromkeys_from seen xs : NoDup (dict_fromkeys_from seen xs).
Proof.
  revert seen. induction xs as [|y xs IH]; intros seen; simpl.
  - constructor.
  - destruct (decide (y ∈ seen)); [apply IH|].
    constructor; [|apply IH].
    rewrite elem_of_dict_fromkeys_from, elem_of_union, elem_of_singleton.
    tauto.
Qed.

Lemma elem_of_dict_fromkeys xs x : x ∈ dict_fromkeys xs ↔ x ∈ xs.
Proof.
  unfold dict_fromkeys. rewrite elem_of_dict_fromkeys_from.
  pose proof (not_elem_of_empty (C:=gset Z) x). tauto.
Qed.

Lemma NoDup_dict_fromkeys xs : NoDup (dict_fromkeys xs).
Proof. apply NoDup_dict_fromkeys_from. Qed.

Lemma size_set_NoDup ids : NoDup ids → size (set ids) = length ids.
Proof. apply size_list_to_set. Qed.

Lemma StronglySorted_le_lt (l : list Z) :
  StronglySorted Z.le l → NoDup l → StronglySorted Z.lt l.
Proof.
  induction 1 as [|x l Hs IH Hall]; intros Hnd; [constructor|].
  apply NoDup_cons in Hnd as [Hx Hnd].
  constructor; [by apply IH|].
  rewrite Forall_forall in Hall |- *. intros y Hy.
  specialize (Hall y Hy).
  assert (x ≠ y) by (intros ->; done). lia.
Qed.

Lemma sorted_StronglySorted s : StronglySorted Z.lt (sorted s).
Proof.
  unfold sorted. apply StronglySorted_le_lt.
  - apply StronglySorted_merge_sort; apply _.
  - rewrite merge_sort_Permutation. apply NoDup_elements.
Qed.

Lemma elem_of_sorted s x : x ∈ sorted s ↔ x ∈ s.
Proof. unfold sorted. rewrite merge_sort_Permutation. apply elem_of_elements. Qed.

(** ** Tag ownership *)

Lemma elem_of_select_tags_in db user_id ids t :
  t ∈ select_tags_in db user_id ids ↔
  t ∈ db_tags db ∧ tag_user_id t = user_id ∧ tag_id t ∈ ids.
Proof. unfold select_tags_in. rewrite list_elem_of_filter. tauto. Qed.

Lemma select_tags_in_nil db user_id : select_tags_in db user_id [] = [].
Proof.
  unfold select_tags_in. induction (db_tags db) as [|t l IH]; [done|].
  rewrite filter_cons, IH. destruct (decide _) as [[_ H]|]; [inversion H|done].
Qed.

Lemma found_ids_resolved db user_id ids x :
  x ∈ tag_id <$> select_tags_in db user_id ids ↔ x ∈ ids ∧ resolves db user_id x.
Proof.
  rewrite list_elem_of_fmap. unfold resolves. rewrite Exists_exists. split.
  - intros (t & -> & Ht). apply elem_of_select_tags_in in Ht. naive_solver.
  - intros (Hx & t & Ht & <- & Hu). exists t. split; [done|].
    apply elem_of_select_tags_in. done.
Qed.

Lemma NoDup_found_ids db user_id ids :
  tags_pk db → NoDup (tag_id <$> select_tags_in db user_id ids).
Proof.
  intros Hpk. eapply sublist_NoDup; [exact Hpk|].
  apply fmap_sublist, sublist_filter.
Qed.

(** The length test of [_load_tags] passes exactly when every requested id
    resolves. *)
Lemma length_test_all_resolve db user_id ids :
  tags_pk db → NoDup ids →
  length (select_tags_in db user_id ids) = size (set ids) ↔
  ∀ x, x ∈ ids → resolves db user_id x.
Proof.
  intros Hpk Hnd. rewrite size_set_NoDup by done.
  rewrite <- (length_fmap tag_id).
  pose proof (NoDup_found_ids db user_id ids Hpk) as Hf.
  assert (tag_id <$> select_tags_in db user_id ids ⊆+ ids) as Hsub.
  { apply NoDup_submseteq; [done|]. intros x Hx.
    by apply found_ids_resolved in Hx as [? _]. }
  split.
  - intros Hlen x Hx.
    apply submseteq_length_Permutation in Hsub; [|lia].
    rewrite <- Hsub in Hx. by apply found_ids_resolved in Hx as [_ ?].
  - intros Hall. apply Nat.le_antisymm; [by apply submseteq_length|].
    apply submseteq_length, NoDup_submseteq; [done|].
    intros x Hx. apply found_ids_resolved. auto.
Qed.

Lemma dict_fromkeys_nil_inv tag_ids x :
  dict_fromkeys tag_ids = [] → x ∉ tag_ids.
Proof.
  intros Hnil Hx. apply elem_of_dict_fromkeys in Hx.
  rewrite Hnil in Hx. inversion Hx.
Qed.

(** C2: with [require_all], a request holding an id that does not resolve
    for the user raises a 400 whose payload is the sorted difference
    between the requested ids and the ids found, that is, exactly the
    requested ids that do not resolve, in strictly ascending order; a
    request whose ids all resolve returns the user's tags with those ids. *)
Theorem load_tags_require_all (db : DB) (user_id : Z) (tag_ids : list Z) :
  tags_pk db →
  ((∃ x, x ∈ tag_ids ∧ ¬ resolves db user_id x) →
   ∃ missing,
     _load_tags db user_id tag_ids true
       = Raise (HTTPException 400 (TagsNotFound missing))
     ∧ missing
       = sorted (set (dict_fromkeys tag_ids)
                 ∖ set (tag_id <$> select_tags_in db user_id
                                      (dict_fromkeys tag_ids)))
     ∧ StronglySorted Z.lt missing
     ∧ ∀ x, x ∈ missing ↔ x ∈ tag_ids ∧ ¬ resolves db user_id x)
  ∧ ((∀ x, x ∈ tag_ids → resolves db user_id x) →
     ∃ tags,
       _load_tags db user_id tag_ids true = Ok tags
       ∧ (∀ t, t ∈ tags ↔
               t ∈ db_tags db ∧ tag_user_id t = user_id ∧ tag_id t ∈ tag_ids)
       ∧ ∀ x, x ∈ tag_ids → x ∈ tag_id <$> tags).
Proof.
  intros Hpk.
  pose proof (NoDup_dict_fromkeys tag_ids) as Hnd.
  pose proof (length_test_all_resolve db user_id _ Hpk Hnd) as Htest.
  unfold _load_tags. split.
  - intros (x & Hx & Hnx). eexists.
    destruct (dict_fromkeys tag_ids) as [|i ids] eqn:Hids.
    { by apply (dict_fromkeys_nil_inv _ x) in Hids. }
    rewrite <- Hids in *.
    destruct (Nat.eqb_spec (length (select_tags_in db user_id (dict_fromkeys tag_ids)))
                (size (set (dict_fromkeys tag_ids)))) as [Heq|Hne]; simpl.
    { exfalso. apply Hnx. apply (proj1 Htest Heq).
      by apply elem_of_dict_fromkeys. }
    split; [reflexivity|]. split; [reflexivity|].
    split; [apply sorted_StronglySorted|].
    intros y. rewrite elem_of_sorted, elem_of_difference.
    unfold set. rewrite !elem_of_list_to_set, found_ids_resolved.
    rewrite elem_of_dict_fromkeys. tauto.
  - intros Hall.
    destruct (dict_fromkeys tag_ids) as [|i ids] eqn:Hids.
    { exists []. split; [done|]. split.
      - intros t. split; [intros Ht; inversion Ht|].
        intros (_ & _ & Ht). by apply (dict_fromkeys_nil_inv _ _ Hids) in Ht.
      - intros x Hx. by apply (dict_fromkeys_nil_inv _ _ Hids) in Hx. }
    rewrite <- Hids in *. eexists.
    destruct (Nat.eqb_spec (length (select_tags_in db user_id (dict_fromkeys tag_ids)))
                (size (set (dict_fromkeys tag_ids)))) as [Heq|Hne]; simpl.
    2:{ exfalso. apply Hne. apply (proj2 Htest). intros x Hx. apply Hall.
        by apply elem_of_dict_fromkeys. }
    split; [reflexivity|]. split.
    + intros t. rewrite elem_of_select_tags_in, elem_of_dict_fromkeys. tauto.
    + intros x Hx. apply found_ids_resolved. split; [|by apply Hall].
      by apply elem_of_dict_fromkeys.
Qed.

(** ** Strings *)

Lemma rstrip_head c s :
  isspace c = false → rstrip (String c s) = String c (rstrip s).
Proof. intros Hc. simpl. rewrite Hc. by destruct (rstrip s). Qed.

Lemma rstrip_idemp s : rstrip (rstrip s) = rstrip s.
Proof.
  induction s as [|c s IH]; [done|]. simpl.
  destruct (rstrip s) as [|d r] eqn:Hr.
  - destruct (isspace c) eqn:Hc; [done|]. simpl. by rewrite Hc.
  - simpl in *. by rewrite IH.
Qed.

Lemma lstrip_rstrip_lstrip s : lstrip (rstrip (lstrip s)) = rstrip (lstrip s).
Proof.
  induction s as [|c s IH]; [done|]. simpl.
  destruct (isspace c) eqn:Hc; [done|].
  rewrite rstrip_head by done. simpl. by rewrite Hc.
Qed.

Lemma strip_idemp s : strip (strip s) = strip s.
Proof. unfold strip. by rewrite lstrip_rstrip_lstrip, rstrip_idemp. Qed.

Lemma query_too_short_length q :
  query_too_short q = (String.length (strip q) <? 2)%nat.
Proof. unfold query_too_short. by destruct q. Qed.

Lemma query_too_short_strip q :
  query_too_short q = false → query_too_short (strip q) = false.
Proof. rewrite !query_too_short_length. by rewrite strip_idemp. Qed.

(** ** LIKE against a literal *)

Lemma like_percent p s :
  like (String "%" p) s
  = like p s || match s with
                | EmptyString => false
                | String _ s' => like (String "%" p) s'
                end.
Proof. by destruct s. Qed.



Lemma like_percent_only s : like "%" s = true.
Proof.
  induction s as [|d s IH]; [done|].
  rewrite like_percent. simpl in *. by rewrite IH.
Qed.






Lemma lower_app s t : lower (s +:+ t) = lower s +:+ lower t.
Proof.
  induction s as [|c s IH]; [done|].
  change (String c s +:+ t) with (String c (s +:+ t)). simpl.
  change (String (lower_char c) (lower s) +:+ lower t)
    with (String (lower_char c) (lower s +:+ lower t)).
  by rewrite IH.
Qed.

Lemma lower_search_term q : lower (search_term q) = search_term (lower q).
Proof.
  unfold search_term.
  change (String "%" q +:+ "%") with (String "%" (q +:+ "%")).
  simpl. by rewrite lower_app.
Qed.




(** [contains] is the infix relation. *)
Lemma startswith_spec q s : startswith q s = true ↔ ∃ post, s = q +:+ post.
Proof.
  revert s. induction q as [|c q IH]; intros s.
  - split; [by exists s|done].
  - destruct s as [|d s]; simpl.
    + split; [done|]. by intros [post Hp].
    + rewrite andb_true_iff, IH. split.
      * intros [Hc [post ->]]. apply Ascii.eqb_eq in Hc as ->. by exists post.
      * intros [post Hp].
        change (String c q +:+ post) with (String c (q +:+ post)) in Hp.
        injection Hp as -> ->. split; [apply Ascii.eqb_refl|by exists post].
Qed.

Lemma contains_spec q s :
  contains q s = true ↔ ∃ pre post, s = pre +:+ q +:+ post.
Proof.
  induction s as [|d s IH]; simpl.
  - rewrite orb_false_r, startswith_spec. split.
    + intros [post Hp]. by exists "", post.
    + intros (pre & post & Hp). destruct pre; [by exists post|done].
  - rewrite orb_true_iff, startswith_spec, IH. split.
    + intros [[post Hp]|(pre & post & Hp)].
      * by exists "", post.
      * exists (String d pre), post. by rewrite Hp.
    + intros (pre & post & Hp). destruct pre as [|c pre].
      * left. by exists post.
      * change (String c pre +:+ q +:+ post)
          with (String c (pre +:+ q +:+ post)) in Hp.
        injection Hp as -> ->. right. by exists pre, post.
Qed.

(** ** ORDER BY, OFFSET and LIMIT *)

Section order_by_facts.
Context {A : Type} (key : A → Z).

Lemma insert_desc_Permutation x l : insert_desc key x l ≡ₚ x :: l.
Proof.
  induction l as [|y l IH]; [done|]. simpl.
  destruct (key y <=? key x); [done|].
  rewrite IH. apply Permutation_swap.
Qed.

Lemma order_by_desc_Permutation l : order_by_desc key l ≡ₚ l.
Proof.
  induction l as [|x l IH]; [done|]. simpl.
  by rewrite insert_desc_Permutation, IH.
Qed.

Lemma elem_of_order_by_desc x l : x ∈ order_by_desc key l ↔ x ∈ l.
Proof. by rewrite order_by_desc_Permutation. Qed.

Lemma insert_desc_sorted x l :
  desc_by key l → desc_by key (insert_desc key x l).
Proof.
  unfold desc_by. induction 1 as [|y l Hs IH Hall]; simpl.
  - repeat constructor.
  - destruct (Z.leb_spec (key y) (key x)) as [Hle|Hlt].
    + constructor; [by constructor|].
      constructor; [done|].
      eapply Forall_impl; [exact Hall|]. simpl. intros z Hz. lia.
    + constructor; [done|].
      rewrite insert_desc_Permutation. constructor; [lia|done].
Qed.

Lemma order_by_desc_sorted l : desc_by key (order_by_desc key l).
Proof.
  induction l as [|x l IH]; simpl; [constructor|].
  by apply insert_desc_sorted.
Qed.
End order_by_facts.

Lemma StronglySorted_sublist {A : Type} (R : relation A) (l k : list A) :
  l `sublist_of` k → StronglySorted R k → StronglySorted R l.
Proof.
  induction 1 as [|x l k Hsub IH|x l k Hsub IH]; intros Hk.
  - constructor.
  - apply StronglySorted_inv in Hk as [Hk Hall]. constructor; [by apply IH|].
    rewrite Forall_forall in Hall |- *. intros y Hy. apply Hall.
    by eapply elem_of_sublist.
  - apply StronglySorted_inv in Hk as [Hk _]. by apply IH.
Qed.

Lemma window_sublist {A : Type} (skip lim : option Z) (l : list A) :
  limit lim (offset skip l) `sublist_of` l.
Proof.
  transitivity (offset skip l).
  - destruct lim as [n|]; simpl; [|done].
    destruct (n <? 0); [done|apply sublist_take].
  - destruct skip as [n|]; simpl; [apply sublist_drop|done].
Qed.

Lemma elem_of_window {A : Type} (skip lim : option Z) (l : list A) x :
  x ∈ limit lim (offset skip l) → x ∈ l.
Proof. intros Hx. eapply elem_of_sublist; [exact Hx|apply window_sublist]. Qed.

Lemma window_desc_by {A : Type} (key : A → Z) skip lim (l : list A) :
  desc_by key l → desc_by key (limit lim (offset skip l)).
Proof. apply StronglySorted_sublist, window_sublist. Qed.

(** ** The statements the four searches execute *)

Lemma search_tasks_stmt db user_id q status priority cid skip lim :
  ∃ stmt,
    search_tasks db user_id q status priority cid skip lim
    = loaded db <$> limit lim (offset skip
                                 (order_by_desc task_updated_at stmt))
    ∧ ∀ r, r ∈ stmt ↔
        r ∈ db_tasks db ∧ task_user_id r = user_id
        ∧ (truthy_str status = true → Some (task_status r) = status)
        ∧ (truthy_str priority = true → Some (task_priority r) = priority)
        ∧ (truthy_int cid = true → task_collection_id r = cid)
        ∧ (String.eqb q "" = false →
           sql_true (sql_or (ilike (Some (task_title r)) (search_term q))
                            (ilike (task_description r) (search_term q)))).
Proof.
  unfold search_tasks. eexists. split; [reflexivity|]. intros r.
  destruct (truthy_str status), (truthy_str priority), (truthy_int cid),
    (String.eqb q ""); simpl; rewrite ?list_elem_of_filter; naive_solver.
Qed.

Lemma search_notes_stmt db user_id q cid skip lim :
  ∃ stmt,
    search_notes db user_id q cid skip lim
    = loaded db <$> limit lim (offset skip
                                 (order_by_desc note_updated_at stmt))
    ∧ ∀ r, r ∈ stmt ↔
        r ∈ db_notes db ∧ note_user_id r = user_id
        ∧ (is_Some cid → note_collection_id r = cid)
        ∧ (String.eqb q "" = false →
           sql_true (sql_or (ilike (Some (note_title r)) (search_term q))
                            (ilike (note_description r) (search_term q)))).
Proof.
  unfold search_notes. eexists. split; [reflexivity|]. intros r.
  destruct cid as [c|], (String.eqb q ""); simpl;
    rewrite ?list_elem_of_filter, ?is_Some_alt; naive_solver.
Qed.

Lemma search_collections_stmt db user_id q type_filter skip lim :
  ∃ stmt,
    search_collections db user_id q type_filter skip lim
    = loaded db <$> limit lim (offset skip
                                 (order_by_desc collection_updated_at stmt))
    ∧ ∀ r, r ∈ stmt ↔
        r ∈ db_collections db ∧ collection_user_id r = user_id
        ∧ (∀ ty, type_filter = Some ty → type_is (collection_type r) ty)
        ∧ (String.eqb q "" = false →
           sql_true (ilike (Some (collection_title r)) (search_term q))).
Proof.
  unfold search_collections. eexists. split; [reflexivity|]. intros r.
  destruct type_filter as [ty|], (String.eqb q ""); simpl;
    rewrite ?list_elem_of_filter; naive_solver.
Qed.

Lemma search_tags_stmt db user_id q skip lim :
  ∃ stmt,
    search_tags db user_id q skip lim
    = limit lim (offset skip (order_by_desc tag_updated_at stmt))
    ∧ ∀ r, r ∈ stmt ↔
        r ∈ db_tags db ∧ tag_user_id r = user_id
        ∧ (String.eqb q "" = false →
           sql_true (ilike (Some (tag_title r)) (search_term q))).
Proof.
  unfold search_tags. eexists. split; [reflexivity|]. intros r.
  destruct (String.eqb q ""); simpl; rewrite ?list_elem_of_filter;
    naive_solver.
Qed.

(** ** Scope, order and filters of the searches *)

(** C9: whatever the query, the filters and the window, each of the four
    searches returns only entities whose [user_id] is the one given. *)
Theorem search_scoped_to_user (db : DB) (user_id : Z) (q : string) :
  (∀ status priority cid skip lim,
     Forall (λ t : Task, task_user_id (obj_row t) = user_id)
       (search_tasks db user_id q status priority cid skip lim))
  ∧ (∀ cid skip lim,
       Forall (λ n : Note, note_user_id (obj_row n) = user_id)
         (search_notes db user_id q cid skip lim))
  ∧ (∀ type_filter skip lim,
       Forall (λ c : Collection, collection_user_id (obj_row c) = user_id)
         (search_collections db user_id q type_filter skip lim))
  ∧ (∀ skip lim,
       Forall (λ t : Tag, tag_user_id t = user_id)
         (search_tags db user_id q skip lim)).
Proof.
  repeat split; intros.
  - destruct (search_tasks_stmt db user_id q status priority cid skip lim)
      as (stmt & -> & Hstmt).
    rewrite Forall_fmap, Forall_forall. intros r Hr. simpl.
    apply elem_of_window, elem_of_order_by_desc, Hstmt in Hr. tauto.
  - destruct (search_notes_stmt db user_id q cid skip lim)
      as (stmt & -> & Hstmt).
    rewrite Forall_fmap, Forall_forall. intros r Hr. simpl.
    apply elem_of_window, elem_of_order_by_desc, Hstmt in Hr. tauto.
  - destruct (search_collections_stmt db user_id q type_filter skip lim)
      as (stmt & -> & Hstmt).
    rewrite Forall_fmap, Forall_forall. intros r Hr. simpl.
    apply elem_of_window, elem_of_order_by_desc, Hstmt in Hr. tauto.
  - destruct (search_tags_stmt db user_id q skip lim) as (stmt & -> & Hstmt).
    rewrite Forall_forall. intros r Hr.
    apply elem_of_window, elem_of_order_by_desc, Hstmt in Hr. tauto.
Qed.

Lemma loaded_desc_by {R : Type} `{!Mapped R} (key : R → Z) db (l : list R) :
  desc_by key l → desc_by (key ∘ obj_row) (loaded db <$> l).
Proof. unfold desc_by. apply StronglySorted_fmap. by intros x y. Qed.

(** C6, as the code has it: each of the four searches returns its rows in
    descending order of [updated_at], whatever the filters and the
    window; no second key orders rows with equal timestamps. *)
Theorem search_ordered_by_updated_at (db : DB) (user_id : Z) (q : string) :
  (∀ status priority cid skip lim,
     desc_by (task_updated_at ∘ obj_row)
       (search_tasks db user_id q status priority cid skip lim))
  ∧ (∀ cid skip lim,
       desc_by (note_updated_at ∘ obj_row)
         (search_notes db user_id q cid skip lim))
  ∧ (∀ type_filter skip lim,
       desc_by (collection_updated_at ∘ obj_row)
         (search_collections db user_id q type_filter skip lim))
  ∧ (∀ skip lim, desc_by tag_updated_at (search_tags db user_id q skip lim)).
Proof.
  repeat split; intros.
  - destruct (search_tasks_stmt db user_id q status priority cid skip lim)
      as (stmt & -> & _).
    apply loaded_desc_by, window_desc_by, order_by_desc_sorted.
  - destruct (search_notes_stmt db user_id q cid skip lim) as (stmt & -> & _).
    apply loaded_desc_by, window_desc_by, order_by_desc_sorted.
  - destruct (search_collections_stmt db user_id q type_filter skip lim)
      as (stmt & -> & _).
    apply loaded_desc_by, window_desc_by, order_by_desc_sorted.
  - destruct (search_tags_stmt db user_id q skip lim) as (stmt & -> & _).
    apply window_desc_by, order_by_desc_sorted.
Qed.

(** C6, as stated, fails: two tasks with the same timestamp come back in
    storage order, id 1 before id 2, not by descending id. *)
Lemma search_ties_not_by_id :
  (task_id ∘ obj_row <$> search_tasks db_ties 7 "alpha" None None None None None)
    = [1; 2]
  ∧ ¬ desc_by_then_id (task_updated_at ∘ obj_row) (task_id ∘ obj_row)
        (search_tasks db_ties 7 "alpha" None None None None None).
Proof.
  split; [by vm_compute|].
  intros H. unfold desc_by_then_id in H.
  apply StronglySorted_inv in H as [_ H].
  apply Forall_cons in H as [H _]. vm_compute in H.
  destruct H as [H|[_ H]]; [discriminate H|]. by apply H.
Qed.

(** ** Text matching *)



Lemma filter_all {A : Type} (P : A → Prop) `{!∀ x, Decision (P x)}
    (l : list A) :
  (∀ x, x ∈ l → P x) → filter P l = l.
Proof.
  induction l as [|x l IH]; intros Hall; [done|].
  rewrite filter_cons_True by (apply Hall; by left).
  f_equal. apply IH. intros y Hy. apply Hall. by right.
Qed.

Lemma filter_none {A : Type} (P : A → Prop) `{!∀ x, Decision (P x)}
    (l : list A) :
  (∀ x, x ∈ l → ¬ P x) → filter P l = [].
Proof.
  induction l as [|x l IH]; intros Hall; [done|].
  rewrite filter_cons_False by (apply Hall; by left).
  apply IH. intros y Hy. apply Hall. by right.
Qed.



(** NO-BREAK SPACE and NEXT LINE around a query are stripped like the
    space: the padded [proj] is searched as [proj], and a single letter
    between two NEXT LINE characters is too short. *)
Example strip_latin1_space :
  strip (String "160" ("proj" +:+ String "160" EmptyString)) = "proj"
  ∧ search_user_tasks db_proj 7
      (String "160" ("proj" +:+ String "160" EmptyString))
      None None None None None
    = search_user_tasks db_proj 7 "proj" None None None None None
  ∧ query_too_short (String "133" (String "p" (String "133" EmptyString)))
    = true
  ∧ global_search (λ i, i) (get_search_service db_proj) 7
      (String "133" (String "p" (String "133" EmptyString))) 20
    = Raise (HTTPException 400 QueryTooShort).
Proof. repeat split; by vm_compute. Qed.

(** The two searches the specification lists as examples. *)
Example search_samples :
  search_user_tasks db_tagged 7 "mee" None None None None None = Ok [task_1]
  ∧ search_user_tasks db_tagged 7 "xyz123" None None None None None = Ok [].
Proof. split; by vm_compute. Qed.

(** C5: the searches are documented as infix matches, and the comment
    above the pattern in [search_tasks] says that input like [10%]
    matches literally; yet the pattern reaches LIKE unescaped, so [%]
    and [_] of the query act as wild cards.  The query [10%] returns the
    task titled [100 days] along with the one titled [10% off], and the
    query [t_sk] returns the task titled [task], though neither title
    holds its query; the services return both as they are, so the
    results are not the rows that match as an infix. *)
Lemma search_wildcard_counterexample :
  (query_too_short "10%" = false
   ∧ strip "10%" = "10%"
   ∧ contains_ci "10%" "100 days" = false
   ∧ contains_ci "10%" "10% off" = true
   ∧ (task_title ∘ obj_row
        <$> search_tasks db_percent 7 "10%" None None None None None)
     = ["10% off"; "100 days"]
   ∧ search_user_tasks db_percent 7 "10%" None None None None None
     = Ok (search_tasks db_percent 7 "10%" None None None None None)
   ∧ ¬ (search_tasks db_percent 7 "10%" None None None None None
        ≡ₚ loaded db_percent <$> filter (task_matches 7 "10%")
                                    (db_tasks db_percent)))
  ∧ (query_too_short "t_sk" = false
     ∧ strip "t_sk" = "t_sk"
     ∧ contains_ci "t_sk" "task" = false
     ∧ (obj_row <$> search_tasks db_wild 7 "t_sk" None None None None None)
       = db_tasks db_wild
     ∧ search_user_tasks db_wild 7 "t_sk" None None None None None
       = Ok (search_tasks db_wild 7 "t_sk" None None None None None)
     ∧ ¬ (search_tasks db_wild 7 "t_sk" None None None None None
          ≡ₚ loaded db_wild <$> filter (task_matches 7 "t_sk")
                                  (db_tasks db_wild))).
Proof.
  repeat split; try by vm_compute.
  - intros H. apply Permutation_length in H. vm_compute in H. discriminate H.
  - intros H. apply Permutation_length in H. vm_compute in H. discriminate H.
Qed.

(** C10: [search_tasks] reads its filters by truth value, so a
    [collection_id] of 0 or an empty [status] or [priority] selects what
    [None] selects, at the repository and at the service; [search_notes]
    tests [collection_id] against [None], so 0 keeps exactly the notes
    whose [collection_id] is 0. *)
Theorem falsy_filter_values (db : DB) (user_id : Z) (q : string) :
  (∀ status priority skip lim,
     search_tasks db user_id q status priority (Some 0) skip lim
     = search_tasks db user_id q status priority None skip lim
     ∧ search_user_tasks db user_id q status priority (Some 0) skip lim
       = search_user_tasks db user_id q status priority None skip lim)
  ∧ (∀ priority cid skip lim,
       search_tasks db user_id q (Some "") priority cid skip lim
       = search_tasks db user_id q None priority cid skip lim
       ∧ search_user_tasks db user_id q (Some "") priority cid skip lim
         = search_user_tasks db user_id q None priority cid skip lim)
  ∧ (∀ status cid skip lim,
       search_tasks db user_id q status (Some "") cid skip lim
       = search_tasks db user_id q status None cid skip lim
       ∧ search_user_tasks db user_id q status (Some "") cid skip lim
         = search_user_tasks db user_id q status None cid skip lim)
  ∧ (∀ skip lim,
       Forall (λ n : Note, note_collection_id (obj_row n) = Some 0)
         (search_notes db user_id q (Some 0) skip lim))
  ∧ (∀ n : Note,
       n ∈ search_notes db user_id q (Some 0) None None ↔
       n ∈ search_notes db user_id q None None None
       ∧ note_collection_id (obj_row n) = Some 0).
Proof.
  split; [|split; [|split; [|split]]].
  - intros. unfold search_user_tasks. split; [done|].
    by destruct (query_too_short q).
  - intros. unfold search_user_tasks. split; [done|].
    by destruct (query_too_short q).
  - intros. unfold search_user_tasks. split; [done|].
    by destruct (query_too_short q).
  - intros.
    destruct (search_notes_stmt db user_id q (Some 0) skip lim)
      as (stmt & -> & Hstmt).
    rewrite Forall_fmap, Forall_forall. intros r Hr. simpl.
    apply elem_of_window, elem_of_order_by_desc, Hstmt in Hr.
    destruct Hr as (_ & _ & Hc & _). by apply Hc.
  - intros n.
    destruct (search_notes_stmt db user_id q (Some 0) None None)
      as (s0 & -> & Hs0).
    destruct (search_notes_stmt db user_id q None None None)
      as (s1 & -> & Hs1).
    simpl. rewrite !list_elem_of_fmap. split.
    + intros (r & -> & Hr). apply elem_of_order_by_desc, Hs0 in Hr.
      destruct Hr as (Hr & Hu & Hc & Hq). split; [|by apply Hc].
      exists r. split; [done|]. apply elem_of_order_by_desc, Hs1.
      split; [done|]. split; [done|]. split; [by intros [? ?]|done].
    + intros [(r & -> & Hr) Hc]. exists r. split; [done|].
      apply elem_of_order_by_desc, Hs1 in Hr.
      destruct Hr as (Hr & Hu & _ & Hq).
      apply elem_of_order_by_desc, Hs0. done.
Qed.

(** The two readings side by side: 0 leaves the task search unfiltered
    and empties the note search of a store whose notes sit in
    collection 3 or in none. *)
Example falsy_filter_sample :
  length (search_tasks db_notes_sample 7 "report" None None (Some 0) None None)
  = 2%nat
  ∧ length (search_notes db_notes_sample 7 "report" None None None) = 2%nat
  ∧ search_notes db_notes_sample 7 "report" (Some 0) None None = [].
Proof. repeat split; by vm_compute. Qed.

(** ** Global search *)

Lemma slice_to_nonneg {A : Type} (n : Z) (xs : list A) :
  0 ≤ n → slice_to n xs = take (Z.to_nat n) xs.
Proof. intros Hn. unfold slice_to. by rewrite (proj2 (Z.leb_le 0 n) Hn). Qed.

(** On a query that passes the check, the result is decided by the four
    sub-searches alone. *)
Lemma global_search_join finish self user_id q limit_per_type :
  query_too_short q = false →
  global_search finish self user_id q limit_per_type
  = '(ts, ns, cs, gs) ←
      gather finish
        (task_service self user_id (strip q) None None None None None)
        (note_service self user_id (strip q) None None None)
        (collection_service self user_id (strip q) None None None)
        (tag_service self user_id (strip q) None None);
    Ok (mkEnvelope (strip q)
          (mkResults
             (TaskOut_model_validate <$> slice_to limit_per_type ts)
             (NoteOut_model_validate <$> slice_to limit_per_type ns)
             (CollectionOut_model_validate <$> slice_to limit_per_type cs)
             (TagOut_model_validate <$> slice_to limit_per_type gs))
          (length ts + length ns + length cs + length gs)).
Proof. intros Hq. unfold global_search. by rewrite Hq. Qed.

(** [asyncio.gather] *)
Lemma gather_all_ok {A B C D : Type} finish (x : A) (y : B) (z : C) (w : D) :
  gather finish (Ok x) (Ok y) (Ok z) (Ok w) = Ok (x, y, z, w).
Proof. reflexivity. Qed.





(** C1: over one store and a query that passes the check, the envelope's
    [total_count] is the sum of the lengths of the four searches run
    with no filter and no window, whatever [limit_per_type] is and
    whenever the sub-searches finish; for a limit that is a count, 0 or
    more (the router admits 1 to 100), each list of the envelope is the
    first [limit_per_type] results of its kind; for any limit it is
    [results[:limit_per_type]]. *)
Theorem global_search_total_count (finish : nat → nat) (db : DB)
    (user_id : Z) (q : string) (limit_per_type : Z) :
  query_too_short q = false →
  let ts := search_tasks db user_id (strip q) None None None None None in
  let ns := search_notes db user_id (strip q) None None None in
  let cs := search_collections db user_id (strip q) None None None in
  let gs := search_tags db user_id (strip q) None None in
  ∃ env,
    global_search finish (get_search_service db) user_id q limit_per_type
    = Ok env
    ∧ query env = strip q
    ∧ total_count env
      = (length ts + length ns + length cs + length gs)%nat
    ∧ (0 ≤ limit_per_type →
       tasks (results env)
       = TaskOut_model_validate <$> take (Z.to_nat limit_per_type) ts
       ∧ notes (results env)
         = NoteOut_model_validate <$> take (Z.to_nat limit_per_type) ns
       ∧ collections (results env)
         = CollectionOut_model_validate
             <$> take (Z.to_nat limit_per_type) cs
       ∧ tags (results env)
         = TagOut_model_validate <$> take (Z.to_nat limit_per_type) gs)
    ∧ tasks (results env)
      = TaskOut_model_validate <$> slice_to limit_per_type ts
    ∧ notes (results env)
      = NoteOut_model_validate <$> slice_to limit_per_type ns
    ∧ collections (results env)
      = CollectionOut_model_validate <$> slice_to limit_per_type cs
    ∧ tags (results env)
      = TagOut_model_validate <$> slice_to limit_per_type gs.
Proof.
  intros Hq ts ns cs gs.
  rewrite global_search_join by done.
  unfold get_search_service. simpl.
  unfold search_user_tasks, search_user_notes, search_user_collections,
    search_user_tags.
  rewrite (query_too_short_strip q Hq), strip_idemp.
  rewrite gather_all_ok. simpl.
  eexists. split; [reflexivity|]. simpl.
  split; [done|]. split; [done|].
  split; [|done].
  intros Hlim. by rewrite !slice_to_nonneg.
Qed.

(** C1, as stated for every [limit_per_type], fails below 0: with three
    matching tasks and [limit_per_type = -1] the envelope lists two
    tasks, all but the last, not the first [limit_per_type]. *)
Lemma global_search_negative_limit :
  query_too_short "proj" = false
  ∧ ∃ env,
      global_search (λ i, i) (get_search_service db_proj) 7 "proj" (-1)
      = Ok env
      ∧ total_count env = 6%nat
      ∧ (to_id <$> tasks (results env)) = [3; 2]
      ∧ tasks (results env)
        ≠ TaskOut_model_validate
            <$> take (Z.to_nat (-1))
                  (search_tasks db_proj 7 (strip "proj") None None None None
                     None).
Proof.
  split; [reflexivity|]. eexists. split; [by vm_compute|].
  split; [reflexivity|]. split; [reflexivity|]. discriminate.
Qed.











(** ** The tag reconciler *)

#[global] Instance Task_laws : MappedLaws TaskRow.
Proof. by split. Qed.
#[global] Instance Note_laws : MappedLaws NoteRow.
Proof. by split. Qed.
#[global] Instance Collection_laws : MappedLaws CollectionRow.
Proof. by split. Qed.

Lemma load_tags_same_tags db db' user_id tag_ids require_all :
  db_tags db' = db_tags db →
  _load_tags db' user_id tag_ids require_all
  = _load_tags db user_id tag_ids require_all.
Proof. intros H. unfold _load_tags, select_tags_in. by rewrite H. Qed.

Section reconciler.
Context {R : Type} `{!Mapped R} `{!MappedLaws R}.
Implicit Types (o : Obj R) (a : list (Z * Z)).

Lemma elem_of_sync_association a id cur t :
  (t, id) ∈ sync_association a id cur ↔ t ∈ tag_id <$> cur.
Proof.
  unfold sync_association.
  rewrite elem_of_app, !list_elem_of_filter. split.
  - intros [[[Hne|Hin] _]|[_ Hin]]; [done|done|].
    apply list_elem_of_fmap in Hin as (tg & [= ->] & Htg).
    apply list_elem_of_fmap. by exists tg.
  - intros Hin. destruct (decide ((t, id) ∈ a)) as [Ha|Ha].
    + left. split; [by right|done].
    + right. split; [done|].
      apply list_elem_of_fmap in Hin as (tg & -> & Htg).
      apply list_elem_of_fmap. by exists tg.
Qed.

Lemma sync_association_idemp a id cur :
  sync_association (sync_association a id cur) id cur
  = sync_association a id cur.
Proof.
  unfold sync_association at 1.
  rewrite (filter_none (λ p, p ∉ sync_association a id cur)).
  2:{ intros p Hp Hnin. apply Hnin.
      apply list_elem_of_fmap in Hp as (tg & -> & Htg).
      apply elem_of_sync_association, list_elem_of_fmap. by exists tg. }
  rewrite app_nil_r. apply filter_all.
  intros [t e] Hp. unfold sync_association in Hp.
  apply elem_of_app in Hp as [Hp|Hp].
  - by apply list_elem_of_filter in Hp as [? _].
  - apply list_elem_of_filter in Hp as [_ Hp].
    apply list_elem_of_fmap in Hp as (tg & [= -> ->] & Htg).
    right. apply list_elem_of_fmap. by exists tg.
Qed.

(** What [flush] does to a persistent instance. *)
Lemma flush_persistent db o :
  obj_state o = Persistent →
  let '(db', o') := flush db o in
  obj_state o' = Persistent
  ∧ obj_tags o' = obj_tags o
  ∧ pk (obj_row o') = pk (obj_row o)
  ∧ owner (obj_row o') = owner (obj_row o)
  ∧ db_tags db' = db_tags db
  ∧ association db'
    = match obj_tags o with
      | Some cur => sync_association (association db) (pk (obj_row o)) cur
      | None => association db
      end.
Proof.
  intros Hst. unfold flush. rewrite Hst.
  set (stamp := λ r : R, if decide (pk r = pk (obj_row o)) then _ else r).
  set (db1 := with_table (stamp <$> table db) db).
  set (db2 := match obj_tags o with Some _ => _ | None => db1 end).
  assert (table db2 = stamp <$> table db) as Htable.
  { unfold db2, db1. destruct (obj_tags o);
      by rewrite ?table_with_association, table_with_table. }
  split; [done|]. split; [done|].
  assert (∀ r, r ∈ table db2 → pk r = pk (obj_row o) →
               owner r = owner (obj_row o)) as Hrows.
  { intros r Hr Hpk. rewrite Htable in Hr.
    apply list_elem_of_fmap in Hr as (r0 & -> & _). unfold stamp in *.
    destruct (decide (pk r0 = pk (obj_row o))); [|done].
    destruct (decide (r0 = obj_row o)) as [->|]; [done|].
    apply owner_with_updated_at. }
  destruct (filter (λ r, pk r = pk (obj_row o)) (table db2))
    as [|r rs] eqn:Hf; simpl.
  - repeat split; unfold db2, db1; destruct (obj_tags o);
      by rewrite ?db_tags_with_association, ?db_tags_with_table,
           ?association_with_association, ?association_with_table.
  - assert (r ∈ filter (λ r, pk r = pk (obj_row o)) (table db2)) as Hr
      by (rewrite Hf; by left).
    apply list_elem_of_filter in Hr as [Hpk Hr].
    split; [done|]. split; [by apply Hrows|].
    split; unfold db2, db1; destruct (obj_tags o);
      by rewrite ?db_tags_with_association, ?db_tags_with_table,
           ?association_with_association, ?association_with_table.
Qed.



Lemma set_entity_tags_persistent db o tag_ids tags :
  _load_tags db (owner (obj_row o)) tag_ids true = Ok tags →
  obj_state o = Persistent →
  set_entity_tags db o tag_ids
  = Ok (flush db (mkObj (obj_row o) Persistent (Some tags))).
Proof.
  intros Hl Hp. unfold set_entity_tags, _is_new_or_pending, refresh_tags.
  by rewrite Hl, Hp.
Qed.


End reconciler.


(** C7: on a persistent instance and a tag list that resolves, each of
    the three reconcilers run a second time with the same list succeeds
    and leaves the tag collection and the links of the first run. *)
Theorem set_tags_idempotent :
  idempotent set_task_tags
  ∧ idempotent set_note_tags
  ∧ idempotent set_collection_tags.
Proof.
  assert (∀ (R : Type) (M : Mapped R), MappedLaws R →
            idempotent (set_entity_tags (R:=R))) as generic.
  { intros R M L.
    intros db o tag_ids tags Hst Hl.
    destruct (flush db (mkObj (obj_row o) Persistent (Some tags)))
      as [db1 o1] eqn:Hfl1.
    pose proof (flush_persistent db
                  (mkObj (obj_row o) Persistent (Some tags)) eq_refl) as Hp1.
    rewrite Hfl1 in Hp1. simpl in Hp1.
    destruct Hp1 as (Hst1 & Htags1 & Hpk1 & Hown1 & Hdbt1 & Ha1).
    assert (_load_tags db1 (owner (obj_row o1)) tag_ids true = Ok tags) as Hl1.
    { by rewrite Hown1, (load_tags_same_tags db db1). }
    destruct (flush db1 (mkObj (obj_row o1) Persistent (Some tags)))
      as [db2 o2] eqn:Hfl2.
    pose proof (flush_persistent db1
                  (mkObj (obj_row o1) Persistent (Some tags)) eq_refl) as Hp2.
    rewrite Hfl2 in Hp2. simpl in Hp2.
    destruct Hp2 as (Hst2 & Htags2 & Hpk2 & Hown2 & Hdbt2 & Ha2).
    exists db1, o1, db2, o2.
    assert (association db2 = association db1) as Ha.
    { by rewrite Ha2, Ha1, Hpk1, sync_association_idemp. }
    split; [by rewrite (set_entity_tags_persistent _ _ _ tags), Hfl1|].
    split; [by rewrite (set_entity_tags_persistent _ _ _ tags), Hfl2|].
    split; [congruence|]. split; [done|]. split; [done|].
    unfold linked_tags. by rewrite Ha, Hdbt2, Hpk2. }
  split; [|split]; apply generic; apply _.
Qed.

(** ** Containment policy *)

(** For a [collection_id] other than 0 the check is the one described:
    404 when the user owns no such collection, then 400 on a kind
    mismatch, success otherwise. *)
Lemma check_task_collection_nonzero db user_id cid :
  cid ≠ 0 →
  match filter (λ c, collection_id c = cid ∧ collection_user_id c = user_id)
          (db_collections db) with
  | [] => check_task_collection db user_id (Some cid)
          = Raise (HTTPException 404 CollectionNotFound)
  | [c] => check_task_collection db user_id (Some cid)
           = if decide (collection_type c = NOTES_ONLY)
             then Raise (HTTPException 400 CannotAddTask) else Ok ()
  | _ => check_task_collection db user_id (Some cid)
         = Raise MultipleResultsFound
  end.
Proof.
  intros Hc. unfold check_task_collection, get_collection_by_id_and_user.
  simpl. rewrite (proj2 (Z.eqb_neq cid 0) Hc). simpl.
  by destruct (filter _ _) as [|c [|c' l]].
Qed.

Lemma check_note_collection_nonzero db user_id cid :
  cid ≠ 0 →
  match filter (λ c, collection_id c = cid ∧ collection_user_id c = user_id)
          (db_collections db) with
  | [] => check_note_collection db user_id (Some cid)
          = Raise (HTTPException 404 CollectionNotFound)
  | [c] => check_note_collection db user_id (Some cid)
           = if decide (collection_type c = TASKS_ONLY)
             then Raise (HTTPException 400 CannotAddNote) else Ok ()
  | _ => check_note_collection db user_id (Some cid)
         = Raise MultipleResultsFound
  end.
Proof.
  intros Hc. unfold check_note_collection, get_collection_by_id_and_user.
  simpl. rewrite (proj2 (Z.eqb_neq cid 0) Hc). simpl.
  by destruct (filter _ _) as [|c [|c' l]].
Qed.

(** A null [collection_id] and a [collection_id] of 0 both skip the
    check, whatever the store holds. *)
Lemma check_collection_skipped db user_id :
  check_task_collection db user_id None = Ok ()
  ∧ check_note_collection db user_id None = Ok ()
  ∧ check_task_collection db user_id (Some 0) = Ok ()
  ∧ check_note_collection db user_id (Some 0) = Ok ().
Proof. done. Qed.

(** A failing check is the outcome of the create and update methods. *)
Lemma create_task_check_first db user_id task_create e :
  check_task_collection db user_id (mjoin (tb_collection_id task_create))
  = Raise e →
  create_task_for_user db user_id task_create = Raise e.
Proof. intros H. unfold create_task_for_user. by rewrite H. Qed.

Lemma create_note_check_first db user_id note_create e :
  check_note_collection db user_id (mjoin (nb_collection_id note_create))
  = Raise e →
  create_note_for_user db user_id note_create = Raise e.
Proof. intros H. unfold create_note_for_user. by rewrite H. Qed.

(** C4 at [collection_id = 0]: user 7 owns no collection 0, yet creating
    a task or a note in collection 0 raises no 404; the row is stored
    with the dangling [collection_id].  Any other id is checked: the
    notes-only collection 1 refuses the task with a 400, the tasks-only
    collection 2 refuses the note, and collection 4 of another user is
    a 404. *)
Theorem create_in_collection_zero_unchecked :
  get_collection_by_id_and_user db_policy 0 7 = Ok None
  ∧ (task_collection_id ∘ obj_row ∘ snd
       <$> create_task_for_user db_policy 7
             (mkTaskBase "t" None None None (Some (Some 0)) None))
    = Ok (Some 0)
  ∧ (note_collection_id ∘ obj_row ∘ snd
       <$> create_note_for_user db_policy 7
             (mkNoteBase "n" None (Some (Some 0)) None))
    = Ok (Some 0)
  ∧ create_task_for_user db_policy 7
      (mkTaskBase "t" None None None (Some (Some 1)) None)
    = Raise (HTTPException 400 CannotAddTask)
  ∧ create_note_for_user db_policy 7
      (mkNoteBase "n" None (Some (Some 2)) None)
    = Raise (HTTPException 400 CannotAddNote)
  ∧ create_task_for_user db_policy 7
      (mkTaskBase "t" None None None (Some (Some 4)) None)
    = Raise (HTTPException 404 CollectionNotFound).
Proof. repeat split; by vm_compute. Qed.

(** ** The theorems at work on the sample stores *)

Ltac by_computation :=
  unfold tags_pk, resolves;
  lazymatch goal with
  | |- ?P => apply (bool_decide_unpack P); vm_compute; exact I
  end.

Lemma load_tags_require_all_witness :
  tags_pk db_tagged
  ∧ (∃ x, x ∈ [5; 3; 9; 3; 2; 1] ∧ ¬ resolves db_tagged 7 x)
  ∧ _load_tags db_tagged 7 [5; 3; 9; 3; 2; 1] true
    = Raise (HTTPException 400 (TagsNotFound [2; 5; 9])).
Proof.
  assert (tags_pk db_tagged) as Hpk by by_computation.
  assert (∃ x, x ∈ [5; 3; 9; 3; 2; 1] ∧ ¬ resolves db_tagged 7 x) as Hex.
  { exists 5. split; by_computation. }
  split; [exact Hpk|]. split; [exact Hex|].
  destruct (proj1 (load_tags_require_all db_tagged 7 [5; 3; 9; 3; 2; 1] Hpk)
              Hex) as (missing & Heq & Hm & _).
  rewrite Heq, Hm. by vm_compute.
Defined.

Lemma global_search_total_count_witness :
  query_too_short "proj" = false
  ∧ ∃ env,
      global_search (λ i, i) (get_search_service db_proj) 7 "proj" 1 = Ok env
      ∧ total_count env = 6%nat
      ∧ length (tasks (results env)) = 1%nat
      ∧ length (notes (results env)) = 1%nat
      ∧ length (collections (results env)) = 0%nat
      ∧ length (tags (results env)) = 1%nat.
Proof.
  split; [reflexivity|].
  destruct (global_search_total_count (λ i, i) db_proj 7 "proj" 1 eq_refl)
    as (env & Heq & _ & Htot & Hlim & _).
  exists env. split; [exact Heq|].
  destruct (Hlim ltac:(discriminate)) as (Ht & Hn & Hc & Hg).
  rewrite Htot, Ht, Hn, Hc, Hg. by vm_compute.
Defined.




Lemma set_tags_idempotent_witness :
  obj_state task_1 = Persistent
  ∧ ∃ db1 task1 db2 task2,
      set_task_tags db_tagged task_1 [3; 1] = Ok (db1, task1)
      ∧ set_task_tags db1 task1 [3; 1] = Ok (db2, task2)
      ∧ obj_tags task2 = obj_tags task1
      ∧ obj_tags task1 = Some [mkTag 1 7 "home" 1; mkTag 3 7 "urgent" 3]
      ∧ tag_task_association db2 = tag_task_association db1
      ∧ linked_tags (R:=TaskRow) db2 (task_id (obj_row task2))
        = linked_tags (R:=TaskRow) db1 (task_id (obj_row task1)).
Proof.
  split; [reflexivity|].
  exact (proj1 set_tags_idempotent db_tagged task_1 [3; 1]
           [mkTag 1 7 "home" 1; mkTag 3 7 "urgent" 3] eq_refl eq_refl).
Defined.

(** * Properties of the rest of the code *)

Lemma Ok_inj {A : Type} (a b : A) : Ok a = Ok b → a = b.
Proof. congruence. Qed.

(** ** Slices and windows *)

Lemma slice_nonneg {A : Type} (a n : Z) (xs : list A) :
  0 ≤ a → 0 ≤ n →
  slice a (a + n) xs = take (Z.to_nat n) (drop (Z.to_nat a) xs).
Proof.
  intros Ha Hn. unfold slice, slice_index.
  rewrite (proj2 (Z.ltb_ge a 0)), (proj2 (Z.ltb_ge (a + n) 0)) by lia.
  destruct (decide (a ≤ Z.of_nat (length xs))) as [Hle|Hgt].
  - rewrite (Z.min_l a) by done.
    destruct (decide (a + n ≤ Z.of_nat (length xs))) as [Hle'|Hgt'].
    + rewrite Z.min_l by done. by replace (a + n - a) with n by lia.
    + rewrite Z.min_r by lia.
      rewrite !take_ge; [done|rewrite length_drop; lia..].
  - rewrite !Z.min_r by lia. rewrite Z.sub_diag. simpl.
    rewrite (drop_ge xs (Z.to_nat a)) by lia. by rewrite take_nil.
Qed.

Lemma window_is_slice {A : Type} (skip lim : Z) (xs : list A) :
  0 ≤ skip → 0 ≤ lim →
  limit (Some lim) (offset (Some skip) xs) = slice skip (skip + lim) xs.
Proof.
  intros Hs Hl. rewrite slice_nonneg by done. simpl.
  by rewrite (proj2 (Z.ltb_ge lim 0)) by lia.
Qed.

Lemma fmap_window {A B : Type} (f : A → B) skip lim (xs : list A) :
  f <$> limit lim (offset skip xs) = limit lim (offset skip (f <$> xs)).
Proof.
  destruct skip as [s|], lim as [n|]; simpl; try destruct (n <? 0);
    by rewrite ?fmap_take, ?fmap_drop.
Qed.

Lemma search_tasks_window db user_id q status priority cid skip lim :
  search_tasks db user_id q status priority cid skip lim
  = limit lim (offset skip
                 (search_tasks db user_id q status priority cid None None)).
Proof. unfold search_tasks. by rewrite fmap_window. Qed.

Lemma search_notes_window db user_id q cid skip lim :
  search_notes db user_id q cid skip lim
  = limit lim (offset skip (search_notes db user_id q cid None None)).
Proof. unfold search_notes. by rewrite fmap_window. Qed.

Lemma search_collections_window db user_id q type_filter skip lim :
  search_collections db user_id q type_filter skip lim
  = limit lim (offset skip
                 (search_collections db user_id q type_filter None None)).
Proof. unfold search_collections. by rewrite fmap_window. Qed.

Lemma search_tags_window db user_id q skip lim :
  search_tags db user_id q skip lim
  = limit lim (offset skip (search_tags db user_id q None None)).
Proof. done. Qed.

(** X1: the window the repositories apply in SQL and the slice the
    endpoints cut in memory are the same page: for [skip] and [limit]
    that are not negative, a search given [skip] and [limit] returns
    [results[skip : skip + limit]] of the search run without them. *)
Theorem repository_window_is_endpoint_slice (db : DB) (user_id : Z)
    (q : string) (skip lim : Z) :
  0 ≤ skip → 0 ≤ lim →
  (∀ status priority cid,
     search_tasks db user_id q status priority cid (Some skip) (Some lim)
     = slice skip (skip + lim)
         (search_tasks db user_id q status priority cid None None))
  ∧ (∀ cid,
       search_notes db user_id q cid (Some skip) (Some lim)
       = slice skip (skip + lim) (search_notes db user_id q cid None None))
  ∧ (∀ type_filter,
       search_collections db user_id q type_filter (Some skip) (Some lim)
       = slice skip (skip + lim)
           (search_collections db user_id q type_filter None None))
  ∧ search_tags db user_id q (Some skip) (Some lim)
    = slice skip (skip + lim) (search_tags db user_id q None None).
Proof.
  intros Hs Hl. repeat split; intros.
  - by rewrite search_tasks_window, window_is_slice.
  - by rewrite search_notes_window, window_is_slice.
  - by rewrite search_collections_window, window_is_slice.
  - by rewrite search_tags_window, window_is_slice.
Qed.

Lemma slice_sublist {A : Type} (a b : Z) (xs : list A) :
  slice a b xs `sublist_of` xs.
Proof.
  unfold slice. etransitivity; [apply sublist_take|apply sublist_drop].
Qed.

Lemma Forall_sublist {A : Type} (P : A → Prop) (l k : list A) :
  l `sublist_of` k → Forall P k → Forall P l.
Proof.
  rewrite !Forall_forall. intros Hsub Hk x Hx. apply Hk.
  by eapply elem_of_sublist.
Qed.

Lemma slice_tile {A : Type} (a n m : Z) (xs : list A) :
  0 ≤ a → 0 ≤ n → 0 ≤ m →
  slice a (a + n) xs ++ slice (a + n) (a + n + m) xs
  = slice a (a + (n + m)) xs.
Proof.
  intros Ha Hn Hm. rewrite !slice_nonneg by lia.
  rewrite (Z2Nat.inj_add a n), (Z2Nat.inj_add n m) by lia.
  rewrite <- drop_drop. apply take_take_drop.
Qed.

(** ** Search endpoints *)

Lemma tasks_search_endpoint db u q status priority cid skip limit :
  tasks_routers.search_tasks db u q status priority cid skip limit
  = if query_too_short q then Raise (HTTPException 400 QueryTooShort)
    else Ok (TaskOut_model_validate
               <$> slice skip (skip + limit)
                     (search_tasks db u (strip q) status priority cid
                        None None)).
Proof.
  unfold tasks_routers.search_tasks, search_user_tasks.
  by destruct (query_too_short q).
Qed.

Lemma notes_search_endpoint db u q cid skip limit :
  notes_routers.search_notes db u q cid skip limit
  = if query_too_short q then Raise (HTTPException 400 QueryTooShort)
    else Ok (NoteOut_model_validate
               <$> slice skip (skip + limit)
                     (search_notes db u (strip q) cid None None)).
Proof.
  unfold notes_routers.search_notes, search_user_notes.
  by destruct (query_too_short q).
Qed.

Lemma collections_search_endpoint db u q type_filter skip limit :
  collections_routers.search_collections db u q type_filter skip limit
  = if query_too_short q then Raise (HTTPException 400 QueryTooShort)
    else Ok (CollectionOut_model_validate
               <$> slice skip (skip + limit)
                     (search_collections db u (strip q) type_filter
                        None None)).
Proof.
  unfold collections_routers.search_collections, search_user_collections.
  by destruct (query_too_short q).
Qed.

Lemma tags_search_endpoint db u q skip limit :
  tags_routers.search_tags db u q skip limit
  = if query_too_short q then Raise (HTTPException 400 QueryTooShort)
    else Ok (TagOut_model_validate
               <$> slice skip (skip + limit)
                     (search_tags db u (strip q) None None)).
Proof.
  unfold tags_routers.search_tags, search_user_tags.
  by destruct (query_too_short q).
Qed.

Lemma length_slice_le {A : Type} (a n : Z) (xs : list A) :
  0 ≤ a → 0 ≤ n → (length (slice a (a + n) xs) ≤ Z.to_nat n)%nat.
Proof.
  intros Ha Hn. rewrite slice_nonneg by done. rewrite length_take. lia.
Qed.

Lemma search_tasks_owned db u q status priority cid skip lim :
  Forall (λ t : Task, task_user_id (obj_row t) = u)
    (search_tasks db u q status priority cid skip lim).
Proof.
  destruct (search_tasks_stmt db u q status priority cid skip lim)
    as (stmt & -> & Hstmt).
  rewrite Forall_fmap, Forall_forall. intros r Hr. simpl.
  apply elem_of_window, elem_of_order_by_desc, Hstmt in Hr. tauto.
Qed.

Lemma search_notes_owned db u q cid skip lim :
  Forall (λ n : Note, note_user_id (obj_row n) = u)
    (search_notes db u q cid skip lim).
Proof.
  destruct (search_notes_stmt db u q cid skip lim) as (stmt & -> & Hstmt).
  rewrite Forall_fmap, Forall_forall. intros r Hr. simpl.
  apply elem_of_window, elem_of_order_by_desc, Hstmt in Hr. tauto.
Qed.

Lemma search_collections_owned db u q type_filter skip lim :
  Forall (λ c : Collection, collection_user_id (obj_row c) = u)
    (search_collections db u q type_filter skip lim).
Proof.
  destruct (search_collections_stmt db u q type_filter skip lim)
    as (stmt & -> & Hstmt).
  rewrite Forall_fmap, Forall_forall. intros r Hr. simpl.
  apply elem_of_window, elem_of_order_by_desc, Hstmt in Hr. tauto.
Qed.

Lemma search_tags_owned db u q skip lim :
  Forall (λ t : Tag, tag_user_id t = u) (search_tags db u q skip lim).
Proof.
  destruct (search_tags_stmt db u q skip lim) as (stmt & -> & Hstmt).
  rewrite Forall_forall. intros r Hr.
  apply elem_of_window, elem_of_order_by_desc, Hstmt in Hr. tauto.
Qed.

(** X2: within the bounds FastAPI enforces ([skip >= 0], [limit >= 1])
    and on a query that passes the length check, each search endpoint
    answers with at most [limit] entries, all of them owned by the
    current user. *)
Theorem search_endpoints_bounded_and_scoped (db : DB) (current_user : Z)
    (q : string) (skip limit : Z) :
  query_too_short q = false → 0 ≤ skip → 1 ≤ limit →
  (∀ status priority cid,
     ∃ page,
       tasks_routers.search_tasks db current_user q status priority cid
         skip limit = Ok page
       ∧ (length page ≤ Z.to_nat limit)%nat
       ∧ Forall (λ t, to_user_id t = current_user) page)
  ∧ (∀ cid,
       ∃ page,
         notes_routers.search_notes db current_user q cid skip limit = Ok page
         ∧ (length page ≤ Z.to_nat limit)%nat
         ∧ Forall (λ n, no_user_id n = current_user) page)
  ∧ (∀ type_filter,
       ∃ page,
         collections_routers.search_collections db current_user q type_filter
           skip limit = Ok page
         ∧ (length page ≤ Z.to_nat limit)%nat
         ∧ Forall (λ c, co_user_id c = current_user) page)
  ∧ (∃ page,
       tags_routers.search_tags db current_user q skip limit = Ok page
       ∧ (length page ≤ Z.to_nat limit)%nat
       ∧ Forall (λ t, tgo_user_id t = current_user) page).
Proof.
  intros Hq Hs Hl.
  repeat split; intros; eexists.
  all: rewrite ?tasks_search_endpoint, ?notes_search_endpoint,
         ?collections_search_endpoint, ?tags_search_endpoint, Hq.
  all: split; [reflexivity|].
  all: rewrite length_fmap, Forall_fmap.
  all: split; [apply length_slice_le; lia|].
  - eapply Forall_sublist; [apply slice_sublist|]. apply search_tasks_owned.
  - eapply Forall_sublist; [apply slice_sublist|]. apply search_notes_owned.
  - eapply Forall_sublist; [apply slice_sublist|].
    apply search_collections_owned.
  - eapply Forall_sublist; [apply slice_sublist|]. apply search_tags_owned.
Qed.

(** X3: consecutive pages of a search endpoint join into the larger
    page: the page at [skip] of size [l1 + l2] is the page at [skip] of
    size [l1] followed by the page at [skip + l1] of size [l2], so
    paging through a result neither drops nor repeats an entry. *)
Theorem search_endpoint_pages_tile (db : DB) (current_user : Z) (q : string)
    (skip l1 l2 : Z) :
  0 ≤ skip → 0 ≤ l1 → 0 ≤ l2 →
  (∀ status priority cid,
     tasks_routers.search_tasks db current_user q status priority cid
       skip (l1 + l2)
     = (p1 ← tasks_routers.search_tasks db current_user q status priority
               cid skip l1;
        p2 ← tasks_routers.search_tasks db current_user q status priority
               cid (skip + l1) l2;
        Ok (p1 ++ p2)))
  ∧ (∀ cid,
       notes_routers.search_notes db current_user q cid skip (l1 + l2)
       = (p1 ← notes_routers.search_notes db current_user q cid skip l1;
          p2 ← notes_routers.search_notes db current_user q cid
                 (skip + l1) l2;
          Ok (p1 ++ p2)))
  ∧ (∀ type_filter,
       collections_routers.search_collections db current_user q type_filter
         skip (l1 + l2)
       = (p1 ← collections_routers.search_collections db current_user q
                 type_filter skip l1;
          p2 ← collections_routers.search_collections db current_user q
                 type_filter (skip + l1) l2;
          Ok (p1 ++ p2)))
  ∧ tags_routers.search_tags db current_user q skip (l1 + l2)
    = (p1 ← tags_routers.search_tags db current_user q skip l1;
       p2 ← tags_routers.search_tags db current_user q (skip + l1) l2;
       Ok (p1 ++ p2)).
Proof.
  intros Hs H1 H2. repeat split; intros.
  all: rewrite ?tasks_search_endpoint, ?notes_search_endpoint,
         ?collections_search_endpoint, ?tags_search_endpoint.
  all: destruct (query_too_short q); [done|]; simpl.
  all: by rewrite <- fmap_app, slice_tile.
Qed.

(** ** The query up to white space and case *)

Lemma isspace_lower_char c : isspace (lower_char c) = isspace c.
Proof. by destruct c as [[] [] [] [] [] [] [] []]. Qed.

Lemma lower_char_idemp c : lower_char (lower_char c) = lower_char c.
Proof. by destruct c as [[] [] [] [] [] [] [] []]. Qed.

Lemma lower_idemp s : lower (lower s) = lower s.
Proof.
  induction s as [|c s IH]; [done|]. simpl. by rewrite lower_char_idemp, IH.
Qed.

Lemma length_lower s : String.length (lower s) = String.length s.
Proof. induction s as [|c s IH]; [done|]. simpl. by rewrite IH. Qed.

Lemma lstrip_lower s : lstrip (lower s) = lower (lstrip s).
Proof.
  induction s as [|c s IH]; [done|]. simpl. rewrite isspace_lower_char.
  by destruct (isspace c).
Qed.

Lemma rstrip_lower s : rstrip (lower s) = lower (rstrip s).
Proof.
  induction s as [|c s IH]; [done|]. simpl. rewrite IH, isspace_lower_char.
  destruct (rstrip s); simpl; [by destruct (isspace c)|done].
Qed.

Lemma strip_lower s : strip (lower s) = lower (strip s).
Proof. unfold strip. by rewrite lstrip_lower, rstrip_lower. Qed.

Lemma eqb_empty_lower q : String.eqb (lower q) "" = String.eqb q "".
Proof. by destruct q. Qed.

Lemma ilike_lower col q :
  ilike col (search_term (lower q)) = ilike col (search_term q).
Proof.
  destruct col as [s|]; [|done]. unfold ilike.
  by rewrite !lower_search_term, lower_idemp.
Qed.

Lemma search_tasks_lower db u q status priority cid skip lim :
  search_tasks db u (lower q) status priority cid skip lim
  = search_tasks db u q status priority cid skip lim.
Proof.
  unfold search_tasks. rewrite eqb_empty_lower.
  destruct (String.eqb q ""); [done|]. cbn [negb].
  erewrite list_filter_iff; [reflexivity|].
  intros r. by rewrite !ilike_lower.
Qed.

Lemma search_notes_lower db u q cid skip lim :
  search_notes db u (lower q) cid skip lim = search_notes db u q cid skip lim.
Proof.
  unfold search_notes. rewrite eqb_empty_lower.
  destruct (String.eqb q ""); [done|]. cbn [negb].
  erewrite list_filter_iff; [reflexivity|].
  intros r. by rewrite !ilike_lower.
Qed.

Lemma search_collections_lower db u q type_filter skip lim :
  search_collections db u (lower q) type_filter skip lim
  = search_collections db u q type_filter skip lim.
Proof.
  unfold search_collections. rewrite eqb_empty_lower.
  destruct (String.eqb q ""); [done|]. cbn [negb].
  erewrite list_filter_iff; [reflexivity|].
  intros r. by rewrite !ilike_lower.
Qed.

Lemma search_tags_lower db u q skip lim :
  search_tags db u (lower q) skip lim = search_tags db u q skip lim.
Proof.
  unfold search_tags. rewrite eqb_empty_lower.
  destruct (String.eqb q ""); [done|]. cbn [negb].
  erewrite list_filter_iff; [reflexivity|].
  intros r. by rewrite !ilike_lower.
Qed.

Lemma query_too_short_lower q :
  query_too_short (lower q) = query_too_short q.
Proof.
  rewrite !query_too_short_length. by rewrite strip_lower, length_lower.
Qed.

(** X4: the four search services and the global search read the query
    up to surrounding white space: two queries with the same [strip]
    give the same outcome, error or result. *)
Theorem search_ignores_surrounding_space (db : DB) (user_id : Z)
    (q q' : string) :
  strip q = strip q' →
  (∀ status priority cid skip lim,
     search_user_tasks db user_id q status priority cid skip lim
     = search_user_tasks db user_id q' status priority cid skip lim)
  ∧ (∀ cid skip lim,
       search_user_notes db user_id q cid skip lim
       = search_user_notes db user_id q' cid skip lim)
  ∧ (∀ type_filter skip lim,
       search_user_collections db user_id q type_filter skip lim
       = search_user_collections db user_id q' type_filter skip lim)
  ∧ (∀ skip lim,
       search_user_tags db user_id q skip lim
       = search_user_tags db user_id q' skip lim)
  ∧ (∀ finish self limit_per_type,
       global_search finish self user_id q limit_per_type
       = global_search finish self user_id q' limit_per_type).
Proof.
  intros Hs.
  assert (query_too_short q = query_too_short q') as Hq
    by (by rewrite !query_too_short_length, Hs).
  unfold search_user_tasks, search_user_notes, search_user_collections,
    search_user_tags, global_search.
  rewrite Hq, Hs. done.
Qed.

(** X5: the four search services ignore the case of the ASCII letters
    of the query: two queries with the same [lower] give the same
    outcome. *)
Theorem search_ignores_case (db : DB) (user_id : Z) (q q' : string) :
  lower q = lower q' →
  (∀ status priority cid skip lim,
     search_user_tasks db user_id q status priority cid skip lim
     = search_user_tasks db user_id q' status priority cid skip lim)
  ∧ (∀ cid skip lim,
       search_user_notes db user_id q cid skip lim
       = search_user_notes db user_id q' cid skip lim)
  ∧ (∀ type_filter skip lim,
       search_user_collections db user_id q type_filter skip lim
       = search_user_collections db user_id q' type_filter skip lim)
  ∧ (∀ skip lim,
       search_user_tags db user_id q skip lim
       = search_user_tags db user_id q' skip lim).
Proof.
  intros Hl.
  assert (query_too_short q = query_too_short q') as Hq.
  { by rewrite <- (query_too_short_lower q), Hl, query_too_short_lower. }
  assert (lower (strip q) = lower (strip q')) as Hs.
  { by rewrite <- !strip_lower, Hl. }
  unfold search_user_tasks, search_user_notes, search_user_collections,
    search_user_tags.
  rewrite Hq. destruct (query_too_short q'); [done|].
  repeat split; intros; f_equal.
  - by rewrite <- (search_tasks_lower _ _ (strip q)), Hs, search_tasks_lower.
  - by rewrite <- (search_notes_lower _ _ (strip q)), Hs, search_notes_lower.
  - by rewrite <- (search_collections_lower _ _ (strip q)), Hs,
         search_collections_lower.
  - by rewrite <- (search_tags_lower _ _ (strip q)), Hs, search_tags_lower.
Qed.

(** A letter outside ASCII is compared as written: a tag titled with
    the lower-case E ACUTE (233) is found by the query that spells it
    so, not by the one in upper case (201). *)
Example search_case_outside_ascii :
  let lower_case := String "233" (String "t" (String "233" EmptyString)) in
  let upper_case := String "201" (String "T" (String "201" EmptyString)) in
  let db := mkDB [mkTag 1 7 lower_case 1] [] [] [] [] [] [] 9 in
  search_user_tags db 7 lower_case None None = Ok [mkTag 1 7 lower_case 1]
  ∧ search_user_tags db 7 upper_case None None = Ok [].
Proof. split; by vm_compute. Qed.

(** ** Listing and search *)

Lemma elem_of_get_tasks_by_user db user_id status priority cid (t : Task) :
  t ∈ get_tasks_by_user db user_id status priority cid ↔
  ∃ r, t = loaded db r ∧ r ∈ db_tasks db ∧ task_user_id r = user_id
       ∧ (truthy_str status = true → Some (task_status r) = status)
       ∧ (truthy_str priority = true → Some (task_priority r) = priority)
       ∧ (truthy_int cid = true → task_collection_id r = cid).
Proof.
  unfold get_tasks_by_user. rewrite list_elem_of_fmap.
  apply exist_proper. intros r.
  destruct (truthy_str status), (truthy_str priority), (truthy_int cid);
    simpl; rewrite ?list_elem_of_filter; naive_solver.
Qed.

Lemma elem_of_get_notes_by_user db user_id cid (n : Note) :
  n ∈ get_notes_by_user db user_id cid ↔
  ∃ r, n = loaded db r ∧ r ∈ db_notes db ∧ note_user_id r = user_id
       ∧ (truthy_int cid = true → note_collection_id r = cid).
Proof.
  unfold get_notes_by_user. rewrite list_elem_of_fmap.
  apply exist_proper. intros r.
  destruct (truthy_int cid); simpl; rewrite ?list_elem_of_filter;
    naive_solver.
Qed.

Lemma elem_of_get_collections_by_user db user_id type_filter (c : Collection) :
  c ∈ get_collections_by_user db user_id type_filter ↔
  ∃ r, c = loaded db r ∧ r ∈ db_collections db
       ∧ collection_user_id r = user_id
       ∧ (truthy_str type_filter = true →
          type_is (collection_type r) (default "" type_filter)).
Proof.
  unfold get_collections_by_user. rewrite list_elem_of_fmap.
  apply exist_proper. intros r.
  destruct (truthy_str type_filter); simpl; rewrite ?list_elem_of_filter;
    naive_solver.
Qed.

(** X6: every entity a search returns is in the listing of the same
    user under the same filters, whatever the query and the window. *)
Theorem search_within_listing (db : DB) (user_id : Z) (q : string) :
  (∀ status priority cid skip lim t,
     t ∈ search_tasks db user_id q status priority cid skip lim →
     t ∈ get_tasks_by_user db user_id status priority cid)
  ∧ (∀ cid skip lim n,
       n ∈ search_notes db user_id q cid skip lim →
       n ∈ get_notes_by_user db user_id cid)
  ∧ (∀ type_filter skip lim c,
       c ∈ search_collections db user_id q type_filter skip lim →
       c ∈ get_collections_by_user db user_id type_filter)
  ∧ (∀ skip lim t,
       t ∈ search_tags db user_id q skip lim →
       t ∈ get_tags_by_user db user_id).
Proof.
  repeat split.
  - intros status priority cid skip lim t.
    destruct (search_tasks_stmt db user_id q status priority cid skip lim)
      as (stmt & -> & Hstmt).
    rewrite list_elem_of_fmap. intros (r & -> & Hr).
    apply elem_of_window, elem_of_order_by_desc, Hstmt in Hr.
    apply elem_of_get_tasks_by_user. exists r. naive_solver.
  - intros cid skip lim n.
    destruct (search_notes_stmt db user_id q cid skip lim)
      as (stmt & -> & Hstmt).
    rewrite list_elem_of_fmap. intros (r & -> & Hr).
    apply elem_of_window, elem_of_order_by_desc, Hstmt in Hr.
    apply elem_of_get_notes_by_user. exists r.
    destruct Hr as (Hr & Hu & Hc & _). repeat split; try done.
    intros Ht. apply Hc. by destruct cid.
  - intros type_filter skip lim c.
    destruct (search_collections_stmt db user_id q type_filter skip lim)
      as (stmt & -> & Hstmt).
    rewrite list_elem_of_fmap. intros (r & -> & Hr).
    apply elem_of_window, elem_of_order_by_desc, Hstmt in Hr.
    apply elem_of_get_collections_by_user. exists r.
    destruct Hr as (Hr & Hu & Hty & _). repeat split; try done.
    intros Ht. destruct type_filter as [ty|]; [|done]. by apply Hty.
  - intros skip lim t.
    destruct (search_tags_stmt db user_id q skip lim) as (stmt & -> & Hstmt).
    intros Hr. apply elem_of_window, elem_of_order_by_desc, Hstmt in Hr.
    unfold get_tags_by_user. apply list_elem_of_filter. tauto.
Qed.

(** ** Wild cards *)

Lemma like_only_percent p s :
  only_percent p = true → p ≠ "" → like p s = true.
Proof.
  revert s. induction p as [|c p IH]; intros s Hp Hne; [done|].
  simpl in Hp. apply andb_prop in Hp as [Hc Hp].
  apply Ascii.eqb_eq in Hc as ->.
  destruct p as [|c' p'].
  - apply like_percent_only.
  - rewrite like_percent, IH; done.
Qed.

Lemma only_percent_search_term q :
  only_percent q = true → only_percent (lower (search_term q)) = true.
Proof.
  intros Hq. rewrite lower_search_term. unfold search_term.
  change (String "%" (lower q) +:+ "%")
    with (String "%" (lower q +:+ "%")). simpl.
  induction q as [|c q IH]; [done|].
  simpl in Hq. apply andb_prop in Hq as [Hc Hq].
  apply Ascii.eqb_eq in Hc as ->. simpl.
  change (String "%" (lower q) +:+ "%") with (String "%" (lower q +:+ "%")).
  simpl. by apply IH.
Qed.

Lemma ilike_only_percent q s :
  only_percent q = true → ilike (Some s) (search_term q) = Some true.
Proof.
  intros Hq. unfold ilike. f_equal.
  apply like_only_percent; [by apply only_percent_search_term|].
  by rewrite lower_search_term.
Qed.

(** X7: a query made of [%] characters only selects nothing: unescaped,
    it matches every title, so each search returns, in its own order,
    all the rows of the user, that is, the whole listing. *)
Theorem percent_query_returns_everything (db : DB) (user_id : Z)
    (q : string) :
  q ≠ "" → only_percent q = true →
  search_tasks db user_id q None None None None None
    ≡ₚ get_tasks_by_user db user_id None None None
  ∧ search_notes db user_id q None None None
    ≡ₚ get_notes_by_user db user_id None
  ∧ search_collections db user_id q None None None
    ≡ₚ get_collections_by_user db user_id None
  ∧ search_tags db user_id q None None ≡ₚ get_tags_by_user db user_id.
Proof.
  intros Hne Hq.
  assert (String.eqb q "" = false) as He by (by apply String.eqb_neq).
  unfold search_tasks, search_notes, search_collections, search_tags,
    get_tasks_by_user, get_notes_by_user, get_collections_by_user,
    get_tags_by_user.
  rewrite He. cbn [truthy_str truthy_int negb offset limit].
  rewrite !order_by_desc_Permutation.
  repeat split; try apply fmap_Permutation.
  all: rewrite filter_all; [done|].
  all: intros r _; rewrite !ilike_only_percent by done; unfold sql_true.
  all: by try destruct (ilike _ _) as [[]|].
Qed.

(** ** The global search endpoint *)

Lemma slice_to_sublist {A : Type} (n : Z) (xs : list A) :
  slice_to n xs `sublist_of` xs.
Proof. unfold slice_to. destruct (0 <=? n); apply sublist_take. Qed.

Lemma slice_to_is_slice {A : Type} (n : Z) (xs : list A) :
  0 ≤ n → slice_to n xs = slice 0 (0 + n) xs.
Proof.
  intros Hn. rewrite slice_nonneg, slice_to_nonneg by lia. done.
Qed.

(** The envelope of the global search over one store. *)
Lemma global_search_envelope finish db user_id q limit :
  search_routers.global_search finish db user_id q limit
  = if query_too_short q then Raise (HTTPException 400 QueryTooShort)
    else
      let ts := search_tasks db user_id (strip q) None None None None None in
      let ns := search_notes db user_id (strip q) None None None in
      let cs := search_collections db user_id (strip q) None None None in
      let gs := search_tags db user_id (strip q) None None in
      Ok (mkEnvelope (strip q)
            (mkResults (TaskOut_model_validate <$> slice_to limit ts)
               (NoteOut_model_validate <$> slice_to limit ns)
               (CollectionOut_model_validate <$> slice_to limit cs)
               (TagOut_model_validate <$> slice_to limit gs))
            (length ts + length ns + length cs + length gs)).
Proof.
  unfold search_routers.global_search.
  destruct (query_too_short q) eqn:Hq.
  - unfold global_search. by rewrite Hq.
  - rewrite global_search_join by done.
    unfold get_search_service. simpl.
    unfold search_user_tasks, search_user_notes, search_user_collections,
      search_user_tags.
    by rewrite (query_too_short_strip q Hq), strip_idemp.
Qed.

(** X8: for a limit that is not negative, each list of the envelope has
    [min(limit, count)] entries, so the entries shown never outnumber
    [total_count], and nothing is cut when [total_count] does not exceed
    the limit. *)
Theorem global_search_list_sizes (finish : nat → nat) (db : DB)
    (user_id : Z) (q : string) (limit : Z) :
  query_too_short q = false → 0 ≤ limit →
  ∃ env,
    search_routers.global_search finish db user_id q limit = Ok env
    ∧ length (tasks (results env))
      = (Z.to_nat limit `min`
         length (search_tasks db user_id (strip q) None None None None None))%nat
    ∧ length (notes (results env))
      = (Z.to_nat limit `min`
         length (search_notes db user_id (strip q) None None None))%nat
    ∧ length (collections (results env))
      = (Z.to_nat limit `min`
         length (search_collections db user_id (strip q) None None None))%nat
    ∧ length (tags (results env))
      = (Z.to_nat limit `min`
         length (search_tags db user_id (strip q) None None))%nat
    ∧ (length (tasks (results env)) + length (notes (results env))
       + length (collections (results env)) + length (tags (results env))
       ≤ total_count env)%nat
    ∧ ((total_count env ≤ Z.to_nat limit)%nat →
       (length (tasks (results env)) + length (notes (results env))
        + length (collections (results env)) + length (tags (results env))
        = total_count env)%nat).
Proof.
  intros Hq Hl. rewrite global_search_envelope, Hq. eexists.
  split; [reflexivity|]. simpl.
  rewrite !length_fmap, !slice_to_nonneg, !length_take by done.
  repeat split; lia.
Qed.

(** X9: the lists of the envelope are the first pages of the search
    endpoints: for a limit that is not negative, the tasks of the global
    search are what the task search endpoint answers for the same query
    with no filter, [skip = 0] and the same limit, and likewise for
    notes, collections and tags. *)
Theorem global_search_lists_are_first_pages (finish : nat → nat)
    (db : DB) (user_id : Z) (q : string) (limit : Z) :
  0 ≤ limit →
  tasks ∘ results <$> search_routers.global_search finish db user_id q limit
  = tasks_routers.search_tasks db user_id q None None None 0 limit
  ∧ notes ∘ results <$> search_routers.global_search finish db user_id q limit
    = notes_routers.search_notes db user_id q None 0 limit
  ∧ collections ∘ results
      <$> search_routers.global_search finish db user_id q limit
    = collections_routers.search_collections db user_id q None 0 limit
  ∧ tags ∘ results <$> search_routers.global_search finish db user_id q limit
    = tags_routers.search_tags db user_id q 0 limit.
Proof.
  intros Hl.
  rewrite global_search_envelope, tasks_search_endpoint,
    notes_search_endpoint, collections_search_endpoint, tags_search_endpoint.
  destruct (query_too_short q); [done|]. simpl.
  by rewrite !slice_to_is_slice.
Qed.

Lemma search_tasks_desc db u q status priority cid skip lim :
  desc_by (task_updated_at ∘ obj_row)
    (search_tasks db u q status priority cid skip lim).
Proof.
  destruct (search_tasks_stmt db u q status priority cid skip lim)
    as (stmt & -> & _).
  apply loaded_desc_by, window_desc_by, order_by_desc_sorted.
Qed.

Lemma search_notes_desc db u q cid skip lim :
  desc_by (note_updated_at ∘ obj_row) (search_notes db u q cid skip lim).
Proof.
  destruct (search_notes_stmt db u q cid skip lim) as (stmt & -> & _).
  apply loaded_desc_by, window_desc_by, order_by_desc_sorted.
Qed.

Lemma search_collections_desc db u q type_filter skip lim :
  desc_by (collection_updated_at ∘ obj_row)
    (search_collections db u q type_filter skip lim).
Proof.
  destruct (search_collections_stmt db u q type_filter skip lim)
    as (stmt & -> & _).
  apply loaded_desc_by, window_desc_by, order_by_desc_sorted.
Qed.

Lemma search_tags_desc db u q skip lim :
  desc_by tag_updated_at (search_tags db u q skip lim).
Proof.
  destruct (search_tags_stmt db u q skip lim) as (stmt & -> & _).
  apply window_desc_by, order_by_desc_sorted.
Qed.

Lemma fmap_desc_by {A B : Type} (f : A → B) (key : B → Z) (l : list A) :
  desc_by (key ∘ f) l → desc_by key (f <$> l).
Proof. unfold desc_by. apply StronglySorted_fmap. by intros x y. Qed.

(** X10: whatever the limit, an envelope holds only entries of the user
    searching, and each of its four lists runs from the most recently
    updated entry to the least. *)
Theorem global_search_scoped_and_ordered (finish : nat → nat) (db : DB)
    (user_id : Z) (q : string) (limit : Z) (env : Envelope) :
  search_routers.global_search finish db user_id q limit = Ok env →
  (Forall (λ t, to_user_id t = user_id) (tasks (results env))
   ∧ Forall (λ n, no_user_id n = user_id) (notes (results env))
   ∧ Forall (λ c, co_user_id c = user_id) (collections (results env))
   ∧ Forall (λ t, tgo_user_id t = user_id) (tags (results env)))
  ∧ desc_by to_updated_at (tasks (results env))
  ∧ desc_by no_updated_at (notes (results env))
  ∧ desc_by co_updated_at (collections (results env))
  ∧ desc_by tgo_updated_at (tags (results env)).
Proof.
  rewrite global_search_envelope.
  destruct (query_too_short q); [done|]. intros Heq.
  apply Ok_inj in Heq. subst env.
  cbn [results tasks notes collections tags].
  rewrite !Forall_fmap.
  repeat split.
  - eapply Forall_sublist; [apply slice_to_sublist|]. apply search_tasks_owned.
  - eapply Forall_sublist; [apply slice_to_sublist|]. apply search_notes_owned.
  - eapply Forall_sublist; [apply slice_to_sublist|].
    apply search_collections_owned.
  - eapply Forall_sublist; [apply slice_to_sublist|]. apply search_tags_owned.
  - apply fmap_desc_by. eapply StronglySorted_sublist;
      [apply slice_to_sublist|apply search_tasks_desc].
  - apply fmap_desc_by. eapply StronglySorted_sublist;
      [apply slice_to_sublist|apply search_notes_desc].
  - apply fmap_desc_by. eapply StronglySorted_sublist;
      [apply slice_to_sublist|apply search_collections_desc].
  - apply fmap_desc_by. eapply StronglySorted_sublist;
      [apply slice_to_sublist|apply search_tags_desc].
Qed.

(** ** Tag lookup *)

Lemma select_tags_in_ext db user_id ids ids' :
  (∀ x, x ∈ ids ↔ x ∈ ids') →
  select_tags_in db user_id ids = select_tags_in db user_id ids'.
Proof.
  intros H. unfold select_tags_in. apply list_filter_iff.
  intros t. by rewrite H.
Qed.

Lemma set_ext ids ids' : (∀ x, x ∈ ids ↔ x ∈ ids') → set ids = set ids'.
Proof.
  intros H. unfold set. apply set_eq. intros x.
  by rewrite !elem_of_list_to_set.
Qed.

Lemma select_tags_in_dict_fromkeys db user_id ids :
  select_tags_in db user_id (dict_fromkeys ids) = select_tags_in db user_id ids.
Proof. apply select_tags_in_ext, elem_of_dict_fromkeys. Qed.

Lemma set_dict_fromkeys ids : set (dict_fromkeys ids) = set ids.
Proof. apply set_ext, elem_of_dict_fromkeys. Qed.

Lemma dict_fromkeys_nil_iff ids : dict_fromkeys ids = [] ↔ ids = [].
Proof.
  split; [|by intros ->]. intros H. destruct ids as [|x ids]; [done|].
  exfalso. apply (dict_fromkeys_nil_inv _ x H). by left.
Qed.

(** [_load_tags] without the detour through [dict.fromkeys]. *)
Lemma load_tags_form db user_id ids require_all :
  _load_tags db user_id ids require_all
  = if require_all
       && negb (Nat.eqb (length (select_tags_in db user_id ids))
                  (size (set ids)))
    then Raise (HTTPException 400
                  (TagsNotFound
                     (sorted (set ids
                              ∖ set (tag_id <$> select_tags_in db user_id ids)))))
    else Ok (select_tags_in db user_id ids).
Proof.
  unfold _load_tags.
  destruct (dict_fromkeys ids) as [|i l] eqn:Hd.
  - apply dict_fromkeys_nil_iff in Hd as ->.
    rewrite select_tags_in_nil. by destruct require_all.
  - rewrite <- Hd.
    by rewrite select_tags_in_dict_fromkeys, set_dict_fromkeys.
Qed.

(** X11: [_load_tags] reads its request as a set: two requests with the
    same ids, in any order and with any repetitions, give the same
    outcome, the same tags or the same list of missing ids; and with
    [require_all] off it never fails and returns the requested tags the
    user owns. *)
Theorem load_tags_reads_a_set (db : DB) (user_id : Z) (ids ids' : list Z) :
  (∀ x, x ∈ ids ↔ x ∈ ids') →
  (∀ require_all,
     _load_tags db user_id ids require_all
     = _load_tags db user_id ids' require_all)
  ∧ _load_tags db user_id ids false = Ok (select_tags_in db user_id ids').
Proof.
  intros H. split.
  - intros ra. rewrite !load_tags_form.
    by rewrite (select_tags_in_ext _ _ ids ids'), (set_ext ids ids').
  - rewrite load_tags_form. simpl. by rewrite (select_tags_in_ext _ _ ids ids').
Qed.

Lemma validate_tags_form db user_id ids :
  validate_tags db user_id (Some ids)
  = (λ _, ()) <$> _load_tags db user_id ids true.
Proof.
  rewrite load_tags_form. unfold validate_tags, check_tags_found.
  assert (get_tags_by_ids_and_user db ids user_id
          = select_tags_in db user_id ids) as ->.
  { destruct ids; [|done]. by rewrite select_tags_in_nil. }
  simpl. by destruct (negb _).
Qed.

(** X12: the tag check the create and update methods run before writing
    and the check inside the reconciler decide alike and fail alike: the
    pre-check succeeds exactly when [_load_tags] does and raises the
    same exception when it does not, so a reconciler called after a
    passed pre-check, on a persistent entity of that user, succeeds. *)
Theorem tag_precheck_agrees_with_reconciler (db : DB) (user_id : Z)
    (ids : list Z) :
  validate_tags db user_id (Some ids)
  = (λ _, ()) <$> _load_tags db user_id ids true
  ∧ (validate_tags db user_id (Some ids) = Ok () →
     (∀ task : Task,
        obj_state task = Persistent → task_user_id (obj_row task) = user_id →
        is_ok (set_task_tags db task ids) = true)
     ∧ (∀ note : Note,
          obj_state note = Persistent → note_user_id (obj_row note) = user_id →
          is_ok (set_note_tags db note ids) = true)
     ∧ (∀ collection : Collection,
          obj_state collection = Persistent →
          collection_user_id (obj_row collection) = user_id →
          is_ok (set_collection_tags db collection ids) = true)).
Proof.
  split; [apply validate_tags_form|].
  rewrite validate_tags_form. intros Hv.
  destruct (_load_tags db user_id ids true) as [tags|e] eqn:Hl; [|done].
  repeat split; intros o Hst Hu.
  - unfold set_task_tags.
    rewrite (set_entity_tags_persistent _ _ _ tags); [done| |done].
    simpl. by rewrite Hu.
  - unfold set_note_tags.
    rewrite (set_entity_tags_persistent _ _ _ tags); [done| |done].
    simpl. by rewrite Hu.
  - unfold set_collection_tags.
    rewrite (set_entity_tags_persistent _ _ _ tags); [done| |done].
    simpl. by rewrite Hu.
Qed.

(** ** Fetching one entity *)

Lemma filter_unique_key {A : Type} (P : A → Prop)
    `{!∀ x, Decision (P x)} (key : A → Z) (l : list A) (k : Z) :
  NoDup (key <$> l) → (∀ x, P x → key x = k) →
  filter P l = [] ∨ ∃ x, filter P l = [x].
Proof.
  intros Hnd HP.
  destruct (filter P l) as [|x [|y rest]] eqn:Hf; [by left|right; by exists x|].
  exfalso.
  assert (NoDup (key <$> filter P l)) as Hnd'.
  { eapply sublist_NoDup; [exact Hnd|]. apply fmap_sublist, sublist_filter. }
  assert (P x ∧ P y) as [Hx Hy].
  { split; eapply (proj1 (list_elem_of_filter P l _)); rewrite Hf;
      [by left|right; by left]. }
  rewrite Hf in Hnd'. simpl in Hnd'.
  apply NoDup_cons in Hnd' as [Hin _]. apply Hin.
  rewrite (HP x Hx), <- (HP y Hy). by left.
Qed.

(** ** Integrity of the store: the session *)

#[global] Instance Task_Note_separate : Separate TaskRow NoteRow.
Proof. by split. Qed.
#[global] Instance Task_Collection_separate : Separate TaskRow CollectionRow.
Proof. by split. Qed.
#[global] Instance Note_Task_separate : Separate NoteRow TaskRow.
Proof. by split. Qed.
#[global] Instance Note_Collection_separate : Separate NoteRow CollectionRow.
Proof. by split. Qed.
#[global] Instance Collection_Task_separate : Separate CollectionRow TaskRow.
Proof. by split. Qed.
#[global] Instance Collection_Note_separate : Separate CollectionRow NoteRow.
Proof. by split. Qed.

Section session_facts.
Context {R : Type} `{!Mapped R} `{!MappedLaws R}.
Implicit Types (o : Obj R) (db : DB).

Lemma next_pk_gt (rows : list R) r : r ∈ rows → pk r < next_pk rows.
Proof.
  unfold next_pk. induction rows as [|x rows IH]; intros Hr.
  - inversion Hr.
  - simpl. apply elem_of_cons in Hr as [->|Hr]; [lia|].
    specialize (IH Hr). lia.
Qed.

Lemma next_pk_fresh (rows : list R) : next_pk rows ∉ pk <$> rows.
Proof.
  intros Hin. apply list_elem_of_fmap in Hin as (r & Heq & Hr).
  apply next_pk_gt in Hr. lia.
Qed.

(** What [flush] does with a pending instance. *)
Lemma flush_pending db o :
  obj_state o = Pending →
  ∃ row,
    flush db o = (with_association
                    (association (R:=R) db
                     ++ ((λ t, (tag_id t, pk row)) <$> default [] (obj_tags o)))
                    (with_table (table (R:=R) db ++ [row]) db),
                  mkObj row Persistent (obj_tags o))
    ∧ pk row = next_pk (table (R:=R) db)
    ∧ owner row = owner (obj_row o)
    ∧ row = with_updated_at (db_now db)
              (with_pk (next_pk (table (R:=R) db)) (obj_row o)).
Proof.
  intros Hst. eexists. unfold flush. rewrite Hst.
  rewrite association_with_table.
  split; [|split; [|split]]; [|by rewrite pk_with_updated_at, pk_with_pk|
    by rewrite owner_with_updated_at, owner_with_pk|reflexivity].
  by rewrite pk_with_updated_at, pk_with_pk.
Qed.

Lemma flush_persistent_table db o :
  obj_state o = Persistent →
  table (R:=R) (flush db o).1 = stamped db o <$> table (R:=R) db.
Proof.
  intros Hst. unfold flush. rewrite Hst. simpl.
  destruct (obj_tags o);
    by rewrite ?table_with_association, table_with_table.
Qed.

Lemma pk_stamped db o r : pk (stamped db o r) = pk r.
Proof.
  unfold stamped. destruct (decide (pk r = pk (obj_row o))) as [Heq|]; [|done].
  destruct (decide (r = obj_row o)); [done|].
  by rewrite pk_with_updated_at.
Qed.

Lemma owner_stamped db o r :
  owner (stamped db o r)
  = if decide (pk r = pk (obj_row o)) then
      if decide (r = obj_row o) then owner r else owner (obj_row o)
    else owner r.
Proof.
  unfold stamped. destruct (decide (pk r = pk (obj_row o))); [|done].
  destruct (decide (r = obj_row o)); [done|].
  by rewrite owner_with_updated_at.
Qed.

Lemma stamped_other db o r : pk r ≠ pk (obj_row o) → stamped db o r = r.
Proof. intros H. unfold stamped. by destruct (decide _). Qed.

Lemma flush_persistent_keys db o :
  obj_state o = Persistent →
  pk <$> table (R:=R) (flush db o).1 = pk <$> table (R:=R) db.
Proof.
  intros Hst. rewrite flush_persistent_table by done.
  rewrite <- list_fmap_compose. apply list_fmap_ext.
  intros i r _. apply pk_stamped.
Qed.

(** The other tables are out of reach of a flush. *)
Lemma flush_db_tags db o : db_tags (flush db o).1 = db_tags db.
Proof.
  unfold flush. destruct (obj_state o); simpl; try done.
  - by rewrite db_tags_with_association, db_tags_with_table.
  - destruct (obj_tags o);
      by rewrite ?db_tags_with_association, db_tags_with_table.
Qed.

Lemma flush_frame {R' : Type} `{!Mapped R'} `{!Separate R R'} db o :
  table (R:=R') (flush db o).1 = table (R:=R') db
  ∧ association (R:=R') (flush db o).1 = association (R:=R') db.
Proof.
  unfold flush. destruct (obj_state o); simpl; try done.
  - by rewrite table_with_association_other, table_with_table_other,
         association_with_association_other, association_with_table_other.
  - destruct (obj_tags o);
      by rewrite ?table_with_association_other, ?table_with_table_other,
           ?association_with_association_other,
           ?association_with_table_other.
Qed.
End session_facts.

Section soundness.
Context {R : Type} `{!Mapped R} `{!MappedLaws R}.
Implicit Types (o : Obj R) (db : DB).

Lemma flush_only_touches db o : only_touches R db (flush db o).1.
Proof.
  split; [apply flush_db_tags|]. intros R' M' S. apply flush_frame.
Qed.

Lemma flush_pending_sound db o :
  entity_sound R db → obj_state o = Pending → tags_of_owner db o →
  entity_sound R (flush db o).1 ∧ attached (flush db o).1 (flush db o).2
  ∧ obj_tags (flush db o).2 = obj_tags o
  ∧ owner (obj_row (flush db o).2) = owner (obj_row o)
  ∧ pk (obj_row (flush db o).2) ∉ pk <$> table (R:=R) db
  ∧ table (R:=R) (flush db o).1
    = table (R:=R) db ++ [obj_row (flush db o).2].
Proof.
  intros [Hkeys Hlinks] Hst Htags.
  destruct (flush_pending db o Hst) as (row & -> & Hpk & Hown & _).
  cbn [fst snd obj_row obj_tags obj_state].
  assert (pk row ∉ pk <$> table (R:=R) db) as Hfresh
    by (rewrite Hpk; apply next_pk_fresh).
  assert (table (R:=R)
            (with_association
               (association (R:=R) db
                ++ ((λ t, (tag_id t, pk row)) <$> default [] (obj_tags o)))
               (with_table (table (R:=R) db ++ [row]) db))
          = table (R:=R) db ++ [row]) as Htab
    by (by rewrite table_with_association, table_with_table).
  split; [split|split; [split; [|split]|]].
  - unfold keys_unique. rewrite Htab, fmap_app.
    apply NoDup_app. split; [done|]. split.
    + intros x Hx Hx'. apply list_elem_of_singleton in Hx' as ->. done.
    + apply NoDup_singleton.
  - intros t e. rewrite Htab, association_with_association,
      db_tags_with_association, db_tags_with_table.
    rewrite elem_of_app. intros [Hold|Hnew].
    + destruct (Hlinks t e Hold) as (tg & r & ? & ? & ? & ? & ?).
      exists tg, r. repeat split; try done. apply elem_of_app. by left.
    + apply list_elem_of_fmap in Hnew as (tg & [= -> ->] & Htg).
      destruct (Htags tg Htg) as [? ?].
      exists tg, row. repeat split; try done; [|congruence].
      apply elem_of_app. right. by left.
  - done.
  - cbn [obj_row]. rewrite Htab, fmap_app.
    apply elem_of_app. right. by left.
  - cbn [obj_row]. rewrite Htab.
    intros r Hr Hpkr. apply elem_of_app in Hr as [Hr|Hr].
    + exfalso. apply Hfresh. rewrite <- Hpkr. by apply list_elem_of_fmap_2.
    + by apply list_elem_of_singleton in Hr as ->.
  - done.
Qed.

Lemma flush_persistent_sound db o :
  entity_sound R db → attached db o → tags_of_owner db o →
  entity_sound R (flush db o).1 ∧ attached (flush db o).1 (flush db o).2
  ∧ obj_tags (flush db o).2 = obj_tags o
  ∧ pk (obj_row (flush db o).2) = pk (obj_row o)
  ∧ owner (obj_row (flush db o).2) = owner (obj_row o).
Proof.
  intros [Hkeys Hlinks] (Hst & Hin & Hown) Htags.
  pose proof (flush_persistent db o Hst) as Hfl.
  pose proof (flush_persistent_table db o Hst) as Htab.
  pose proof (flush_persistent_keys db o Hst) as Hks.
  destruct (flush db o) as [db' o'] eqn:Heq. simpl in *.
  destruct Hfl as (Hst' & Htags' & Hpk' & Hown' & Hdbt & Hassoc).
  assert (∀ r', r' ∈ table (R:=R) db' → pk r' = pk (obj_row o) →
                owner r' = owner (obj_row o)) as Hown_new.
  { intros r'. rewrite Htab. intros Hr' Hpk.
    apply list_elem_of_fmap in Hr' as (r & -> & Hr).
    rewrite pk_stamped in Hpk. rewrite owner_stamped.
    rewrite decide_True by done.
    destruct (decide (r = obj_row o)); [by apply Hown|done]. }
  assert (∃ r', r' ∈ table (R:=R) db' ∧ pk r' = pk (obj_row o))
    as (r0 & Hr0 & Hpk0).
  { apply list_elem_of_fmap in Hin as (r & Hpk & Hr).
    exists (stamped db o r). rewrite Htab, pk_stamped.
    split; [by apply list_elem_of_fmap_2|done]. }
  split; [split|split; [repeat split|done]].
  - unfold keys_unique. by rewrite Hks.
  - intros t e Hte. rewrite Hdbt.
    destruct (decide (e = pk (obj_row o))) as [->|Hne].
    + destruct (obj_tags o) as [cur|] eqn:Hcur.
      * rewrite Hassoc in Hte.
        apply elem_of_sync_association, list_elem_of_fmap in Hte
          as (tg & -> & Htg).
        destruct (Htags tg) as [? ?]; [by rewrite Hcur|].
        exists tg, r0. repeat split; try done.
        rewrite (Hown_new r0); done.
      * rewrite Hassoc in Hte.
        destruct (Hlinks _ _ Hte) as (tg & r & ? & ? & Hr & Hpk & Ho).
        exists tg, r0. repeat split; try done.
        rewrite (Hown_new r0) by done. rewrite Ho. by apply Hown.
    + assert ((t, e) ∈ association (R:=R) db) as Hold.
      { destruct (obj_tags o) as [cur|]; rewrite Hassoc in Hte; [|done].
        unfold sync_association in Hte.
        apply elem_of_app in Hte as [Hte|Hte].
        - by apply list_elem_of_filter in Hte as [_ ?].
        - apply list_elem_of_filter in Hte as [_ Hte].
          apply list_elem_of_fmap in Hte as (tg & [= -> ->] & _). done. }
      destruct (Hlinks _ _ Hold) as (tg & r & ? & ? & Hr & Hpk & Ho).
      exists tg, r. repeat split; try done.
      rewrite Htab. apply list_elem_of_fmap. exists r.
      split; [|done]. rewrite stamped_other; [done|congruence].
  - done.
  - rewrite Hpk', Hks. done.
  - intros r Hr Hpk. rewrite Hpk' in Hpk. rewrite Hown'. by apply Hown_new.
Qed.
End soundness.

Lemma NoDup_fmap_eq {A B : Type} (f : A → B) (l : list A) x y :
  NoDup (f <$> l) → x ∈ l → y ∈ l → f x = f y → x = y.
Proof.
  induction l as [|z l IH]; intros Hnd Hx Hy Hf; [inversion Hx|].
  simpl in Hnd. apply NoDup_cons in Hnd as [Hz Hnd].
  apply elem_of_cons in Hx as [->|Hx], Hy as [->|Hy]; [done| | |by apply IH].
  - exfalso. apply Hz. rewrite Hf. by apply list_elem_of_fmap_2.
  - exfalso. apply Hz. rewrite <- Hf. by apply list_elem_of_fmap_2.
Qed.

Lemma entity_sound_frame (R R' : Type) `{!Mapped R, !Mapped R'}
    `{!Separate R R'} db db' :
  only_touches R db db' → entity_sound R' db → entity_sound R' db'.
Proof.
  intros [Htags Hframe] [Hkeys Hlinks].
  destruct (Hframe R' _ _) as [Ht Ha].
  unfold entity_sound, keys_unique, links_sound. rewrite Ht, Ha, Htags.
  exact (conj Hkeys Hlinks).
Qed.

Lemma only_touches_refl (R : Type) `{!Mapped R} db : only_touches R db db.
Proof. by split. Qed.

Lemma only_touches_trans (R : Type) `{!Mapped R} db1 db2 db3 :
  only_touches R db1 db2 → only_touches R db2 db3 → only_touches R db1 db3.
Proof.
  intros [Ht1 Hf1] [Ht2 Hf2]. split; [congruence|].
  intros R' M' S. destruct (Hf1 R' M' S), (Hf2 R' M' S). split; congruence.
Qed.

Lemma store_sound_task_write db db' :
  store_sound db → only_touches TaskRow db db' → entity_sound TaskRow db' →
  store_sound db'.
Proof.
  intros (Hpk & _ & Hn & Hc) Hot Ht. pose proof Hot as [Htags _].
  unfold store_sound, tags_pk. rewrite Htags.
  split; [exact Hpk|]. split; [exact Ht|].
  split; [exact (entity_sound_frame TaskRow NoteRow db db' Hot Hn)|].
  exact (entity_sound_frame TaskRow CollectionRow db db' Hot Hc).
Qed.

Lemma store_sound_note_write db db' :
  store_sound db → only_touches NoteRow db db' → entity_sound NoteRow db' →
  store_sound db'.
Proof.
  intros (Hpk & Ht & _ & Hc) Hot Hn. pose proof Hot as [Htags _].
  unfold store_sound, tags_pk. rewrite Htags.
  split; [exact Hpk|].
  split; [exact (entity_sound_frame NoteRow TaskRow db db' Hot Ht)|].
  split; [exact Hn|].
  exact (entity_sound_frame NoteRow CollectionRow db db' Hot Hc).
Qed.

Lemma store_sound_collection_write db db' :
  store_sound db → only_touches CollectionRow db db' →
  entity_sound CollectionRow db' → store_sound db'.
Proof.
  intros (Hpk & Ht & Hn & _) Hot Hc. pose proof Hot as [Htags _].
  unfold store_sound, tags_pk. rewrite Htags.
  split; [exact Hpk|].
  split; [exact (entity_sound_frame CollectionRow TaskRow db db' Hot Ht)|].
  split; [exact (entity_sound_frame CollectionRow NoteRow db db' Hot Hn)|].
  exact Hc.
Qed.

Section reconciler_soundness.
Context {R : Type} `{!Mapped R} `{!MappedLaws R}.
Implicit Types (o : Obj R) (db : DB).

Lemma load_tags_of_owner db user_id ids ra tags tg :
  _load_tags db user_id ids ra = Ok tags → tg ∈ tags →
  tg ∈ db_tags db ∧ tag_user_id tg = user_id ∧ tag_id tg ∈ ids.
Proof.
  rewrite load_tags_form. destruct (_ && _); [done|].
  intros [= <-] Htg. by apply elem_of_select_tags_in in Htg.
Qed.

(** The tags joined to a stored entity are stored tags of its owner. *)
Lemma linked_tags_of_owner db id r tg :
  tags_pk db → links_sound R db → keys_unique R db →
  r ∈ table (R:=R) db → pk r = id →
  tg ∈ linked_tags (R:=R) db id →
  tg ∈ db_tags db ∧ tag_user_id tg = owner r.
Proof.
  intros Hpk Hlinks Hkeys Hr Hid. unfold linked_tags.
  rewrite list_elem_of_bind. intros ([t e] & Htg & Hte).
  destruct (decide (e = id)) as [->|]; [|by inversion Htg].
  apply list_elem_of_filter in Htg as [Ht Htg]. split; [done|].
  destruct (Hlinks _ _ Hte) as (tg' & r' & Htg' & Ht' & Hr' & Hpk' & Ho).
  assert (tg' = tg) as ->.
  { apply (NoDup_fmap_eq tag_id (db_tags db)); [done..|congruence]. }
  assert (r' = r) as ->.
  { apply (NoDup_fmap_eq pk (table (R:=R) db)); [done..|congruence]. }
  done.
Qed.

Lemma set_entity_tags_sound db o ids db' o' :
  entity_sound R db → attached db o →
  set_entity_tags db o ids = Ok (db', o') →
  entity_sound R db' ∧ attached db' o' ∧ only_touches R db db'
  ∧ pk (obj_row o') = pk (obj_row o)
  ∧ owner (obj_row o') = owner (obj_row o)
  ∧ ∃ tags, _load_tags db (owner (obj_row o)) ids true = Ok tags
            ∧ obj_tags o' = Some tags.
Proof.
  intros Hs Hatt Hset. pose proof Hatt as (Hst & Hin & Hown).
  destruct (_load_tags db (owner (obj_row o)) ids true) as [tags|e] eqn:Hl.
  2:{ unfold set_entity_tags in Hset. by rewrite Hl in Hset. }
  rewrite (set_entity_tags_persistent _ _ _ tags) in Hset by done.
  apply Ok_inj in Hset.
  set (o1 := mkObj (obj_row o) Persistent (Some tags)) in *.
  assert (attached db o1) as Hatt1 by done.
  assert (tags_of_owner db o1) as Htags1.
  { intros tg Htg. simpl in Htg.
    destruct (load_tags_of_owner _ _ _ _ _ tg Hl Htg) as (? & ? & _). done. }
  destruct (flush_persistent_sound db o1 Hs Hatt1 Htags1)
    as (Hs' & Hatt' & Ht' & Hpk' & Hown').
  pose proof (flush_only_touches db o1) as Hot.
  rewrite Hset in *. simpl in *.
  split; [done|]. split; [done|]. split; [done|]. split; [done|].
  split; [done|]. by exists tags.
Qed.
End reconciler_soundness.

(** ** Integrity of the store: creating and updating *)

Lemma create_task_for_user_steps db user_id task_create :
  create_task_for_user db user_id task_create
  = (check_task_collection db user_id (mjoin (tb_collection_id task_create));;
     validate_tags db user_id (mjoin (tb_tag_ids task_create));;
     finish (create_task db (task_data user_id task_create))
       (mjoin (tb_tag_ids task_create))).
Proof. reflexivity. Qed.

Lemma create_note_for_user_steps db user_id note_create :
  create_note_for_user db user_id note_create
  = (check_note_collection db user_id (mjoin (nb_collection_id note_create));;
     validate_tags db user_id (mjoin (nb_tag_ids note_create));;
     finish (create_note db (note_data user_id note_create))
       (mjoin (nb_tag_ids note_create))).
Proof. reflexivity. Qed.

Lemma update_user_task_steps db user_id id task_update :
  update_user_task db user_id id task_update
  = (task ← get_user_task_by_id db user_id id;
     match tb_collection_id task_update with
     | Some cid => check_task_collection db user_id cid
     | None => Ok ()
     end;;
     validate_tags db user_id (mjoin (tb_tag_ids task_update));;
     finish (update_task db task (task_update_data task_update))
       (mjoin (tb_tag_ids task_update))).
Proof. reflexivity. Qed.

Lemma update_user_note_steps db user_id id note_update :
  update_user_note db user_id id note_update
  = (note ← get_user_note_by_id db user_id id;
     match nb_collection_id note_update with
     | Some cid => check_note_collection db user_id cid
     | None => Ok ()
     end;;
     validate_tags db user_id (mjoin (nb_tag_ids note_update));;
     finish (update_note db note (note_update_data note_update))
       (mjoin (nb_tag_ids note_update))).
Proof. reflexivity. Qed.

Section finishing.
Context {R : Type} `{!Mapped R} `{!MappedLaws R}.
Implicit Types (o : Obj R) (db : DB).

Lemma filter_key_stored db (row : R) :
  keys_unique R db → row ∈ table (R:=R) db →
  filter (λ r, pk r = pk row) (table (R:=R) db) = [row].
Proof.
  intros Hk Hrow.
  destruct (filter_unique_key (λ r, pk r = pk row) pk (table (R:=R) db)
              (pk row) Hk) as [Hnil|[x Hx]]; [done| |].
  - exfalso. assert (row ∈ filter (λ r, pk r = pk row) (table (R:=R) db))
      as Hin by (by apply list_elem_of_filter).
    rewrite Hnil in Hin. inversion Hin.
  - rewrite Hx. f_equal.
    assert (x ∈ filter (λ r, pk r = pk row) (table (R:=R) db)) as Hin
      by (rewrite Hx; by left).
    apply list_elem_of_filter in Hin as [Hpk Hin].
    by apply (NoDup_fmap_eq pk (table (R:=R) db)).
Qed.

Lemma stored_attached db o :
  keys_unique R db → obj_state o = Persistent →
  obj_row o ∈ table (R:=R) db → attached db o.
Proof.
  intros Hk Hst Hrow. split; [done|].
  split; [by apply list_elem_of_fmap_2|].
  intros r Hr Hpk. f_equal. by apply (NoDup_fmap_eq pk (table (R:=R) db)).
Qed.

Lemma stamped_stored db o r :
  keys_unique R db → obj_row o ∈ table (R:=R) db → r ∈ table (R:=R) db →
  stamped db o r = r.
Proof.
  intros Hk Hrow Hr. unfold stamped.
  destruct (decide (pk r = pk (obj_row o))) as [Hpk|]; [|done].
  rewrite decide_True; [done|].
  by apply (NoDup_fmap_eq pk (table (R:=R) db)).
Qed.

Lemma refresh_stored db o :
  keys_unique R db → obj_state o = Persistent →
  obj_row o ∈ table (R:=R) db →
  refresh db o = Ok (mkObj (obj_row o) Persistent (obj_tags o)).
Proof.
  intros Hk Hst Hrow. unfold refresh.
  by rewrite Hst, filter_key_stored.
Qed.

(** Flushing a stored, unchanged row with a new tag collection rewrites
    its links and nothing else. *)
Lemma flush_stored db o :
  keys_unique R db → obj_state o = Persistent →
  obj_row o ∈ table (R:=R) db →
  ∃ db', flush db o = (db', o)
    ∧ table (R:=R) db' = table (R:=R) db
    ∧ db_tags db' = db_tags db
    ∧ association (R:=R) db'
      = match obj_tags o with
        | Some cur =>
            sync_association (association (R:=R) db) (pk (obj_row o)) cur
        | None => association (R:=R) db
        end
    ∧ only_touches R db db'.
Proof.
  intros Hk Hst Hrow.
  pose proof (flush_persistent db o Hst) as Hfl.
  pose proof (flush_persistent_table db o Hst) as Htab.
  pose proof (flush_only_touches db o) as Hot.
  assert (table (R:=R) (flush db o).1 = table (R:=R) db) as Htab'.
  { rewrite Htab. rewrite <- (list_fmap_id (table (R:=R) db)) at 2.
    apply list_fmap_ext. intros i r Hr. apply stamped_stored; [done..|].
    by eapply list_elem_of_lookup_2. }
  assert ((flush db o).2 = o) as Ho.
  { unfold flush. rewrite Hst.
    cbn [snd]. fold (stamped db o).
    set (db2 := match obj_tags o with Some _ => _ | None => _ end).
    assert (table (R:=R) db2 = table (R:=R) db) as ->.
    { unfold db2. destruct (obj_tags o);
        rewrite ?table_with_association, table_with_table.
      - rewrite <- (list_fmap_id (table (R:=R) db)) at 2.
        apply list_fmap_ext. intros i r Hr. apply stamped_stored; [done..|].
        by eapply list_elem_of_lookup_2.
      - rewrite <- (list_fmap_id (table (R:=R) db)) at 2.
        apply list_fmap_ext. intros i r Hr. apply stamped_stored; [done..|].
        by eapply list_elem_of_lookup_2. }
    rewrite filter_key_stored by done. simpl.
    destruct o; simpl in *; by subst. }
  destruct (flush db o) as [db' o'] eqn:Heq. simpl in *. subst o'.
  exists db'. destruct Hfl as (_ & _ & _ & _ & Hdbt & Hassoc). done.
Qed.
Lemma elem_of_linked_tags db id tg :
  tg ∈ linked_tags (R:=R) db id
  ↔ tg ∈ db_tags db ∧ (tag_id tg, id) ∈ association (R:=R) db.
Proof.
  unfold linked_tags. rewrite list_elem_of_bind. split.
  - intros ([t e] & Htg & Hte).
    destruct (decide (e = id)) as [->|]; [|by inversion Htg].
    apply list_elem_of_filter in Htg as [<- Htg]. done.
  - intros [Htg Hte]. exists (tag_id tg, id). split; [|done].
    rewrite decide_True by done. by apply list_elem_of_filter.
Qed.

Lemma sync_association_other a id cur t e :
  e ≠ id → (t, e) ∈ sync_association a id cur ↔ (t, e) ∈ a.
Proof.
  intros Hne. unfold sync_association.
  rewrite elem_of_app, !list_elem_of_filter. split.
  - intros [[_ ?]|[_ Hin]]; [done|].
    apply list_elem_of_fmap in Hin as (tg & [= -> ->] & _). done.
  - intros Hin. left. split; [by left|done].
Qed.

(** Writing back the tag collection as it was loaded changes no link. *)
Lemma sync_association_linked db id :
  links_sound R db →
  sync_association (association (R:=R) db) id (linked_tags (R:=R) db id)
  = association (R:=R) db.
Proof.
  intros Hlinks. unfold sync_association.
  rewrite (filter_none (λ p, p ∉ association (R:=R) db)).
  2:{ intros p Hp Hnin. apply Hnin.
      apply list_elem_of_fmap in Hp as (tg & -> & Htg).
      by apply elem_of_linked_tags in Htg as [_ ?]. }
  rewrite app_nil_r. apply filter_all.
  intros [t e] Hp. destruct (decide (e = id)) as [->|]; [right|by left].
  destruct (Hlinks _ _ Hp) as (tg & r & Htg & <- & _).
  apply list_elem_of_fmap. exists tg. split; [done|].
  by apply elem_of_linked_tags.
Qed.

Lemma validate_tags_same_tags db db' user_id tag_ids :
  db_tags db' = db_tags db →
  validate_tags db' user_id tag_ids = validate_tags db user_id tag_ids.
Proof.
  intros H. destruct tag_ids as [ids|]; [|done].
  by rewrite !validate_tags_form, (load_tags_same_tags db db').
Qed.

Lemma validate_tags_load db user_id ids :
  validate_tags db user_id (Some ids) = Ok () →
  _load_tags db user_id ids true = Ok (select_tags_in db user_id ids).
Proof.
  rewrite validate_tags_form, load_tags_form.
  by destruct (_ && _).
Qed.

(** The shared tail on a stored row: it succeeds when the tag pre-check
    passed, hands the row back with the tags now linked to it, and
    rewrites the links of that row alone. *)
Lemma finish_stored db o tag_ids :
  entity_sound R db → obj_state o = Persistent →
  obj_row o ∈ table (R:=R) db →
  validate_tags db (owner (obj_row o)) tag_ids = Ok () →
  ∃ db', finish (db, o) tag_ids = Ok (db', loaded db' (obj_row o))
    ∧ entity_sound R db' ∧ only_touches R db db'
    ∧ table (R:=R) db' = table (R:=R) db
    ∧ association (R:=R) db'
      = match tag_ids with
        | Some ids =>
            sync_association (association (R:=R) db) (pk (obj_row o))
              (select_tags_in db (owner (obj_row o)) ids)
        | None => association (R:=R) db
        end.
Proof.
  intros Hs Hst Hrow Hval. pose proof Hs as [Hk Hl].
  destruct tag_ids as [ids|].
  - apply validate_tags_load in Hval.
    set (tags := select_tags_in db (owner (obj_row o)) ids) in *.
    set (o1 := mkObj (obj_row o) Persistent (Some tags)).
    destruct (flush_stored db o1 Hk eq_refl Hrow)
      as (db' & Hfl & Htab & Hdbt & Hassoc & Hot).
    assert (entity_sound R db') as Hs'.
    { pose proof (flush_persistent_sound db o1 Hs
                    (stored_attached db o1 Hk eq_refl Hrow)) as H.
      rewrite Hfl in H. apply H.
      intros tg Htg. simpl in Htg.
      apply elem_of_select_tags_in in Htg as (? & ? & _). done. }
    exists db'. split; [|done].
    unfold finish. rewrite (set_entity_tags_persistent _ _ _ tags) by done.
    fold o1. rewrite Hfl. simpl.
    rewrite (refresh_stored db' o1); [done|by destruct Hs'|done|].
    simpl. by rewrite Htab.
  - exists db. split; [|split; [done|split; [apply only_touches_refl|done]]].
    unfold finish. simpl. rewrite (refresh_stored db o) by done.
    simpl. done.
Qed.
End finishing.

Section writing.
Context {R : Type} `{!Mapped R} `{!MappedLaws R}.
Implicit Types (o : Obj R) (db : DB).

Lemma select_tags_in_same_tags db db' user_id ids :
  db_tags db' = db_tags db →
  select_tags_in db' user_id ids = select_tags_in db user_id ids.
Proof. intros H. unfold select_tags_in. by rewrite H. Qed.

Lemma flush_persistent_row db o :
  obj_state o = Persistent →
  obj_row (flush db o).2
  = default (obj_row o)
      (head (filter (λ r, pk r = pk (obj_row o))
               (table (R:=R) (flush db o).1))).
Proof. intros Hst. unfold flush. by rewrite Hst. Qed.

(** Creating: flush of the new instance, then the shared tail. *)
Lemma create_stored db (data : R) tag_ids :
  entity_sound R db → validate_tags db (owner data) tag_ids = Ok () →
  let row := with_updated_at (db_now db)
               (with_pk (next_pk (table (R:=R) db)) data) in
  ∃ db',
    finish (flush db (add (mkObj data Transient None))) tag_ids
    = Ok (db', loaded db' row)
    ∧ entity_sound R db' ∧ only_touches R db db'
    ∧ table (R:=R) db' = table (R:=R) db ++ [row]
    ∧ pk row ∉ pk <$> table (R:=R) db
    ∧ owner row = owner data
    ∧ (∀ t e, e ≠ pk row →
         (t, e) ∈ association (R:=R) db' ↔ (t, e) ∈ association (R:=R) db)
    ∧ (∀ t, (t, pk row) ∈ association (R:=R) db'
            ↔ t ∈ tag_id <$> select_tags_in db (owner data)
                               (default [] tag_ids)).
Proof.
  intros Hs Hval row. pose proof Hs as [Hk Hl].
  change (add (mkObj data Transient None)) with (mkObj data Pending None).
  set (o0 := mkObj data Pending None).
  destruct (flush_pending db o0 eq_refl) as (row0 & Hfl & Hpk0 & Hown0 & Hrow0).
  change (obj_row o0) with data in Hrow0, Hown0.
  fold row in Hrow0. subst row0.
  destruct (flush_pending_sound db o0 Hs eq_refl)
    as (Hs1 & _ & _ & _ & Hfresh & Htab1); [by intros tg Htg; inversion Htg|].
  pose proof (flush_only_touches db o0) as Hot1.
  assert (association (R:=R) (flush db o0).1 = association (R:=R) db) as Ha1.
  { rewrite Hfl. cbn [fst]. rewrite association_with_association.
    simpl. apply app_nil_r. }
  rewrite Hfl in Hs1, Hfresh, Htab1, Hot1, Ha1. cbn [fst snd obj_row] in *.
  rewrite Hfl.
  set (db1 := with_association _ _) in *.
  set (o1 := mkObj row Persistent None).
  assert (db_tags db1 = db_tags db) as Hdbt1 by by destruct Hot1.
  destruct (finish_stored db1 o1 tag_ids Hs1 eq_refl) as
    (db' & Hfin & Hs' & Hot' & Htab' & Hassoc').
  { cbn [o1 obj_row]. rewrite Htab1. apply elem_of_app. right. by left. }
  { cbn [o1 obj_row]. rewrite Hown0.
    by rewrite (validate_tags_same_tags db db1). }
  cbn [o1 obj_row] in *.
  exists db'. split; [done|]. split; [done|].
  split; [by apply (only_touches_trans R db db1 db')|].
  split; [by rewrite Htab', Htab1|]. split; [done|]. split; [done|].
  rewrite Hassoc'. split.
  - intros t e Hne. destruct tag_ids as [ids|]; [|by rewrite Ha1].
    by rewrite sync_association_other, Ha1.
  - intros t. destruct tag_ids as [ids|].
    + rewrite elem_of_sync_association, Hown0.
      by rewrite (select_tags_in_same_tags db db1).
    + simpl. rewrite select_tags_in_nil, Ha1. split; [|by inversion 1].
      intros Hin. exfalso. apply Hfresh.
      destruct (Hl _ _ Hin) as (_ & r & _ & _ & Hr & <- & _).
      by apply list_elem_of_fmap_2.
Qed.

(** Updating: flush of the modified instance, then the shared tail. *)
Lemma update_stored db (r row' : R) tag_ids :
  tags_pk db → entity_sound R db → r ∈ table (R:=R) db →
  pk row' = pk r → owner row' = owner r →
  validate_tags db (owner r) tag_ids = Ok () →
  let row'' := if decide (row' = r) then r
               else with_updated_at (db_now db) row' in
  ∃ db',
    finish (flush db (mkObj row' Persistent
                        (Some (linked_tags (R:=R) db (pk r))))) tag_ids
    = Ok (db', loaded db' row'')
    ∧ entity_sound R db' ∧ only_touches R db db'
    ∧ table (R:=R) db'
      = (λ x, if decide (pk x = pk r) then row'' else x) <$> table (R:=R) db
    ∧ association (R:=R) db'
      = match tag_ids with
        | Some ids =>
            sync_association (association (R:=R) db) (pk r)
              (select_tags_in db (owner r) ids)
        | None => association (R:=R) db
        end.
Proof.
  intros Htpk Hs Hr Hpk Hown Hval row''. pose proof Hs as [Hk Hl].
  set (o := mkObj row' Persistent (Some (linked_tags (R:=R) db (pk r)))).
  assert (pk row'' = pk r) as Hpk''.
  { unfold row''. destruct (decide _); [done|].
    by rewrite pk_with_updated_at. }
  assert (owner row'' = owner r) as Hown''.
  { unfold row''. destruct (decide _); [done|].
    by rewrite owner_with_updated_at. }
  assert (attached db o) as Hatt.
  { split; [done|]. cbn [o obj_row]. rewrite Hpk.
    split; [by apply list_elem_of_fmap_2|].
    intros x Hx Hpkx. rewrite Hown. f_equal.
    by apply (NoDup_fmap_eq pk (table (R:=R) db)). }
  assert (tags_of_owner db o) as Hto.
  { intros tg Htg. cbn [o obj_tags obj_row default] in *. rewrite Hown.
    by apply (linked_tags_of_owner db (pk r) r tg). }
  destruct (flush_persistent_sound db o Hs Hatt Hto) as (Hs1 & _ & Htags1 & _).
  pose proof (flush_persistent db o eq_refl) as Hfl.
  pose proof (flush_persistent_table db o eq_refl) as Htab1.
  pose proof (flush_persistent_row db o eq_refl) as Hrow1.
  pose proof (flush_only_touches db o) as Hot1.
  assert (stamped db o <$> table (R:=R) db
          = (λ x, if decide (pk x = pk r) then row'' else x)
              <$> table (R:=R) db) as Hst.
  { apply list_fmap_ext. intros i x Hx. apply list_elem_of_lookup_2 in Hx.
    unfold stamped. cbn [o obj_row]. rewrite Hpk.
    destruct (decide (pk x = pk r)) as [Hpkx|]; [|done].
    assert (x = r) as -> by by apply (NoDup_fmap_eq pk (table (R:=R) db)).
    unfold row''. destruct (decide (r = row')) as [<-|Hne].
    - by rewrite decide_True.
    - by rewrite decide_False by congruence. }
  rewrite Hst in Htab1.
  destruct (flush db o) as [db1 o1] eqn:Heq. cbn [fst snd] in *.
  destruct Hfl as (Hst1 & _ & _ & _ & Hdbt1 & Ha1).
  cbn [o obj_tags obj_row] in Ha1, Htags1, Hrow1.
  rewrite Hpk, sync_association_linked in Ha1 by done.
  assert (row'' ∈ table (R:=R) db1) as Hin1.
  { rewrite Htab1. apply list_elem_of_fmap. exists r.
    by rewrite decide_True. }
  assert (obj_row o1 = row'') as Hrow''.
  { rewrite Hrow1, Hpk, <- Hpk''.
    rewrite (filter_key_stored db1 row''); [done|by destruct Hs1|done]. }
  destruct (finish_stored db1 o1 tag_ids Hs1 Hst1) as
    (db' & Hfin & Hs' & Hot' & Htab' & Hassoc').
  { by rewrite Hrow''. }
  { rewrite Hrow'', Hown''. by rewrite (validate_tags_same_tags db db1). }
  rewrite Hrow'' in *.
  exists db'. split; [done|]. split; [done|].
  split; [by apply (only_touches_trans R db db1 db')|].
  split; [by rewrite Htab', Htab1|].
  rewrite Hassoc', Ha1, Hpk'', Hown''.
  destruct tag_ids as [ids|]; [|done].
  by rewrite (select_tags_in_same_tags db db1).
Qed.
End writing.

Lemma only_touches_tasks db db' :
  only_touches TaskRow db db' → same_but_tasks db db'.
Proof.
  intros [Ht Hf].
  destruct (Hf NoteRow _ _) as [? ?], (Hf CollectionRow _ _) as [? ?].
  done.
Qed.

Lemma only_touches_notes db db' :
  only_touches NoteRow db db' → same_but_notes db db'.
Proof.
  intros [Ht Hf].
  destruct (Hf TaskRow _ _) as [? ?], (Hf CollectionRow _ _) as [? ?].
  done.
Qed.

Lemma only_touches_collections db db' :
  only_touches CollectionRow db db' → same_but_collections db db'.
Proof.
  intros [Ht Hf].
  destruct (Hf TaskRow _ _) as [? ?], (Hf NoteRow _ _) as [? ?].
  done.
Qed.

(** The tags linked to an entity whose links are those of the selected
    tags are the requested tags of the user. *)
Lemma linked_tags_requested (R : Type) `{!Mapped R} `{!MappedLaws R}
    db db' id user_id ids :
  tags_pk db → db_tags db' = db_tags db →
  (∀ t, (t, id) ∈ association (R:=R) db'
        ↔ t ∈ tag_id <$> select_tags_in db user_id ids) →
  ∀ tg, tg ∈ linked_tags (R:=R) db' id ↔ requested db user_id ids tg.
Proof.
  intros Hpk Hdbt Ha tg. rewrite elem_of_linked_tags, Hdbt, Ha.
  unfold requested. split.
  - intros [Htg Hin]. split; [done|].
    apply list_elem_of_fmap in Hin as (tg' & Hid & Hin).
    apply elem_of_select_tags_in in Hin as (Htg' & Hu & Hi).
    assert (tg' = tg) as ->; [|done].
    by apply (NoDup_fmap_eq tag_id (db_tags db)).
  - intros (Htg & Hu & Hi). split; [done|].
    apply list_elem_of_fmap. exists tg. split; [done|].
    by apply elem_of_select_tags_in.
Qed.

(** X13: creating a task whose collection check and tag pre-check pass
    succeeds, and in a store in good order it appends exactly one row, of
    a fresh id and of the creating user, leaves every other table and
    every link of the other tasks as they were, leaves the store in good
    order, and returns the task with exactly the requested tags of that
    user. *)
Theorem create_task_for_user_sound (db : DB) (user_id : Z)
    (task_create : TaskBase) :
  store_sound db →
  check_task_collection db user_id (mjoin (tb_collection_id task_create))
  = Ok () →
  validate_tags db user_id (mjoin (tb_tag_ids task_create)) = Ok () →
  ∃ db' task,
    create_task_for_user db user_id task_create = Ok (db', task)
    ∧ store_sound db'
    ∧ db_tasks db' = db_tasks db ++ [obj_row task]
    ∧ task_id (obj_row task) ∉ task_id <$> db_tasks db
    ∧ task_user_id (obj_row task) = user_id
    ∧ task_title (obj_row task) = tb_title task_create
    ∧ same_but_tasks db db'
    ∧ (∀ t e, e ≠ task_id (obj_row task) →
         (t, e) ∈ tag_task_association db' ↔ (t, e) ∈ tag_task_association db)
    ∧ ∀ tg, tg ∈ default [] (obj_tags task)
            ↔ requested db user_id
                (default [] (mjoin (tb_tag_ids task_create))) tg.
Proof.
  intros Hs Hcheck Hval. pose proof Hs as (Hpk & Ht & _).
  rewrite create_task_for_user_steps, Hcheck, Hval.
  destruct (create_stored db (task_data user_id task_create)
              (mjoin (tb_tag_ids task_create)) Ht Hval)
    as (db' & Hfin & Hs' & Hot & Htab & Hfresh & Hown & Hother & Hlinks).
  eexists db', _. split; [exact Hfin|].
  pose proof (only_touches_tasks _ _ Hot) as Hsame.
  split; [by apply (store_sound_task_write db db')|].
  split; [exact Htab|]. split; [exact Hfresh|]. split; [exact Hown|].
  split; [done|]. split; [done|]. split; [exact Hother|].
  apply (linked_tags_requested TaskRow db db'); [done|by destruct Hot|].
  exact Hlinks.
Qed.

(** X14: creating a note whose collection check and tag pre-check pass
    succeeds, and in a store in good order it appends exactly one row, of
    a fresh id and of the creating user, leaves every other table and
    every link of the other notes as they were, leaves the store in good
    order, and returns the note with exactly the requested tags of that
    user. *)
Theorem create_note_for_user_sound (db : DB) (user_id : Z)
    (note_create : NoteBase) :
  store_sound db →
  check_note_collection db user_id (mjoin (nb_collection_id note_create))
  = Ok () →
  validate_tags db user_id (mjoin (nb_tag_ids note_create)) = Ok () →
  ∃ db' note,
    create_note_for_user db user_id note_create = Ok (db', note)
    ∧ store_sound db'
    ∧ db_notes db' = db_notes db ++ [obj_row note]
    ∧ note_id (obj_row note) ∉ note_id <$> db_notes db
    ∧ note_user_id (obj_row note) = user_id
    ∧ note_title (obj_row note) = nb_title note_create
    ∧ same_but_notes db db'
    ∧ (∀ t e, e ≠ note_id (obj_row note) →
         (t, e) ∈ tag_note_association db' ↔ (t, e) ∈ tag_note_association db)
    ∧ ∀ tg, tg ∈ default [] (obj_tags note)
            ↔ requested db user_id
                (default [] (mjoin (nb_tag_ids note_create))) tg.
Proof.
  intros Hs Hcheck Hval. pose proof Hs as (Hpk & _ & Hn & _).
  rewrite create_note_for_user_steps, Hcheck, Hval.
  destruct (create_stored db (note_data user_id note_create)
              (mjoin (nb_tag_ids note_create)) Hn Hval)
    as (db' & Hfin & Hs' & Hot & Htab & Hfresh & Hown & Hother & Hlinks).
  eexists db', _. split; [exact Hfin|].
  pose proof (only_touches_notes _ _ Hot) as Hsame.
  split; [by apply (store_sound_note_write db db')|].
  split; [exact Htab|]. split; [exact Hfresh|]. split; [exact Hown|].
  split; [done|]. split; [done|]. split; [exact Hother|].
  apply (linked_tags_requested NoteRow db db'); [done|by destruct Hot|].
  exact Hlinks.
Qed.

Lemma lift_bind {A B : Type} (m : result A) (k : A → result B) :
  lift (m ≫= k) = lift m ≫= (λ a, lift (k a)).
Proof. by destruct m. Qed.

Lemma create_collection_for_user_steps db user_id collection_create :
  create_collection_for_user db user_id collection_create
  = (existing ←
       lift (get_collection_by_title_and_user db
               (cb_title collection_create) user_id);
     match existing with
     | Some _ =>
         Failed
           (HTTP 400 "Collection with this title already exists for the user")
     | None =>
         lift (validate_tags db user_id
                 (mjoin (cb_tag_ids collection_create)));;
         flushed ←
           create_collection db (collection_data user_id collection_create);
         lift (finish flushed (mjoin (cb_tag_ids collection_create)))
     end).
Proof.
  unfold create_collection_for_user, finish.
  destruct (lift (get_collection_by_title_and_user _ _ _)) as [[c|]|];
    [done| |done].
  cbn [mbind reply_bind].
  destruct (lift (validate_tags _ _ _)) as [[]|]; [|done].
  destruct (create_collection db _) as [[db1 o1]|]; [|done].
  cbn [mbind reply_bind].
  destruct (mjoin (cb_tag_ids collection_create)) as [ids|].
  - unfold set_collection_tags.
    destruct (set_entity_tags db1 o1 ids) as [[db2 o2]|]; [|done].
    simpl. destruct (refresh db2 o2) as [o3|]; [|done]. simpl.
    by destruct (refresh_tags db2 o3).
  - simpl. destruct (refresh db1 o1) as [o3|]; [|done]. simpl.
    by destruct (refresh_tags db1 o3).
Qed.

Lemma scalar_none {A : Type} (P : A → Prop) `{!∀ x, Decision (P x)}
    (l : list A) :
  scalar_one_or_none (filter P l) = Ok None → ∀ x, x ∈ l → ¬ P x.
Proof.
  intros Hsc x Hx HP.
  assert (x ∈ filter P l) as Hin by by apply list_elem_of_filter.
  destruct (filter P l) as [|y [|z rest]]; [inversion Hin|done..].
Qed.

Lemma collection_title_free db id user_id title :
  get_collection_by_title_and_user db title user_id = Ok None →
  ¬ collection_title_taken db id user_id title.
Proof.
  intros Hnone Htaken. apply Exists_exists in Htaken as (c & Hc & _ & Hu & Ht).
  by apply (scalar_none _ _ Hnone c Hc).
Qed.

(** X15: creating a collection under a title the user does not have
    yet, with a tag list that passes the pre-check, succeeds, the unique
    constraint on the title included; in a store in good order it
    appends exactly one row of a fresh id and of the creating user,
    leaves the other tables and the links of the other collections as
    they were, leaves the store in good order and the titles unique per
    user, and returns the collection with exactly the requested tags of
    that user. *)
Theorem create_collection_for_user_sound (db : DB) (user_id : Z)
    (collection_create : CollectionBase) :
  store_sound db →
  get_collection_by_title_and_user db (cb_title collection_create) user_id
  = Ok None →
  validate_tags db user_id (mjoin (cb_tag_ids collection_create)) = Ok () →
  ∃ db' collection,
    create_collection_for_user db user_id collection_create
    = Done (db', collection)
    ∧ store_sound db'
    ∧ (collection_titles_unique db → collection_titles_unique db')
    ∧ db_collections db' = db_collections db ++ [obj_row collection]
    ∧ collection_id (obj_row collection)
      ∉ collection_id <$> db_collections db
    ∧ collection_user_id (obj_row collection) = user_id
    ∧ collection_title (obj_row collection) = cb_title collection_create
    ∧ same_but_collections db db'
    ∧ (∀ t e, e ≠ collection_id (obj_row collection) →
         (t, e) ∈ tag_collection_association db'
         ↔ (t, e) ∈ tag_collection_association db)
    ∧ ∀ tg, tg ∈ default [] (obj_tags collection)
            ↔ requested db user_id
                (default [] (mjoin (cb_tag_ids collection_create))) tg.
Proof.
  intros Hs Hnew Hval. pose proof Hs as (Hpk & _ & _ & Hc).
  rewrite create_collection_for_user_steps, Hnew, Hval.
  destruct (create_stored db (collection_data user_id collection_create)
              (mjoin (cb_tag_ids collection_create)) Hc Hval)
    as (db' & Hfin & Hs' & Hot & Htab & Hfresh & Hown & Hother & Hlinks).
  eexists db', _. split.
  { unfold create_collection. cbn [lift mbind reply_bind].
    rewrite decide_False by by apply collection_title_free.
    cbn [mbind reply_bind]. by rewrite Hfin. }
  pose proof (only_touches_collections _ _ Hot) as Hsame.
  split; [by apply (store_sound_collection_write db db')|].
  split.
  { intros Hu c1 c2.
    change (table (R:=CollectionRow) db') with (db_collections db') in Htab.
    rewrite Htab, !elem_of_app, !list_elem_of_singleton.
    pose proof (scalar_none _ _ Hnew) as Hfree.
    intros [H1| ->] [H2| ->] Hsame_u Hsame_t; [by apply Hu| | |done].
    - exfalso. apply (Hfree c1 H1). split; [by rewrite Hsame_t|].
      by rewrite Hsame_u.
    - exfalso. apply (Hfree c2 H2). split; [by rewrite <- Hsame_t|].
      by rewrite <- Hsame_u. }
  split; [exact Htab|]. split; [exact Hfresh|]. split; [exact Hown|].
  split; [done|]. split; [done|]. split; [exact Hother|].
  apply (linked_tags_requested CollectionRow db db'); [done|by destruct Hot|].
  exact Hlinks.
Qed.

(** ** Updating *)

Lemma links_after_sync (R : Type) `{!Mapped R} `{!MappedLaws R}
    db db' id user_id (tag_ids : option (list Z)) :
  tags_pk db → db_tags db' = db_tags db →
  association (R:=R) db'
  = match tag_ids with
    | Some ids =>
        sync_association (association (R:=R) db) id
          (select_tags_in db user_id ids)
    | None => association (R:=R) db
    end →
  (∀ t e, e ≠ id →
     (t, e) ∈ association (R:=R) db' ↔ (t, e) ∈ association (R:=R) db)
  ∧ match tag_ids with
    | Some ids =>
        ∀ tg, tg ∈ linked_tags (R:=R) db' id ↔ requested db user_id ids tg
    | None => association (R:=R) db' = association (R:=R) db
    end.
Proof.
  intros Hpk Hdbt Ha. split.
  - intros t e Hne. rewrite Ha. destruct tag_ids; [|done].
    by apply sync_association_other.
  - destruct tag_ids as [ids|]; [|done].
    apply (linked_tags_requested R db db'); [done..|].
    intros t. rewrite Ha. apply elem_of_sync_association.
Qed.

Lemma scalar_unique_key {A : Type} (P : A → Prop)
    `{!∀ x, Decision (P x)} (key : A → Z) (l : list A) (k : Z) :
  NoDup (key <$> l) → (∀ x, P x → key x = k) →
  match scalar_one_or_none (filter P l) with
  | Ok (Some x) => x ∈ l ∧ P x
  | Ok None => ∀ x, x ∈ l → ¬ P x
  | Raise _ => False
  end.
Proof.
  intros Hnd HP.
  destruct (filter_unique_key P key l k Hnd HP) as [Hnil|[x Hx]].
  - rewrite Hnil. simpl. intros x Hx HPx.
    assert (x ∈ filter P l) as Hin by by apply list_elem_of_filter.
    rewrite Hnil in Hin. inversion Hin.
  - rewrite Hx. simpl.
    assert (x ∈ filter P l) as Hin by (rewrite Hx; by left).
    apply list_elem_of_filter in Hin as [? ?]. done.
Qed.

Lemma scalar_stored {A : Type} (P : A → Prop)
    `{!∀ x, Decision (P x)} (key : A → Z) (l : list A) (r : A) :
  NoDup (key <$> l) → (∀ x, P x → key x = key r) → r ∈ l → P r →
  scalar_one_or_none (filter P l) = Ok (Some r).
Proof.
  intros Hnd HP Hr HPr.
  pose proof (scalar_unique_key P key l (key r) Hnd HP) as Hsc.
  destruct (scalar_one_or_none (filter P l)) as [[x|]|]; [| |done].
  - destruct Hsc as [Hx HPx]. do 2 f_equal.
    apply (NoDup_fmap_eq key l); [done..|]. by apply HP.
  - by destruct (Hsc r Hr).
Qed.

Lemma get_user_task_by_id_stored db user_id r :
  keys_unique TaskRow db → r ∈ db_tasks db → task_user_id r = user_id →
  get_user_task_by_id db user_id (task_id r) = Ok (loaded db r).
Proof.
  intros Hk Hr Hu. unfold get_user_task_by_id, get_task_by_id_and_user.
  rewrite (scalar_stored _ task_id (db_tasks db) r); [done|done| |done..].
  by intros x [? _].
Qed.

Lemma get_user_note_by_id_stored db user_id r :
  keys_unique NoteRow db → r ∈ db_notes db → note_user_id r = user_id →
  get_user_note_by_id db user_id (note_id r) = Ok (loaded db r).
Proof.
  intros Hk Hr Hu. unfold get_user_note_by_id, get_note_by_id_and_user.
  rewrite (scalar_stored _ note_id (db_notes db) r); [done|done| |done..].
  by intros x [? _].
Qed.

Lemma get_user_collection_by_id_stored db user_id r :
  keys_unique CollectionRow db → r ∈ db_collections db →
  collection_user_id r = user_id →
  get_user_collection_by_id db user_id (collection_id r)
  = Done (loaded db r).
Proof.
  intros Hk Hr Hu.
  unfold get_user_collection_by_id,
    collections_repositories.get_collection_by_id_and_user.
  rewrite (scalar_stored _ collection_id (db_collections db) r);
    [done|done| |done..].
  by intros x [? _].
Qed.

Lemma task_setattr_keys l r :
  task_id (foldl task_setattr r l) = task_id r
  ∧ task_user_id (foldl task_setattr r l) = task_user_id r.
Proof.
  revert r. induction l as [|a l IH]; intros r; [done|].
  simpl. destruct (IH (task_setattr r a)) as [-> ->]. by destruct a.
Qed.

Lemma note_setattr_keys l r :
  note_id (foldl note_setattr r l) = note_id r
  ∧ note_user_id (foldl note_setattr r l) = note_user_id r.
Proof.
  revert r. induction l as [|a l IH]; intros r; [done|].
  simpl. destruct (IH (note_setattr r a)) as [-> ->]. by destruct a.
Qed.

Lemma collection_setattr_keys l r :
  collection_id (foldl collection_setattr r l) = collection_id r
  ∧ collection_user_id (foldl collection_setattr r l) = collection_user_id r.
Proof.
  revert r. induction l as [|a l IH]; intros r; [done|].
  simpl. destruct (IH (collection_setattr r a)) as [-> ->]. by destruct a.
Qed.

Lemma task_update_title r task_update :
  task_title (foldl task_setattr r (task_update_data task_update))
  = tb_title task_update.
Proof.
  destruct task_update as [t [d|] [s|] [p|] [c|] g]; reflexivity.
Qed.

Lemma note_update_title r note_update :
  note_title (foldl note_setattr r (note_update_data note_update))
  = nb_title note_update.
Proof. destruct note_update as [t [d|] [c|] g]; reflexivity. Qed.

Lemma collection_update_title r collection_update :
  collection_title
    (foldl collection_setattr r (collection_update_data collection_update))
  = cb_title collection_update.
Proof. destruct collection_update as [t [d|] [c|] g]; reflexivity. Qed.

(** X16: updating a stored task of the user, when the collection check
    and the tag pre-check pass, succeeds; in a store in good order it
    rewrites that one row in place, keeping its id and owner, leaves
    the other rows, the other tables and the links of the other tasks
    as they were and the store in good order; without [tag_ids] the
    links stay as they are, with [tag_ids] the task ends with exactly
    the requested tags of the user. *)
Theorem update_user_task_sound (db : DB) (user_id task_id' : Z)
    (task_update : TaskBase) (r : TaskRow) :
  store_sound db →
  r ∈ db_tasks db → task_id r = task_id' → task_user_id r = user_id →
  match tb_collection_id task_update with
  | Some cid => check_task_collection db user_id cid
  | None => Ok ()
  end = Ok () →
  validate_tags db user_id (mjoin (tb_tag_ids task_update)) = Ok () →
  ∃ db' task,
    update_user_task db user_id task_id' task_update = Ok (db', task)
    ∧ store_sound db'
    ∧ task_id (obj_row task) = task_id'
    ∧ task_user_id (obj_row task) = user_id
    ∧ task_title (obj_row task) = tb_title task_update
    ∧ db_tasks db'
      = (λ x, if decide (task_id x = task_id') then obj_row task else x)
          <$> db_tasks db
    ∧ same_but_tasks db db'
    ∧ (∀ t e, e ≠ task_id' →
         (t, e) ∈ tag_task_association db' ↔ (t, e) ∈ tag_task_association db)
    ∧ match mjoin (tb_tag_ids task_update) with
      | Some ids =>
          ∀ tg, tg ∈ default [] (obj_tags task) ↔ requested db user_id ids tg
      | None => tag_task_association db' = tag_task_association db
      end.
Proof.
  intros Hs Hr <- <- Hcheck Hval. pose proof Hs as (Hpk & Ht & _).
  rewrite update_user_task_steps.
  rewrite (get_user_task_by_id_stored db _ r) by (done || by destruct Ht).
  cbn [mbind result_bind]. rewrite Hcheck, Hval. cbn [mbind result_bind].
  set (row' := foldl task_setattr r (task_update_data task_update)).
  destruct (task_setattr_keys (task_update_data task_update) r)
    as [Hid Hown].
  destruct (update_stored db r row' (mjoin (tb_tag_ids task_update))
              Hpk Ht Hr Hid Hown Hval)
    as (db' & Hfin & Hs' & Hot & Htab & Hassoc).
  eexists db', _. split; [exact Hfin|].
  pose proof (only_touches_tasks _ _ Hot) as Hsame.
  destruct (links_after_sync TaskRow db db' (task_id r) (task_user_id r)
              (mjoin (tb_tag_ids task_update)) Hpk) as [Hother Hlinks];
    [by destruct Hot|exact Hassoc|].
  cbn [loaded obj_row obj_tags default].
  split; [by apply (store_sound_task_write db db')|].
  assert (∀ row'' : TaskRow,
            row'' = (if decide (row' = r) then r
                     else with_updated_at (db_now db) row') →
            task_id row'' = task_id r ∧ task_user_id row'' = task_user_id r
            ∧ task_title row'' = tb_title task_update) as Hrow.
  { intros row'' ->. destruct (decide (row' = r)) as [Heq|].
    - split; [done|]. split; [done|].
      rewrite <- Heq. apply task_update_title.
    - split; [exact Hid|]. split; [exact Hown|].
      exact (task_update_title r task_update). }
  destruct (Hrow _ eq_refl) as (Hid'' & ? & ?).
  split; [done|]. split; [done|]. split; [done|].
  split; [exact Htab|]. split; [done|]. split; [exact Hother|].
  destruct (mjoin (tb_tag_ids task_update)); [|done].
  intros tg. unfold id.
  match goal with
  | |- context [pk ?x] =>
      replace (pk x) with (task_id r) by (symmetry; exact Hid'')
  end.
  apply Hlinks.
Qed.

(** X17: updating a stored note of the user, when the collection check
    and the tag pre-check pass, succeeds; in a store in good order it
    rewrites that one row in place, keeping its id and owner, leaves
    the other rows, the other tables and the links of the other notes
    as they were and the store in good order; without [tag_ids] the
    links stay as they are, with [tag_ids] the note ends with exactly
    the requested tags of the user. *)
Theorem update_user_note_sound (db : DB) (user_id note_id' : Z)
    (note_update : NoteBase) (r : NoteRow) :
  store_sound db →
  r ∈ db_notes db → note_id r = note_id' → note_user_id r = user_id →
  match nb_collection_id note_update with
  | Some cid => check_note_collection db user_id cid
  | None => Ok ()
  end = Ok () →
  validate_tags db user_id (mjoin (nb_tag_ids note_update)) = Ok () →
  ∃ db' note,
    update_user_note db user_id note_id' note_update = Ok (db', note)
    ∧ store_sound db'
    ∧ note_id (obj_row note) = note_id'
    ∧ note_user_id (obj_row note) = user_id
    ∧ note_title (obj_row note) = nb_title note_update
    ∧ db_notes db'
      = (λ x, if decide (note_id x = note_id') then obj_row note else x)
          <$> db_notes db
    ∧ same_but_notes db db'
    ∧ (∀ t e, e ≠ note_id' →
         (t, e) ∈ tag_note_association db' ↔ (t, e) ∈ tag_note_association db)
    ∧ match mjoin (nb_tag_ids note_update) with
      | Some ids =>
          ∀ tg, tg ∈ default [] (obj_tags note) ↔ requested db user_id ids tg
      | None => tag_note_association db' = tag_note_association db
      end.
Proof.
  intros Hs Hr <- <- Hcheck Hval. pose proof Hs as (Hpk & _ & Hn & _).
  rewrite update_user_note_steps.
  rewrite (get_user_note_by_id_stored db _ r) by (done || by destruct Hn).
  cbn [mbind result_bind]. rewrite Hcheck, Hval. cbn [mbind result_bind].
  set (row' := foldl note_setattr r (note_update_data note_update)).
  destruct (note_setattr_keys (note_update_data note_update) r)
    as [Hid Hown].
  destruct (update_stored db r row' (mjoin (nb_tag_ids note_update))
              Hpk Hn Hr Hid Hown Hval)
    as (db' & Hfin & Hs' & Hot & Htab & Hassoc).
  eexists db', _. split; [exact Hfin|].
  pose proof (only_touches_notes _ _ Hot) as Hsame.
  destruct (links_after_sync NoteRow db db' (note_id r) (note_user_id r)
              (mjoin (nb_tag_ids note_update)) Hpk) as [Hother Hlinks];
    [by destruct Hot|exact Hassoc|].
  cbn [loaded obj_row obj_tags default].
  split; [by apply (store_sound_note_write db db')|].
  assert (∀ row'' : NoteRow,
            row'' = (if decide (row' = r) then r
                     else with_updated_at (db_now db) row') →
            note_id row'' = note_id r ∧ note_user_id row'' = note_user_id r
            ∧ note_title row'' = nb_title note_update) as Hrow.
  { intros row'' ->. destruct (decide (row' = r)) as [Heq|].
    - split; [done|]. split; [done|].
      rewrite <- Heq. apply note_update_title.
    - split; [exact Hid|]. split; [exact Hown|].
      exact (note_update_title r note_update). }
  destruct (Hrow _ eq_refl) as (Hid'' & ? & ?).
  split; [done|]. split; [done|]. split; [done|].
  split; [exact Htab|]. split; [done|]. split; [exact Hother|].
  destruct (mjoin (nb_tag_ids note_update)); [|done].
  intros tg. unfold id.
  match goal with
  | |- context [pk ?x] =>
      replace (pk x) with (note_id r) by (symmetry; exact Hid'')
  end.
  apply Hlinks.
Qed.

Lemma update_user_collection_steps db user_id cid collection_update :
  update_user_collection db user_id cid collection_update
  = (collection ← get_user_collection_by_id db user_id cid;
     (if decide (cb_title collection_update
                 ≠ collection_title (obj_row collection)) then
        dup ← lift (get_collection_by_title_and_user db
                      (cb_title collection_update) user_id);
        match dup with
        | Some _ =>
            Failed
              (HTTP 400
                 "Collection with this title already exists for the user")
        | None => Done ()
        end
      else Done ());;
     flushed ←
       update_collection db collection
         (collection_update_data collection_update);
     lift (finish flushed (mjoin (cb_tag_ids collection_update)))).
Proof.
  unfold update_user_collection, finish.
  destruct (get_user_collection_by_id db user_id cid) as [c|]; [|done].
  cbn [mbind reply_bind].
  destruct (if decide _ then _ else _) as [[]|]; [|done].
  destruct (update_collection db c _) as [[db1 o1]|]; [|done].
  cbn [mbind reply_bind].
  destruct (mjoin (cb_tag_ids collection_update)) as [ids|].
  - unfold set_collection_tags.
    destruct (set_entity_tags db1 o1 ids) as [[db2 o2]|]; [|done].
    simpl. destruct (refresh db2 o2) as [o3|]; [|done]. simpl.
    by destruct (refresh_tags db2 o3).
  - simpl. destruct (refresh db1 o1) as [o3|]; [|done]. simpl.
    by destruct (refresh_tags db1 o3).
Qed.

(** X18: updating a stored collection of the user, under its own title
    or a title the user does not have yet and with a tag list whose ids
    all resolve, succeeds, the unique constraint on the title included;
    in a store in good order with titles unique per user it rewrites
    that one row in place, keeping its id and owner, keeps the titles
    unique, and leaves the tasks, the notes, the tags and the links of
    the other collections as they were, whatever the new type is. *)
Theorem update_user_collection_sound (db : DB) (user_id cid : Z)
    (collection_update : CollectionBase) (r : CollectionRow) :
  store_sound db → collection_titles_unique db →
  r ∈ db_collections db → collection_id r = cid →
  collection_user_id r = user_id →
  (cb_title collection_update = collection_title r
   ∨ get_collection_by_title_and_user db (cb_title collection_update) user_id
     = Ok None) →
  validate_tags db user_id (mjoin (cb_tag_ids collection_update)) = Ok () →
  ∃ db' collection,
    update_user_collection db user_id cid collection_update
    = Done (db', collection)
    ∧ store_sound db' ∧ collection_titles_unique db'
    ∧ collection_id (obj_row collection) = cid
    ∧ collection_user_id (obj_row collection) = user_id
    ∧ collection_title (obj_row collection) = cb_title collection_update
    ∧ db_collections db'
      = (λ x, if decide (collection_id x = cid) then obj_row collection
              else x) <$> db_collections db
    ∧ same_but_collections db db'
    ∧ (∀ t e, e ≠ cid →
         (t, e) ∈ tag_collection_association db'
         ↔ (t, e) ∈ tag_collection_association db)
    ∧ match mjoin (cb_tag_ids collection_update) with
      | Some ids =>
          ∀ tg, tg ∈ default [] (obj_tags collection)
                ↔ requested db user_id ids tg
      | None => tag_collection_association db' = tag_collection_association db
      end.
Proof.
  intros Hs Hu Hr <- <- Htitle Hval. pose proof Hs as (Hpk & _ & _ & Hc).
  rewrite update_user_collection_steps.
  rewrite (get_user_collection_by_id_stored db _ r) by (done || by destruct Hc).
  cbn [mbind reply_bind loaded obj_row].
  assert ((if decide (cb_title collection_update ≠ collection_title r) then
             dup ← lift (get_collection_by_title_and_user db
                           (cb_title collection_update)
                           (collection_user_id r));
             match dup with
             | Some _ =>
                 Failed
                   (HTTP 400
                      "Collection with this title already exists for the user")
             | None => Done ()
             end
           else Done ()) = Done ()) as ->.
  { destruct (decide _) as [Hne|]; [|done].
    destruct Htitle as [Heq|Hnone]; [done|]. by rewrite Hnone. }
  cbn [mbind reply_bind].
  set (row' := foldl collection_setattr r
                 (collection_update_data collection_update)).
  destruct (collection_setattr_keys
              (collection_update_data collection_update) r) as [Hid Hown].
  pose proof (collection_update_title r collection_update) as Htitle'.
  fold row' in Hid, Hown, Htitle'.
  assert (¬ collection_title_taken db (collection_id r)
            (collection_user_id r) (cb_title collection_update)) as Hfree.
  { destruct Htitle as [Heq|Hnone]; [|by apply collection_title_free].
    intros Ht. apply Exists_exists in Ht as (c & Hcin & Hne & Hcu & Hct).
    apply Hne. f_equal. apply Hu; [done..|congruence]. }
  destruct (update_stored db r row' (mjoin (cb_tag_ids collection_update))
              Hpk Hc Hr Hid Hown Hval)
    as (db' & Hfin & Hs' & Hot & Htab & Hassoc).
  eexists db', _. split.
  { unfold update_collection. cbn [loaded obj_row obj_state obj_tags].
    fold row'. rewrite Hid, Hown, Htitle'.
    rewrite decide_False by done. cbn [mbind reply_bind]. by rewrite Hfin. }
  pose proof (only_touches_collections _ _ Hot) as Hsame.
  destruct (links_after_sync CollectionRow db db' (collection_id r)
              (collection_user_id r)
              (mjoin (cb_tag_ids collection_update)) Hpk) as [Hother Hlinks];
    [by destruct Hot|exact Hassoc|].
  cbn [loaded obj_row obj_tags default].
  split; [by apply (store_sound_collection_write db db')|].
  assert (∀ row'' : CollectionRow,
            row'' = (if decide (row' = r) then r
                     else with_updated_at (db_now db) row') →
            collection_id row'' = collection_id r
            ∧ collection_user_id row'' = collection_user_id r
            ∧ collection_title row'' = cb_title collection_update) as Hrow.
  { intros row'' ->. destruct (decide (row' = r)) as [Heq|].
    - split; [done|]. split; [done|]. by rewrite <- Heq.
    - split; [exact Hid|]. split; [exact Hown|]. exact Htitle'. }
  destruct (Hrow _ eq_refl) as (Hid'' & Hown'' & Htitle'').
  change (table (R:=CollectionRow) db') with (db_collections db') in Htab.
  change (table (R:=CollectionRow) db) with (db_collections db) in Htab.
  change (pk (R:=CollectionRow)) with collection_id in Htab.
  split.
  { assert (∀ c, c ∈ db_collections db' →
              c = (if decide (row' = r) then r
                   else with_updated_at (db_now db) row')
              ∨ (c ∈ db_collections db ∧ collection_id c ≠ collection_id r))
      as Hcases.
    { intros c. rewrite Htab, list_elem_of_fmap. intros (x & -> & Hx).
      destruct (decide (collection_id x = collection_id r));
        [by left|by right]. }
    intros c1 c2 H1 H2 Hsu Hst.
    destruct (Hcases c1 H1) as [->|[H1' Hn1]],
             (Hcases c2 H2) as [->|[H2' Hn2]]; [done| | |by apply Hu].
    - exfalso. apply Hfree. apply Exists_exists. exists c2.
      split; [done|]. split; [done|]. split; congruence.
    - exfalso. apply Hfree. apply Exists_exists. exists c1.
      split; [done|]. split; [done|]. split; congruence. }
  split; [done|]. split; [done|]. split; [done|].
  split; [exact Htab|]. split; [done|]. split; [exact Hother|].
  destruct (mjoin (cb_tag_ids collection_update)); [|done].
  intros tg. unfold id.
  match goal with
  | |- context [pk ?x] =>
      replace (pk x) with (collection_id r) by (symmetry; exact Hid'')
  end.
  apply Hlinks.
Qed.

(** ** The reconcilers and the store *)

Lemma set_entity_tags_store (R : Type) `{!Mapped R} `{!MappedLaws R}
    db (o : Obj R) ids db' o' :
  entity_sound R db → attached db o →
  set_entity_tags db o ids = Ok (db', o') →
  entity_sound R db' ∧ attached db' o' ∧ only_touches R db db'
  ∧ tags_of_owner db' o'.
Proof.
  intros Hs Hatt Hset.
  destruct (set_entity_tags_sound db o ids db' o' Hs Hatt Hset)
    as (Hs' & Hatt' & Hot & _ & Hown & tags & Hl & Htags).
  split; [done|]. split; [done|]. split; [done|].
  intros tg. rewrite Htags, Hown. simpl. intros Htg.
  destruct (load_tags_of_owner _ _ _ _ _ tg Hl Htg) as (? & ? & _).
  destruct Hot as [-> _]. done.
Qed.

(** X19: on an instance attached to a store in good order, each
    reconciler that succeeds leaves the store in good order (unique
    keys, every link between a stored tag and a stored entity of the
    same owner), leaves the tags and the tables and links of the other
    two kinds as they were, and leaves the instance attached and
    carrying stored tags of its owner only. *)
Theorem set_tags_keep_store_sound (db : DB) :
  store_sound db →
  (∀ task ids db' task',
     attached db task → set_task_tags db task ids = Ok (db', task') →
     store_sound db' ∧ same_but_tasks db db'
     ∧ attached db' task' ∧ tags_of_owner db' task')
  ∧ (∀ note ids db' note',
       attached db note → set_note_tags db note ids = Ok (db', note') →
       store_sound db' ∧ same_but_notes db db'
       ∧ attached db' note' ∧ tags_of_owner db' note')
  ∧ (∀ collection ids db' collection',
       attached db collection →
       set_collection_tags db collection ids = Ok (db', collection') →
       store_sound db' ∧ same_but_collections db db'
       ∧ attached db' collection' ∧ tags_of_owner db' collection').
Proof.
  intros Hs. pose proof Hs as (Hpk & Ht & Hn & Hc).
  split; [|split].
  - intros o ids db' o' Hatt Hset.
    destruct (set_entity_tags_store TaskRow db o ids db' o' Ht Hatt Hset)
      as (Hs' & Hatt' & Hot & Hto).
    split; [by apply (store_sound_task_write db db')|].
    split; [by apply only_touches_tasks|]. done.
  - intros o ids db' o' Hatt Hset.
    destruct (set_entity_tags_store NoteRow db o ids db' o' Hn Hatt Hset)
      as (Hs' & Hatt' & Hot & Hto).
    split; [by apply (store_sound_note_write db db')|].
    split; [by apply only_touches_notes|]. done.
  - intros o ids db' o' Hatt Hset.
    destruct (set_entity_tags_store CollectionRow db o ids db' o' Hc Hatt Hset)
      as (Hs' & Hatt' & Hot & Hto).
    split; [by apply (store_sound_collection_write db db')|].
    split; [by apply only_touches_collections|]. done.
Qed.

(** ** Fetching one entity *)

Lemma get_user_task_by_id_cases db user_id id :
  keys_unique TaskRow db →
  match get_user_task_by_id db user_id id with
  | Ok task =>
      obj_row task ∈ db_tasks db ∧ task_id (obj_row task) = id
      ∧ task_user_id (obj_row task) = user_id
      ∧ task = loaded db (obj_row task)
  | Raise e =>
      e = HTTPException 404 TaskNotFound
      ∧ ∀ r, r ∈ db_tasks db → task_id r = id → task_user_id r ≠ user_id
  end.
Proof.
  intros Hk. unfold get_user_task_by_id, get_task_by_id_and_user.
  pose proof (scalar_unique_key
                (λ r, task_id r = id ∧ task_user_id r = user_id)
                task_id (db_tasks db) id Hk) as Hsc.
  destruct (scalar_one_or_none _) as [[x|]|]; simpl.
  - destruct Hsc as (? & ? & ?); [by intros ? [? _]|]. done.
  - split; [done|]. intros r Hr Hid Hu.
    apply (Hsc ltac:(by intros ? [? _]) r Hr). done.
  - exfalso. apply Hsc. by intros ? [? _].
Qed.

Lemma get_user_note_by_id_cases db user_id id :
  keys_unique NoteRow db →
  match get_user_note_by_id db user_id id with
  | Ok note =>
      obj_row note ∈ db_notes db ∧ note_id (obj_row note) = id
      ∧ note_user_id (obj_row note) = user_id
      ∧ note = loaded db (obj_row note)
  | Raise e =>
      e = HTTPException 404 NoteNotFound
      ∧ ∀ r, r ∈ db_notes db → note_id r = id → note_user_id r ≠ user_id
  end.
Proof.
  intros Hk. unfold get_user_note_by_id, get_note_by_id_and_user.
  pose proof (scalar_unique_key
                (λ r, note_id r = id ∧ note_user_id r = user_id)
                note_id (db_notes db) id Hk) as Hsc.
  destruct (scalar_one_or_none _) as [[x|]|]; simpl.
  - destruct Hsc as (? & ? & ?); [by intros ? [? _]|]. done.
  - split; [done|]. intros r Hr Hid Hu.
    apply (Hsc ltac:(by intros ? [? _]) r Hr). done.
  - exfalso. apply Hsc. by intros ? [? _].
Qed.

Lemma get_user_collection_by_id_cases db user_id id :
  keys_unique CollectionRow db →
  match get_user_collection_by_id db user_id id with
  | Done collection =>
      obj_row collection ∈ db_collections db
      ∧ collection_id (obj_row collection) = id
      ∧ collection_user_id (obj_row collection) = user_id
      ∧ collection = loaded db (obj_row collection)
  | Failed f =>
      f = HTTP 404 "Collection not found"
      ∧ ∀ r, r ∈ db_collections db → collection_id r = id →
             collection_user_id r ≠ user_id
  end.
Proof.
  intros Hk. unfold get_user_collection_by_id,
    collections_repositories.get_collection_by_id_and_user.
  pose proof (scalar_unique_key
                (λ r, collection_id r = id ∧ collection_user_id r = user_id)
                collection_id (db_collections db) id Hk) as Hsc.
  destruct (scalar_one_or_none _) as [[x|]|]; simpl.
  - destruct Hsc as (? & ? & ?); [by intros ? [? _]|]. done.
  - split; [done|]. intros r Hr Hid Hu.
    apply (Hsc ltac:(by intros ? [? _]) r Hr). done.
  - exfalso. apply Hsc. by intros ? [? _].
Qed.

Lemma get_user_tag_by_id_cases db user_id id :
  tags_pk db →
  match get_user_tag_by_id db user_id id with
  | Done tag =>
      tag ∈ db_tags db ∧ tag_id tag = id ∧ tag_user_id tag = user_id
  | Failed f =>
      f = HTTP 404 "Tag not found"
      ∧ ∀ r, r ∈ db_tags db → tag_id r = id → tag_user_id r ≠ user_id
  end.
Proof.
  intros Hk. unfold get_user_tag_by_id, get_tag_by_id_and_user.
  pose proof (scalar_unique_key
                (λ r, tag_id r = id ∧ tag_user_id r = user_id)
                tag_id (db_tags db) id Hk) as Hsc.
  destruct (scalar_one_or_none _) as [[x|]|]; simpl.
  - destruct Hsc as (? & ? & ?); [by intros ? [? _]|]. done.
  - split; [done|]. intros r Hr Hid Hu.
    apply (Hsc ltac:(by intros ? [? _]) r Hr). done.
  - exfalso. apply Hsc. by intros ? [? _].
Qed.

(** X20: while keys are unique, fetching by id never meets two rows;
    it hands out a stored row of that id and of the asking user, with
    the tags linked to it, or answers 404, and it answers 404 exactly
    when no row of that id belongs to the user, whoever else may own
    one. *)
Theorem get_by_id_owned_or_404 (db : DB) (user_id id : Z) :
  store_sound db →
  match get_user_task_by_id db user_id id with
  | Ok task =>
      obj_row task ∈ db_tasks db ∧ task_id (obj_row task) = id
      ∧ task_user_id (obj_row task) = user_id
      ∧ task = loaded db (obj_row task)
  | Raise e =>
      e = HTTPException 404 TaskNotFound
      ∧ ∀ r, r ∈ db_tasks db → task_id r = id → task_user_id r ≠ user_id
  end
  ∧ match get_user_note_by_id db user_id id with
    | Ok note =>
        obj_row note ∈ db_notes db ∧ note_id (obj_row note) = id
        ∧ note_user_id (obj_row note) = user_id
        ∧ note = loaded db (obj_row note)
    | Raise e =>
        e = HTTPException 404 NoteNotFound
        ∧ ∀ r, r ∈ db_notes db → note_id r = id → note_user_id r ≠ user_id
    end
  ∧ match get_user_collection_by_id db user_id id with
    | Done collection =>
        obj_row collection ∈ db_collections db
        ∧ collection_id (obj_row collection) = id
        ∧ collection_user_id (obj_row collection) = user_id
        ∧ collection = loaded db (obj_row collection)
    | Failed f =>
        f = HTTP 404 "Collection not found"
        ∧ ∀ r, r ∈ db_collections db → collection_id r = id →
               collection_user_id r ≠ user_id
    end
  ∧ match get_user_tag_by_id db user_id id with
    | Done tag =>
        tag ∈ db_tags db ∧ tag_id tag = id ∧ tag_user_id tag = user_id
    | Failed f =>
        f = HTTP 404 "Tag not found"
        ∧ ∀ r, r ∈ db_tags db → tag_id r = id → tag_user_id r ≠ user_id
    end.
Proof.
  intros (Hpk & [Ht _] & [Hn _] & [Hc _]).
  split; [by apply get_user_task_by_id_cases|].
  split; [by apply get_user_note_by_id_cases|].
  split; [by apply get_user_collection_by_id_cases|].
  by apply get_user_tag_by_id_cases.
Qed.

(** ** Deleting *)

Section deleting.
Context {R : Type} `{!Mapped R} `{!MappedLaws R}.
Implicit Types (o : Obj R) (db : DB).

Lemma delete_row_table db id :
  table (R:=R) (delete_row (R:=R) db id)
  = filter (λ r, pk r ≠ id) (table (R:=R) db).
Proof.
  unfold delete_row. by rewrite table_with_table, table_with_association.
Qed.

Lemma delete_row_association db id :
  association (R:=R) (delete_row (R:=R) db id)
  = filter (λ '(t, e), e ≠ id) (association (R:=R) db).
Proof.
  unfold delete_row.
  by rewrite association_with_table, association_with_association.
Qed.

Lemma delete_row_only_touches db id :
  only_touches R db (delete_row (R:=R) db id).
Proof.
  unfold delete_row. split.
  - by rewrite db_tags_with_table, db_tags_with_association.
  - intros R' M' S.
    by rewrite table_with_table_other, table_with_association_other,
         association_with_table_other, association_with_association_other.
Qed.

Lemma delete_row_sound db id :
  entity_sound R db → entity_sound R (delete_row (R:=R) db id).
Proof.
  intros [Hk Hl]. split.
  - unfold keys_unique. rewrite delete_row_table.
    eapply sublist_NoDup; [exact Hk|]. apply fmap_sublist, sublist_filter.
  - intros t e. rewrite delete_row_association, delete_row_table.
    destruct (delete_row_only_touches db id) as [-> _].
    rewrite list_elem_of_filter. intros [Hne Hte].
    destruct (Hl _ _ Hte) as (tg & r & ? & ? & ? & Hpk & ?).
    exists tg, r. repeat split; try done.
    apply list_elem_of_filter. split; [congruence|done].
Qed.

(** Deleting a list of rows, one after the other. *)
Lemma delete_rows db ids :
  table (R:=R) (foldl (delete_row (R:=R)) db ids)
  = filter (λ r, pk r ∉ ids) (table (R:=R) db)
  ∧ association (R:=R) (foldl (delete_row (R:=R)) db ids)
    = filter (λ '(t, e), e ∉ ids) (association (R:=R) db)
  ∧ only_touches R db (foldl (delete_row (R:=R)) db ids)
  ∧ (entity_sound R db → entity_sound R (foldl (delete_row (R:=R)) db ids)).
Proof.
  revert db. induction ids as [|i ids IH]; intros db; simpl.
  - split; [|split; [|split; [apply only_touches_refl|done]]].
    + symmetry. apply filter_all. intros r _ Hin. inversion Hin.
    + symmetry. apply filter_all. intros [t e] _ Hin. inversion Hin.
  - destruct (IH (delete_row (R:=R) db i)) as (Ht & Ha & Hot & Hs).
    rewrite Ht, Ha, delete_row_table, delete_row_association.
    split; [|split; [|split]].
    + rewrite list_filter_filter. apply list_filter_iff.
      intros r. rewrite not_elem_of_cons. tauto.
    + rewrite list_filter_filter. apply list_filter_iff.
      intros [t e]. rewrite not_elem_of_cons. tauto.
    + eapply only_touches_trans; [apply delete_row_only_touches|exact Hot].
    + intros Hsd. by apply Hs, delete_row_sound.
Qed.
End deleting.

(** X21: deleting a task or a note answers 404 when the user has no
    row of that id and changes nothing; otherwise, in a store in good
    order, it removes that row and the links of that row, nothing else,
    and leaves the store in good order. *)
Theorem delete_user_task_note_sound (db : DB) (user_id id : Z) :
  store_sound db →
  match delete_user_task db user_id id with
  | Ok db' =>
      (∃ r, r ∈ db_tasks db ∧ task_id r = id ∧ task_user_id r = user_id)
      ∧ store_sound db'
      ∧ db_tasks db' = filter (λ r, task_id r ≠ id) (db_tasks db)
      ∧ tag_task_association db'
        = filter (λ '(t, e), e ≠ id) (tag_task_association db)
      ∧ same_but_tasks db db'
  | Raise e =>
      e = HTTPException 404 TaskNotFound
      ∧ ∀ r, r ∈ db_tasks db → task_id r = id → task_user_id r ≠ user_id
  end
  ∧ match delete_user_note db user_id id with
    | Ok db' =>
        (∃ r, r ∈ db_notes db ∧ note_id r = id ∧ note_user_id r = user_id)
        ∧ store_sound db'
        ∧ db_notes db' = filter (λ r, note_id r ≠ id) (db_notes db)
        ∧ tag_note_association db'
          = filter (λ '(t, e), e ≠ id) (tag_note_association db)
        ∧ same_but_notes db db'
    | Raise e =>
        e = HTTPException 404 NoteNotFound
        ∧ ∀ r, r ∈ db_notes db → note_id r = id → note_user_id r ≠ user_id
    end.
Proof.
  intros Hs. pose proof Hs as (Hpk & Ht & Hn & Hc). split.
  - unfold delete_user_task.
    pose proof (get_user_task_by_id_cases db user_id id (proj1 Ht)) as Hget.
    destruct (get_user_task_by_id db user_id id) as [task|e]; [|done].
    destruct Hget as (Hr & Hid & Hu & ->).
    cbn [mbind result_bind]. unfold delete_task, delete.
    cbn [loaded obj_state obj_row]. change (pk (obj_row task)) with
      (task_id (obj_row task)). rewrite Hid.
    split; [by exists (obj_row task)|].
    pose proof (delete_row_only_touches (R:=TaskRow) db id) as Hot.
    split.
    { apply (store_sound_task_write db); [done..|].
      by apply delete_row_sound. }
    split; [exact (delete_row_table (R:=TaskRow) db id)|].
    split; [exact (delete_row_association (R:=TaskRow) db id)|].
    by apply only_touches_tasks.
  - unfold delete_user_note.
    pose proof (get_user_note_by_id_cases db user_id id (proj1 Hn)) as Hget.
    destruct (get_user_note_by_id db user_id id) as [note|e]; [|done].
    destruct Hget as (Hr & Hid & Hu & ->).
    cbn [mbind result_bind]. unfold delete_note, delete.
    cbn [loaded obj_state obj_row]. change (pk (obj_row note)) with
      (note_id (obj_row note)). rewrite Hid.
    split; [by exists (obj_row note)|].
    pose proof (delete_row_only_touches (R:=NoteRow) db id) as Hot.
    split.
    { apply (store_sound_note_write db); [done..|].
      by apply delete_row_sound. }
    split; [exact (delete_row_table (R:=NoteRow) db id)|].
    split; [exact (delete_row_association (R:=NoteRow) db id)|].
    by apply only_touches_notes.
Qed.

Lemma filter_iff_in {A : Type} (P Q : A → Prop)
    `{!∀ x, Decision (P x)} `{!∀ x, Decision (Q x)} (l : list A) :
  (∀ x, x ∈ l → P x ↔ Q x) → filter P l = filter Q l.
Proof.
  induction l as [|a l IH]; intros Hext; [done|].
  rewrite !filter_cons.
  rewrite IH by (intros x Hx; apply Hext; by right).
  destruct (decide (P a)) as [Hp|Hp], (decide (Q a)) as [Hq|Hq]; try done.
  - exfalso. apply Hq. apply Hext; [by left|done].
  - exfalso. apply Hp. apply Hext; [by left|done].
Qed.

Section cascade.
Context {R : Type} `{!Mapped R} `{!MappedLaws R}.
Implicit Types (db : DB).

(** Deleting by key the rows a condition selects leaves the rows the
    condition does not select. *)
Lemma delete_selected (P : R → Prop) `{!∀ x, Decision (P x)} db :
  keys_unique R db →
  filter (λ r, pk r ∉ pk <$> filter P (table (R:=R) db)) (table (R:=R) db)
  = filter (λ r, ¬ P r) (table (R:=R) db).
Proof.
  intros Hk. apply filter_iff_in. intros r Hr. split.
  - intros Hnin HP. apply Hnin. apply list_elem_of_fmap_2.
    by apply list_elem_of_filter.
  - intros HnP Hin. apply HnP.
    apply list_elem_of_fmap in Hin as (r' & Hpk & Hr').
    apply list_elem_of_filter in Hr' as [HP Hr'].
    assert (r = r') as ->; [|done].
    by apply (NoDup_fmap_eq pk (table (R:=R) db)).
Qed.

Lemma delete_rows_links db (ids : list Z) db' :
  links_sound R db →
  table (R:=R) db' = filter (λ r, pk r ∉ ids) (table (R:=R) db) →
  association (R:=R) db'
  = filter (λ '(t, e), e ∉ ids) (association (R:=R) db) →
  ∀ t e, (t, e) ∈ association (R:=R) db'
         ↔ (t, e) ∈ association (R:=R) db ∧ e ∈ pk <$> table (R:=R) db'.
Proof.
  intros Hl Ht Ha t e. rewrite Ha, Ht, list_elem_of_filter. split.
  - intros [Hnin Hte]. split; [done|].
    destruct (Hl _ _ Hte) as (_ & r & _ & _ & Hr & <- & _).
    apply list_elem_of_fmap_2. by apply list_elem_of_filter.
  - intros [Hte Hin]. split; [|done].
    apply list_elem_of_fmap in Hin as (r & -> & Hr).
    by apply list_elem_of_filter in Hr as [? _].
Qed.
End cascade.

(** X22: deleting a collection answers 404 when the user has none of
    that id; otherwise, in a store in good order, it removes the
    collection and its links, every task and every note filed in it and
    their links, leaves everything else as it was, and leaves the store
    in good order. *)
Theorem delete_user_collection_cascades (db : DB) (user_id cid : Z) :
  store_sound db →
  match delete_user_collection db user_id cid with
  | Done db' =>
      (∃ r, r ∈ db_collections db ∧ collection_id r = cid
            ∧ collection_user_id r = user_id)
      ∧ store_sound db'
      ∧ db_collections db'
        = filter (λ r, collection_id r ≠ cid) (db_collections db)
      ∧ db_tasks db'
        = filter (λ r, task_collection_id r ≠ Some cid) (db_tasks db)
      ∧ db_notes db'
        = filter (λ r, note_collection_id r ≠ Some cid) (db_notes db)
      ∧ db_tags db' = db_tags db
      ∧ tag_collection_association db'
        = filter (λ '(t, e), e ≠ cid) (tag_collection_association db)
      ∧ (∀ t e, (t, e) ∈ tag_task_association db'
                ↔ (t, e) ∈ tag_task_association db
                  ∧ e ∈ task_id <$> db_tasks db')
      ∧ (∀ t e, (t, e) ∈ tag_note_association db'
                ↔ (t, e) ∈ tag_note_association db
                  ∧ e ∈ note_id <$> db_notes db')
  | Failed f =>
      f = HTTP 404 "Collection not found"
      ∧ ∀ r, r ∈ db_collections db → collection_id r = cid →
             collection_user_id r ≠ user_id
  end.
Proof.
  intros Hs. pose proof Hs as (Hpk & Ht & Hn & Hc).
  unfold delete_user_collection.
  pose proof (get_user_collection_by_id_cases db user_id cid (proj1 Hc))
    as Hget.
  destruct (get_user_collection_by_id db user_id cid) as [c|f]; [|done].
  destruct Hget as (Hr & Hid & Hu & ->).
  cbn [mbind reply_bind]. unfold delete_collection.
  cbn [loaded obj_state obj_row lift]. rewrite Hid.
  split; [by exists (obj_row c)|].
  set (ids_t := task_id <$> filter (λ r, task_collection_id r = Some cid)
                              (db_tasks db)).
  set (ids_n := note_id <$> filter (λ r, note_collection_id r = Some cid)
                              (db_notes db)).
  destruct (delete_rows (R:=TaskRow) db ids_t) as (Ht1 & Ha1 & Hot1 & Hs1).
  set (db1 := foldl (delete_row (R:=TaskRow)) db ids_t) in *.
  pose proof (only_touches_tasks _ _ Hot1) as (Hg1 & Hn1 & Hc1 & Han1 & Hac1).
  assert (store_sound db1) as Hsd1
    by (apply (store_sound_task_write db); [done..|by apply Hs1]).
  destruct (delete_rows (R:=NoteRow) db1 ids_n) as (Ht2 & Ha2 & Hot2 & Hs2).
  set (db2 := foldl (delete_row (R:=NoteRow)) db1 ids_n) in *.
  pose proof (only_touches_notes _ _ Hot2) as (Hg2 & Ht2' & Hc2 & Hat2 & Hac2).
  pose proof Hsd1 as (_ & _ & Hn1s & _).
  assert (store_sound db2) as Hsd2
    by (apply (store_sound_note_write db1); [done..|by apply Hs2]).
  pose proof (delete_row_only_touches (R:=CollectionRow) db2 cid) as Hot3.
  set (db3 := delete_row (R:=CollectionRow) db2 cid) in *.
  pose proof (only_touches_collections _ _ Hot3)
    as (Hg3 & Ht3 & Hn3 & Hat3 & Han3).
  pose proof Hsd2 as (_ & _ & _ & Hc2s).
  assert (db_tasks db3
          = filter (λ r, task_id r ∉ ids_t) (db_tasks db)) as Htasks
    by (rewrite Ht3, Ht2'; exact Ht1).
  assert (db_notes db3
          = filter (λ r, note_id r ∉ ids_n) (db_notes db)) as Hnotes.
  { rewrite Hn3. etransitivity; [exact Ht2|].
    change (table (R:=NoteRow) db1) with (db_notes db1). by rewrite Hn1. }
  split.
  { apply (store_sound_collection_write db2); [done..|].
    by apply delete_row_sound. }
  split.
  { etransitivity; [exact (delete_row_table (R:=CollectionRow) db2 cid)|].
    change (table (R:=CollectionRow) db2) with (db_collections db2).
    by rewrite Hc2, Hc1. }
  split.
  { rewrite Htasks.
    exact (delete_selected (R:=TaskRow)
             (λ r, task_collection_id r = Some cid) db (proj1 Ht)). }
  split.
  { rewrite Hnotes.
    exact (delete_selected (R:=NoteRow)
             (λ r, note_collection_id r = Some cid) db (proj1 Hn)). }
  split; [by rewrite Hg3, Hg2, Hg1|].
  split.
  { etransitivity;
      [exact (delete_row_association (R:=CollectionRow) db2 cid)|].
    change (association (R:=CollectionRow) db2)
      with (tag_collection_association db2).
    by rewrite Hac2, Hac1. }
  assert (tag_task_association db3
          = filter (λ '(t, e), e ∉ ids_t) (tag_task_association db)) as Hat
    by (rewrite Hat3, Hat2; exact Ha1).
  assert (tag_note_association db3
          = filter (λ '(t, e), e ∉ ids_n) (tag_note_association db)) as Han.
  { rewrite Han3. etransitivity; [exact Ha2|].
    change (association (R:=NoteRow) db1) with (tag_note_association db1).
    by rewrite Han1. }
  split.
  - exact (delete_rows_links (R:=TaskRow) db ids_t db3 (proj2 Ht) Htasks Hat).
  - exact (delete_rows_links (R:=NoteRow) db ids_n db3 (proj2 Hn) Hnotes Han).
Qed.

(** ** Tags *)

Lemma scalar_unique {A : Type} (P : A → Prop) `{!∀ x, Decision (P x)}
    (l : list A) :
  NoDup l → (∀ x y, x ∈ l → y ∈ l → P x → P y → x = y) →
  match scalar_one_or_none (filter P l) with
  | Ok (Some x) => x ∈ l ∧ P x
  | Ok None => ∀ x, x ∈ l → ¬ P x
  | Raise _ => False
  end.
Proof.
  intros Hnd Hu.
  pose proof (NoDup_filter P l Hnd) as Hnd'.
  assert (∀ x, x ∈ filter P l → x ∈ l ∧ P x) as Hin.
  { intros x Hx. by apply list_elem_of_filter in Hx as [? ?]. }
  destruct (filter P l) as [|x [|y rest]] eqn:Hf; simpl.
  - intros x Hx HP.
    assert (x ∈ filter P l) as Hx' by by apply list_elem_of_filter.
    rewrite Hf in Hx'. inversion Hx'.
  - apply Hin. by left.
  - destruct (Hin x) as [? ?]; [by left|].
    destruct (Hin y) as [? ?]; [right; by left|].
    apply NoDup_cons in Hnd' as [Hx _]. apply Hx.
    rewrite (Hu x y) by done. by left.
Qed.

Lemma next_tag_id_fresh db : next_tag_id db ∉ tag_id <$> db_tags db.
Proof.
  assert (∀ t, t ∈ db_tags db → tag_id t < next_tag_id db) as Hgt.
  { unfold next_tag_id. induction (db_tags db) as [|a l IH]; intros t Ht;
      [inversion Ht|].
    simpl. apply elem_of_cons in Ht as [->|Ht]; [lia|].
    specialize (IH t Ht). lia. }
  intros Hin. apply list_elem_of_fmap in Hin as (t & Heq & Ht).
  specialize (Hgt t Ht). lia.
Qed.

Lemma tags_NoDup db : tags_pk db → NoDup (db_tags db).
Proof. intros H. by apply (NoDup_fmap_1 tag_id). Qed.

(** Tables and links stay, and every tag keeps a row of its id and
    owner: the links stay sound. *)
Lemma entity_sound_retag (R : Type) `{!Mapped R} db db' :
  table (R:=R) db' = table (R:=R) db →
  association (R:=R) db' = association (R:=R) db →
  (∀ tg, tg ∈ db_tags db →
     ∃ tg', tg' ∈ db_tags db' ∧ tag_id tg' = tag_id tg
            ∧ tag_user_id tg' = tag_user_id tg) →
  entity_sound R db → entity_sound R db'.
Proof.
  intros Ht Ha Hg [Hk Hl]. split.
  - unfold keys_unique. by rewrite Ht.
  - intros t e. rewrite Ha, Ht. intros Hte.
    destruct (Hl _ _ Hte) as (tg & r & Htg & Hid & Hr & Hpk & Ho).
    destruct (Hg tg Htg) as (tg' & ? & ? & ?).
    exists tg', r. repeat split; try done; congruence.
Qed.

Lemma store_sound_retag db db' :
  same_but_tags db db' → tags_pk db' →
  (∀ tg, tg ∈ db_tags db →
     ∃ tg', tg' ∈ db_tags db' ∧ tag_id tg' = tag_id tg
            ∧ tag_user_id tg' = tag_user_id tg) →
  store_sound db → store_sound db'.
Proof.
  intros (Ht & Hn & Hc & Hat & Han & Hac) Hpk' Hg (_ & Hts & Hns & Hcs).
  split; [done|].
  split; [by apply (entity_sound_retag TaskRow db db')|].
  split; [by apply (entity_sound_retag NoteRow db db')|].
  by apply (entity_sound_retag CollectionRow db db').
Qed.

Lemma get_tag_by_title_cases db title user_id :
  tags_pk db → tag_titles_unique db →
  match get_tag_by_title_and_user db title user_id with
  | Ok (Some t) => t ∈ db_tags db ∧ tag_title t = title ∧ tag_user_id t = user_id
  | Ok None =>
      ∀ t, t ∈ db_tags db → ¬ (tag_title t = title ∧ tag_user_id t = user_id)
  | Raise _ => False
  end.
Proof.
  intros Hpk Hu. unfold get_tag_by_title_and_user.
  apply (scalar_unique (λ t, tag_title t = title ∧ tag_user_id t = user_id));
    [by apply tags_NoDup|].
  intros x y Hx Hy [? ?] [? ?]. apply Hu; congruence.
Qed.

(** X23: in a store in good order where no user has two tags of one
    title, creating a tag either answers 400, exactly when the user has
    a tag of that title, or appends one tag of a fresh id, of that user
    and that title, and leaves every other table and every link as it
    was; it never meets two rows or the unique constraint, and the store
    stays in good order with titles unique per user. *)
Theorem create_tag_for_user_sound (db : DB) (user_id : Z) (title : string) :
  store_sound db → tag_titles_unique db →
  match create_tag_for_user db user_id title with
  | Done (db', tag) =>
      (∀ t, t ∈ db_tags db → tag_user_id t = user_id → tag_title t ≠ title)
      ∧ store_sound db' ∧ tag_titles_unique db'
      ∧ db_tags db' = db_tags db ++ [tag]
      ∧ tag_id tag ∉ tag_id <$> db_tags db
      ∧ tag_user_id tag = user_id ∧ tag_title tag = title
      ∧ same_but_tags db db'
  | Failed f =>
      f = HTTP 400 "Tag with this title already exists for the user"
      ∧ ∃ t, t ∈ db_tags db ∧ tag_user_id t = user_id ∧ tag_title t = title
  end.
Proof.
  intros Hs Hu. pose proof Hs as (Hpk & _).
  unfold create_tag_for_user.
  pose proof (get_tag_by_title_cases db title user_id Hpk Hu) as Hget.
  destruct (get_tag_by_title_and_user db title user_id) as [[t|]|e];
    [| |done]; cbn [lift mbind reply_bind].
  - destruct Hget as (? & ? & ?). split; [done|]. by exists t.
  - unfold create_tag. cbn [tag_id].
    rewrite decide_False.
    2:{ intros Ht. apply Exists_exists in Ht as (t & Ht & _ & ? & ?).
        by apply (Hget t Ht). }
    pose proof (next_tag_id_fresh db) as Hfresh.
    set (tag := mkTag (next_tag_id db) user_id title (db_now db)) in *.
    assert (tags_pk (with_tags (db_tags db ++ [tag]) db)) as Hpk'.
    { unfold tags_pk. cbn [with_tags db_tags]. rewrite fmap_app.
      apply NoDup_app. split; [done|]. split; [|apply NoDup_singleton].
      intros x Hx Hx'. apply list_elem_of_singleton in Hx' as ->. done. }
    split; [intros t Ht ? ?; by apply (Hget t Ht)|].
    split.
    { apply (store_sound_retag db); [done|done| |done].
      intros tg Htg. exists tg. split; [|done].
      cbn [with_tags db_tags]. apply elem_of_app. by left. }
    split; [|done].
    intros t1 t2. cbn [with_tags db_tags].
    rewrite !elem_of_app, !list_elem_of_singleton.
    intros [H1| ->] [H2| ->] Hsu Hst; [by apply Hu| | |done].
    + exfalso. by apply (Hget t1 H1).
    + exfalso. apply (Hget t2 H2). split; [by rewrite <- Hst|].
      by rewrite <- Hsu.
Qed.

Lemma fmap_replace_same {A : Type} (key : A → Z) (l : list A) (x : A) :
  NoDup (key <$> l) → x ∈ l →
  (λ t, if decide (key t = key x) then x else t) <$> l = l.
Proof.
  intros Hnd Hx. rewrite <- (list_fmap_id l) at 2.
  apply list_fmap_ext. intros i t Ht. apply list_elem_of_lookup_2 in Ht.
  destruct (decide (key t = key x)); [|done].
  symmetry. by apply (NoDup_fmap_eq key l).
Qed.

(** X24: in a store in good order where no user has two tags of one
    title, renaming a tag answers 404 exactly when the user has no tag
    of that id, answers 400 exactly when the user has a tag of that id
    under another title and another tag of the user has the new title,
    and otherwise, the user owning a tag of that id and no other tag of
    the user having the new title, rewrites that one tag in place,
    keeping its id and owner, and leaves every other tag, every other
    table and every link as it was; it never meets two rows or the
    unique constraint, and the store stays in good order with titles
    unique per user. *)
Theorem update_user_tag_sound (db : DB) (user_id id : Z) (title : string) :
  store_sound db → tag_titles_unique db →
  match update_user_tag db user_id id title with
  | Done (db', tag) =>
      (∃ old, old ∈ db_tags db ∧ tag_id old = id ∧ tag_user_id old = user_id
              ∧ tag ∈ db_tags db'
              ∧ tag_updated_at tag
                = (if decide (tag_title old = title) then tag_updated_at old
                   else db_now db))
      ∧ (∀ t, t ∈ db_tags db → tag_id t ≠ id → tag_user_id t = user_id →
              tag_title t ≠ title)
      ∧ store_sound db' ∧ tag_titles_unique db'
      ∧ tag_id tag = id ∧ tag_user_id tag = user_id ∧ tag_title tag = title
      ∧ db_tags db'
        = (λ t, if decide (tag_id t = id) then tag else t) <$> db_tags db
      ∧ same_but_tags db db'
  | Failed f =>
      (f = HTTP 404 "Tag not found"
       ∧ ∀ r, r ∈ db_tags db → tag_id r = id → tag_user_id r ≠ user_id)
      ∨ (f = HTTP 400 "Tag with this title already exists for the user"
         ∧ (∃ old, old ∈ db_tags db ∧ tag_id old = id
                   ∧ tag_user_id old = user_id ∧ tag_title old ≠ title)
         ∧ ∃ t, t ∈ db_tags db ∧ tag_id t ≠ id ∧ tag_user_id t = user_id
                ∧ tag_title t = title)
  end.
Proof.
  intros Hs Hu. pose proof Hs as (Hpk & _).
  unfold update_user_tag.
  pose proof (get_user_tag_by_id_cases db user_id id Hpk) as Hget.
  destruct (get_user_tag_by_id db user_id id) as [tag|f];
    cbn [mbind reply_bind]; [|by left].
  destruct Hget as (Htag & <- & <-).
  destruct (decide (title ≠ tag_title tag)) as [Hne|Heq].
  - pose proof (get_tag_by_title_cases db title (tag_user_id tag) Hpk Hu)
      as Hdup.
    destruct (get_tag_by_title_and_user db title (tag_user_id tag))
      as [[t|]|e]; [| |done]; cbn [lift mbind reply_bind].
    + right. split; [done|]. destruct Hdup as (Ht & Htt & Htu).
      split; [exists tag; repeat split; [done|congruence]|].
      exists t. split; [done|]. split; [|done].
      intros Hid. apply Hne. rewrite <- Htt. f_equal.
      by apply (NoDup_fmap_eq tag_id (db_tags db)).
    + unfold update_tag. rewrite decide_False by congruence.
      rewrite decide_False.
      2:{ intros Ht. apply Exists_exists in Ht as (t & Ht & _ & ? & ?).
          by apply (Hdup t Ht). }
      set (tag' := mkTag (tag_id tag) (tag_user_id tag) title (db_now db)).
      set (f := λ t, if decide (tag_id t = tag_id tag) then tag' else t).
      assert (∀ t, tag_id (f t) = tag_id t) as Hfid.
      { intros t. unfold f. by destruct (decide (tag_id t = tag_id tag)). }
      assert (∀ t, t ∈ db_tags db → tag_user_id (f t) = tag_user_id t)
        as Hfu.
      { intros t Ht. unfold f.
        destruct (decide (tag_id t = tag_id tag)); [|done].
        simpl. f_equal. symmetry.
        by apply (NoDup_fmap_eq tag_id (db_tags db)). }
      assert (tags_pk (with_tags (f <$> db_tags db) db)) as Hpk'.
      { unfold tags_pk. cbn [with_tags db_tags].
        rewrite <- list_fmap_compose.
        rewrite (list_fmap_ext (tag_id ∘ f) tag_id (db_tags db)); [done|].
        intros i t _. apply Hfid. }
      split.
      { exists tag. split; [done|]. split; [done|]. split; [done|].
        cbn [with_tags db_tags]. split.
        - apply list_elem_of_fmap. exists tag. split; [|done].
          unfold f. by rewrite decide_True.
        - rewrite decide_False by congruence. done. }
      split; [intros t Ht _ Hown Htt; by apply (Hdup t Ht)|].
      split.
      { apply (store_sound_retag db); [done|done| |done].
        intros tg Htg. exists (f tg). cbn [with_tags db_tags].
        split; [by apply list_elem_of_fmap_2|]. split; [done|]. by apply Hfu. }
      split; [|done].
      assert (∀ t, t ∈ f <$> db_tags db →
                t = tag' ∨ (t ∈ db_tags db ∧ tag_id t ≠ tag_id tag))
        as Hcases.
      { intros t. rewrite list_elem_of_fmap. intros (x & -> & Hx).
        unfold f. destruct (decide (tag_id x = tag_id tag));
          [by left|by right]. }
      intros t1 t2. cbn [with_tags db_tags]. intros H1 H2 Hsu Hst.
      destruct (Hcases t1 H1) as [->|[H1' Hn1]],
               (Hcases t2 H2) as [->|[H2' Hn2]]; [done| | |by apply Hu].
      * exfalso. apply (Hdup t2 H2'). by split.
      * exfalso. apply (Hdup t1 H1'). by split.
  - cbn [mbind reply_bind]. unfold update_tag.
    assert (tag_title tag = title) as Ht
      by (destruct (decide (tag_title tag = title)); [done|]; exfalso;
          apply Heq; congruence).
    rewrite decide_True by done.
    split.
    { exists tag. split; [done|]. split; [done|]. split; [done|].
      split; [done|]. by rewrite decide_True. }
    split.
    { intros t Hin Hid Hown Htt. apply Hid. f_equal.
      apply Hu; [done|done|done|congruence]. }
    split; [done|]. split; [done|]. split; [done|]. split; [done|].
    split; [done|]. split; [|done].
    symmetry. by apply (fmap_replace_same tag_id).
Qed.

Lemma entity_sound_delete_tag (R : Type) `{!Mapped R} db db' id :
  table (R:=R) db' = table (R:=R) db →
  association (R:=R) db'
  = filter (λ '(t, e), t ≠ id) (association (R:=R) db) →
  db_tags db' = filter (λ t, tag_id t ≠ id) (db_tags db) →
  entity_sound R db → entity_sound R db'.
Proof.
  intros Ht Ha Hg [Hk Hl]. split.
  - unfold keys_unique. by rewrite Ht.
  - intros t e. rewrite Ha, Ht, Hg, list_elem_of_filter. intros [Hne Hte].
    destruct (Hl _ _ Hte) as (tg & r & Htg & Hid & Hr & Hpk & Ho).
    exists tg, r. repeat split; try done.
    apply list_elem_of_filter. split; [congruence|done].
Qed.

(** X25: deleting a tag answers 404 when the user has no tag of that
    id; otherwise, in a store in good order, it removes that tag and
    every link to it in the three link tables, leaves the tasks, the
    notes, the collections and the other links as they were, and leaves
    the store in good order, with titles unique per user if they were. *)
Theorem delete_user_tag_sound (db : DB) (user_id id : Z) :
  store_sound db →
  match delete_user_tag db user_id id with
  | Done db' =>
      (∃ t, t ∈ db_tags db ∧ tag_id t = id ∧ tag_user_id t = user_id)
      ∧ store_sound db'
      ∧ (tag_titles_unique db → tag_titles_unique db')
      ∧ db_tags db' = filter (λ t, tag_id t ≠ id) (db_tags db)
      ∧ db_tasks db' = db_tasks db
      ∧ db_notes db' = db_notes db
      ∧ db_collections db' = db_collections db
      ∧ tag_task_association db'
        = filter (λ '(t, e), t ≠ id) (tag_task_association db)
      ∧ tag_note_association db'
        = filter (λ '(t, e), t ≠ id) (tag_note_association db)
      ∧ tag_collection_association db'
        = filter (λ '(t, e), t ≠ id) (tag_collection_association db)
  | Failed f =>
      f = HTTP 404 "Tag not found"
      ∧ ∀ r, r ∈ db_tags db → tag_id r = id → tag_user_id r ≠ user_id
  end.
Proof.
  intros Hs. pose proof Hs as (Hpk & Ht & Hn & Hc).
  unfold delete_user_tag.
  pose proof (get_user_tag_by_id_cases db user_id id Hpk) as Hget.
  destruct (get_user_tag_by_id db user_id id) as [tag|f];
    cbn [mbind reply_bind]; [|done].
  destruct Hget as (Htag & <- & <-).
  split; [by exists tag|].
  split.
  { split.
    - unfold tags_pk, delete_tag. cbn [db_tags].
      eapply sublist_NoDup; [exact Hpk|]. apply fmap_sublist, sublist_filter.
    - split; [|split].
      + by apply (entity_sound_delete_tag TaskRow db _ (tag_id tag)).
      + by apply (entity_sound_delete_tag NoteRow db _ (tag_id tag)).
      + by apply (entity_sound_delete_tag CollectionRow db _ (tag_id tag)). }
  split; [|done].
  intros Hu t1 t2. unfold delete_tag. cbn [db_tags].
  rewrite !list_elem_of_filter. intros [_ H1] [_ H2]. by apply Hu.
Qed.

(** ** Creating, then fetching *)

Lemma fetch_stored_row (R : Type) `{!Mapped R} db (row r : R) :
  keys_unique R db → row ∈ table (R:=R) db → r ∈ table (R:=R) db →
  pk r = pk row → r = row.
Proof. intros Hk Hrow Hr Hpk. by apply (NoDup_fmap_eq pk (table (R:=R) db)). Qed.

(** X26: what a create method returns is what a fetch by its id
    returns next, to the creating user; to any other user that id
    answers 404. *)
Theorem created_is_fetched (db : DB) (user_id : Z) :
  store_sound db →
  (∀ task_create db' task,
     create_task_for_user db user_id task_create = Ok (db', task) →
     get_user_task_by_id db' user_id (task_id (obj_row task)) = Ok task
     ∧ ∀ other, other ≠ user_id →
         get_user_task_by_id db' other (task_id (obj_row task))
         = Raise (HTTPException 404 TaskNotFound))
  ∧ (∀ note_create db' note,
       create_note_for_user db user_id note_create = Ok (db', note) →
       get_user_note_by_id db' user_id (note_id (obj_row note)) = Ok note
       ∧ ∀ other, other ≠ user_id →
           get_user_note_by_id db' other (note_id (obj_row note))
           = Raise (HTTPException 404 NoteNotFound))
  ∧ (∀ collection_create db' collection,
       create_collection_for_user db user_id collection_create
       = Done (db', collection) →
       get_user_collection_by_id db' user_id
         (collection_id (obj_row collection)) = Done collection
       ∧ ∀ other, other ≠ user_id →
           get_user_collection_by_id db' other
             (collection_id (obj_row collection))
           = Failed (HTTP 404 "Collection not found")).
Proof.
  intros Hs. pose proof Hs as (Hpk & Ht & Hn & Hc).
  split; [|split].
  - intros tc db' task Hcreate.
    rewrite create_task_for_user_steps in Hcreate.
    destruct (check_task_collection _ _ _) as [[]|]; [|done].
    destruct (validate_tags _ _ _) as [[]|] eqn:Hval; [|done].
    cbn [mbind result_bind] in Hcreate.
    destruct (create_stored db (task_data user_id tc)
                (mjoin (tb_tag_ids tc)) Ht Hval)
      as (db'' & Hfin & Hs' & _ & Htab & _ & Hown & _).
    unfold create_task in Hcreate. rewrite Hfin in Hcreate.
    apply Ok_inj in Hcreate. injection Hcreate as <- <-.
    set (row := with_updated_at _ _) in *.
    assert (row ∈ db_tasks db'') as Hrow
      by (change (db_tasks db'') with (table (R:=TaskRow) db'');
          rewrite Htab; apply elem_of_app; right; by left).
    cbn [loaded obj_row]. split.
    + by apply get_user_task_by_id_stored; [destruct Hs'| |].
    + intros other Hne.
      enough (get_user_task_by_id db'' other (task_id row)
              = Raise (HTTPException 404 TaskNotFound)) as Hgoal
        by exact Hgoal.
      pose proof (get_user_task_by_id_cases db'' other (task_id row)
                    (proj1 Hs')) as Hget.
      destruct (get_user_task_by_id db'' other (task_id row)) as [t|e].
      * destruct Hget as (Hr & Hid & Hu & _). exfalso. apply Hne.
        rewrite <- Hu.
        rewrite (fetch_stored_row TaskRow db'' row (obj_row t)
                   (proj1 Hs') Hrow Hr Hid).
        exact (eq_sym Hown).
      * by destruct Hget as [-> _].
  - intros nc db' note Hcreate.
    rewrite create_note_for_user_steps in Hcreate.
    destruct (check_note_collection _ _ _) as [[]|]; [|done].
    destruct (validate_tags _ _ _) as [[]|] eqn:Hval; [|done].
    cbn [mbind result_bind] in Hcreate.
    destruct (create_stored db (note_data user_id nc)
                (mjoin (nb_tag_ids nc)) Hn Hval)
      as (db'' & Hfin & Hs' & _ & Htab & _ & Hown & _).
    unfold create_note in Hcreate. rewrite Hfin in Hcreate.
    apply Ok_inj in Hcreate. injection Hcreate as <- <-.
    set (row := with_updated_at _ _) in *.
    assert (row ∈ db_notes db'') as Hrow
      by (change (db_notes db'') with (table (R:=NoteRow) db'');
          rewrite Htab; apply elem_of_app; right; by left).
    cbn [loaded obj_row]. split.
    + by apply get_user_note_by_id_stored; [destruct Hs'| |].
    + intros other Hne.
      enough (get_user_note_by_id db'' other (note_id row)
              = Raise (HTTPException 404 NoteNotFound)) as Hgoal
        by exact Hgoal.
      pose proof (get_user_note_by_id_cases db'' other (note_id row)
                    (proj1 Hs')) as Hget.
      destruct (get_user_note_by_id db'' other (note_id row)) as [t|e].
      * destruct Hget as (Hr & Hid & Hu & _). exfalso. apply Hne.
        rewrite <- Hu.
        rewrite (fetch_stored_row NoteRow db'' row (obj_row t)
                   (proj1 Hs') Hrow Hr Hid).
        exact (eq_sym Hown).
      * by destruct Hget as [-> _].
  - intros cc db' collection Hcreate.
    rewrite create_collection_for_user_steps in Hcreate.
    destruct (get_collection_by_title_and_user _ _ _) as [[c|]|]; [done| |done].
    cbn [lift mbind reply_bind] in Hcreate.
    destruct (validate_tags _ _ _) as [[]|] eqn:Hval; [|done].
    cbn [lift mbind reply_bind] in Hcreate.
    unfold create_collection in Hcreate.
    destruct (decide _); [done|]. cbn [mbind reply_bind] in Hcreate.
    destruct (create_stored db (collection_data user_id cc)
                (mjoin (cb_tag_ids cc)) Hc Hval)
      as (db'' & Hfin & Hs' & _ & Htab & _ & Hown & _).
    rewrite Hfin in Hcreate. cbn [lift] in Hcreate.
    injection Hcreate as <- <-.
    set (row := with_updated_at _ _) in *.
    assert (row ∈ db_collections db'') as Hrow
      by (change (db_collections db'') with (table (R:=CollectionRow) db'');
          rewrite Htab; apply elem_of_app; right; by left).
    cbn [loaded obj_row]. split.
    + by apply get_user_collection_by_id_stored; [destruct Hs'| |].
    + intros other Hne.
      enough (get_user_collection_by_id db'' other (collection_id row)
              = Failed (HTTP 404 "Collection not found")) as Hgoal
        by exact Hgoal.
      pose proof (get_user_collection_by_id_cases db'' other
                    (collection_id row) (proj1 Hs')) as Hget.
      destruct (get_user_collection_by_id db'' other (collection_id row))
        as [t|e].
      * destruct Hget as (Hr & Hid & Hu & _). exfalso. apply Hne.
        rewrite <- Hu.
        rewrite (fetch_stored_row CollectionRow db'' row (obj_row t)
                   (proj1 Hs') Hrow Hr Hid).
        exact (eq_sym Hown).
      * by destruct Hget as [-> _].
Qed.

(** ** Filing in a collection *)

Lemma filter_stored {A : Type} (P : A → Prop) `{!∀ x, Decision (P x)}
    (key : A → Z) (l : list A) (r : A) :
  NoDup (key <$> l) → (∀ x, P x → key x = key r) → r ∈ l → P r →
  filter P l = [r].
Proof.
  intros Hnd HP Hr HPr.
  assert (r ∈ filter P l) as Hin by by apply list_elem_of_filter.
  destruct (filter_unique_key P key l (key r) Hnd HP) as [Hnil|[x Hx]].
  - rewrite Hnil in Hin. inversion Hin.
  - rewrite Hx in *. by apply list_elem_of_singleton in Hin as ->.
Qed.

(** X27: filing under a collection id other than 0, while collection
    keys are unique: a collection of that id owned by the user decides
    alone, refusing a task with 400 when it is notes-only and a note
    with 400 when it is tasks-only and accepting otherwise; when the
    user owns no collection of that id the answer is 404, whoever else
    owns one; and a refusal is the outcome of the create and update
    methods, whatever the tag list is. *)
Theorem collection_policy (db : DB) (user_id cid : Z) :
  keys_unique CollectionRow db → cid ≠ 0 →
  (∀ c, c ∈ db_collections db → collection_id c = cid →
        collection_user_id c = user_id →
        check_task_collection db user_id (Some cid)
        = (if decide (collection_type c = NOTES_ONLY)
           then Raise (HTTPException 400 CannotAddTask) else Ok ())
        ∧ check_note_collection db user_id (Some cid)
          = (if decide (collection_type c = TASKS_ONLY)
             then Raise (HTTPException 400 CannotAddNote) else Ok ()))
  ∧ ((∀ c, c ∈ db_collections db → collection_id c = cid →
           collection_user_id c ≠ user_id) →
     check_task_collection db user_id (Some cid)
     = Raise (HTTPException 404 CollectionNotFound)
     ∧ check_note_collection db user_id (Some cid)
       = Raise (HTTPException 404 CollectionNotFound))
  ∧ (∀ task e, tb_collection_id task = Some (Some cid) →
       check_task_collection db user_id (Some cid) = Raise e →
       create_task_for_user db user_id task = Raise e
       ∧ ∀ id, is_ok (get_user_task_by_id db user_id id) = true →
               update_user_task db user_id id task = Raise e)
  ∧ (∀ note e, nb_collection_id note = Some (Some cid) →
       check_note_collection db user_id (Some cid) = Raise e →
       create_note_for_user db user_id note = Raise e
       ∧ ∀ id, is_ok (get_user_note_by_id db user_id id) = true →
               update_user_note db user_id id note = Raise e).
Proof.
  intros Hk Hcid.
  pose proof (check_task_collection_nonzero db user_id cid Hcid) as Htask.
  pose proof (check_note_collection_nonzero db user_id cid Hcid) as Hnote.
  split; [|split; [|split]].
  - intros c Hc Hid Hu.
    rewrite (filter_stored _ collection_id (db_collections db) c)
      in Htask, Hnote; [done|done| |done|done|done| |done|done];
      intros x [? _]; congruence.
  - intros Hnone.
    rewrite filter_none in Htask, Hnote; [done| |];
      intros c Hc [Hid Hu]; by apply (Hnone c).
  - intros task e Hfield Hcheck. split.
    + apply create_task_check_first. by rewrite Hfield.
    + intros id Hget. rewrite update_user_task_steps.
      destruct (get_user_task_by_id db user_id id); [|done].
      cbn [mbind result_bind]. by rewrite Hfield, Hcheck.
  - intros note e Hfield Hcheck. split.
    + apply create_note_check_first. by rewrite Hfield.
    + intros id Hget. rewrite update_user_note_steps.
      destruct (get_user_note_by_id db user_id id); [|done].
      cbn [mbind result_bind]. by rewrite Hfield, Hcheck.
Qed.

(** ** The further theorems at work on the sample stores *)

Lemma links_sound_check (R : Type) `{!Mapped R} db :
  Forall (λ p, Exists (λ tg, tag_id tg = p.1
                             ∧ Exists (λ r, pk r = p.2
                                            ∧ tag_user_id tg = owner r)
                                  (table (R:=R) db))
                 (db_tags db))
    (association (R:=R) db) →
  links_sound R db.
Proof.
  intros Hall t e Hte. rewrite Forall_forall in Hall.
  specialize (Hall _ Hte). simpl in Hall.
  apply Exists_exists in Hall as (tg & Htg & Hid & Hr).
  apply Exists_exists in Hr as (r & Hr & Hpk & Ho).
  by exists tg, r.
Qed.

Lemma tag_titles_unique_check db :
  Forall (λ t1, Forall (λ t2, tag_user_id t1 = tag_user_id t2 →
                              tag_title t1 = tag_title t2 → t1 = t2)
                  (db_tags db)) (db_tags db) →
  tag_titles_unique db.
Proof.
  intros Hall t1 t2 H1 H2. rewrite Forall_forall in Hall.
  specialize (Hall _ H1). rewrite Forall_forall in Hall.
  exact (Hall _ H2).
Qed.

Lemma collection_titles_unique_check db :
  Forall (λ c1, Forall (λ c2, collection_user_id c1 = collection_user_id c2 →
                              collection_title c1 = collection_title c2 →
                              c1 = c2)
                  (db_collections db)) (db_collections db) →
  collection_titles_unique db.
Proof.
  intros Hall c1 c2 H1 H2. rewrite Forall_forall in Hall.
  specialize (Hall _ H1). rewrite Forall_forall in Hall.
  exact (Hall _ H2).
Qed.

Ltac entity_in_good_order :=
  split; [unfold keys_unique; by_computation
         |apply links_sound_check; by_computation].

Ltac in_good_order :=
  split; [by_computation|];
  split; [entity_in_good_order|];
  split; [entity_in_good_order|entity_in_good_order].

Lemma db_sound_in_good_order :
  store_sound db_sound ∧ tag_titles_unique db_sound
  ∧ collection_titles_unique db_sound.
Proof.
  split; [in_good_order|].
  split; [apply tag_titles_unique_check; by_computation|].
  apply collection_titles_unique_check; by_computation.
Qed.

Lemma repository_window_is_endpoint_slice_witness :
  0 ≤ 1 ∧ 0 ≤ 1
  ∧ search_tasks db_proj 7 "proj" None None None (Some 1) (Some 1)
    = slice 1 (1 + 1) (search_tasks db_proj 7 "proj" None None None None None).
Proof.
  split; [lia|]. split; [lia|].
  apply (repository_window_is_endpoint_slice db_proj 7 "proj" 1 1); lia.
Defined.

Lemma search_endpoints_bounded_and_scoped_witness :
  query_too_short "proj" = false ∧ 0 ≤ 0 ∧ 1 ≤ 2
  ∧ ∃ page,
      tasks_routers.search_tasks db_proj 7 "proj" None None None 0 2 = Ok page
      ∧ (length page ≤ Z.to_nat 2)%nat
      ∧ Forall (λ t, to_user_id t = 7) page.
Proof.
  split; [reflexivity|]. split; [lia|]. split; [lia|].
  apply (search_endpoints_bounded_and_scoped db_proj 7 "proj" 0 2 eq_refl);
    lia.
Defined.

Lemma search_endpoint_pages_tile_witness :
  0 ≤ 0 ∧ 0 ≤ 1 ∧ 0 ≤ 2
  ∧ tags_routers.search_tags db_proj 7 "proj" 0 (1 + 2)
    = (p1 ← tags_routers.search_tags db_proj 7 "proj" 0 1;
       p2 ← tags_routers.search_tags db_proj 7 "proj" (0 + 1) 2;
       Ok (p1 ++ p2)).
Proof.
  split; [lia|]. split; [lia|]. split; [lia|].
  apply (search_endpoint_pages_tile db_proj 7 "proj" 0 1 2); lia.
Defined.

Lemma search_ignores_surrounding_space_witness :
  strip (String "160" (" proj " +:+ String "133" EmptyString)) = strip "proj"
  ∧ search_user_tags db_proj 7
      (String "160" (" proj " +:+ String "133" EmptyString)) None None
    = search_user_tags db_proj 7 "proj" None None.
Proof.
  split; [reflexivity|].
  apply (search_ignores_surrounding_space db_proj 7
           (String "160" (" proj " +:+ String "133" EmptyString)) "proj"
           eq_refl).
Defined.

Lemma search_ignores_case_witness :
  lower "PRoj" = lower "proj"
  ∧ search_user_tags db_proj 7 "PRoj" None None
    = search_user_tags db_proj 7 "proj" None None.
Proof.
  split; [reflexivity|].
  apply (search_ignores_case db_proj 7 "PRoj" "proj" eq_refl).
Defined.

Lemma search_within_listing_witness :
  mkTag 1 7 "project" 1 ∈ search_tags db_proj 7 "proj" None None
  ∧ mkTag 1 7 "project" 1 ∈ get_tags_by_user db_proj 7.
Proof.
  assert (mkTag 1 7 "project" 1 ∈ search_tags db_proj 7 "proj" None None)
    as Hin by by_computation.
  split; [exact Hin|].
  exact (proj2 (proj2 (proj2 (search_within_listing db_proj 7 "proj")))
           None None _ Hin).
Defined.

Lemma percent_query_returns_everything_witness :
  "%%" ≠ "" ∧ only_percent "%%" = true
  ∧ search_tags db_proj 7 "%%" None None ≡ₚ get_tags_by_user db_proj 7.
Proof.
  assert ("%%" ≠ "") as Hne by discriminate.
  split; [exact Hne|]. split; [reflexivity|].
  apply (percent_query_returns_everything db_proj 7 "%%" Hne eq_refl).
Defined.

Lemma global_search_list_sizes_witness :
  query_too_short "proj" = false ∧ 0 ≤ 1
  ∧ ∃ env,
      search_routers.global_search (λ i, i) db_proj 7 "proj" 1 = Ok env
      ∧ length (tasks (results env))
        = (Z.to_nat 1 `min`
           length (search_tasks db_proj 7 (strip "proj") None None None
                     None None))%nat.
Proof.
  split; [reflexivity|]. split; [lia|].
  destruct (global_search_list_sizes (λ i, i) db_proj 7 "proj" 1 eq_refl)
    as (env & Heq & Ht & _); [lia|].
  by exists env.
Defined.

Lemma global_search_lists_are_first_pages_witness :
  0 ≤ 2
  ∧ tasks ∘ results <$> search_routers.global_search (λ i, i) db_proj 7 "proj" 2
    = tasks_routers.search_tasks db_proj 7 "proj" None None None 0 2.
Proof.
  split; [lia|].
  apply (global_search_lists_are_first_pages (λ i, i) db_proj 7 "proj" 2);
    lia.
Defined.

Lemma global_search_scoped_and_ordered_witness :
  ∃ env,
    search_routers.global_search (λ i, i) db_proj 7 "proj" 2 = Ok env
    ∧ Forall (λ t, to_user_id t = 7) (tasks (results env))
    ∧ desc_by to_updated_at (tasks (results env)).
Proof.
  destruct (search_routers.global_search (λ i, i) db_proj 7 "proj" 2) as [env|e]
    eqn:Heq; [|by vm_compute in Heq].
  exists env. split; [done|].
  destruct (global_search_scoped_and_ordered (λ i, i) db_proj 7 "proj" 2 env
              Heq)
    as ((Ht & _) & Hd & _).
  by split.
Defined.

Lemma load_tags_reads_a_set_witness :
  (∀ x, x ∈ [3; 1; 3] ↔ x ∈ [1; 3])
  ∧ _load_tags db_tagged 7 [3; 1; 3] true = _load_tags db_tagged 7 [1; 3] true.
Proof.
  assert (∀ x : Z, x ∈ [3; 1; 3] ↔ x ∈ [1; 3]) as Hset.
  { intros x. rewrite !elem_of_cons. split; intros H; tauto. }
  split; [exact Hset|].
  apply (load_tags_reads_a_set db_tagged 7 [3; 1; 3] [1; 3] Hset).
Defined.

Lemma tag_precheck_agrees_with_reconciler_witness :
  validate_tags db_tagged 7 (Some [3; 1]) = Ok ()
  ∧ is_ok (set_task_tags db_tagged task_1 [3; 1]) = true.
Proof.
  split; [reflexivity|].
  apply (proj2 (tag_precheck_agrees_with_reconciler db_tagged 7 [3; 1])
           eq_refl); reflexivity.
Defined.

Lemma create_task_for_user_sound_witness :
  store_sound db_sound
  ∧ check_task_collection db_sound 7 (Some 1) = Ok ()
  ∧ validate_tags db_sound 7 (Some [3; 1]) = Ok ()
  ∧ ∃ db' task,
      create_task_for_user db_sound 7
        (mkTaskBase "Write report" None None None (Some (Some 1))
           (Some (Some [3; 1])))
      = Ok (db', task)
      ∧ store_sound db'
      ∧ db_tasks db' = db_tasks db_sound ++ [obj_row task].
Proof.
  pose proof (proj1 db_sound_in_good_order) as Hs.
  split; [exact Hs|]. split; [reflexivity|]. split; [reflexivity|].
  destruct (create_task_for_user_sound db_sound 7
              (mkTaskBase "Write report" None None None (Some (Some 1))
                 (Some (Some [3; 1]))) Hs eq_refl eq_refl)
    as (db' & task & Heq & Hs' & Htab & _).
  by exists db', task.
Defined.

Lemma create_note_for_user_sound_witness :
  store_sound db_sound
  ∧ check_note_collection db_sound 7 (Some 1) = Ok ()
  ∧ validate_tags db_sound 7 (Some [1]) = Ok ()
  ∧ ∃ db' note,
      create_note_for_user db_sound 7
        (mkNoteBase "Agenda" None (Some (Some 1)) (Some (Some [1])))
      = Ok (db', note)
      ∧ store_sound db'
      ∧ db_notes db' = db_notes db_sound ++ [obj_row note].
Proof.
  pose proof (proj1 db_sound_in_good_order) as Hs.
  split; [exact Hs|]. split; [reflexivity|]. split; [reflexivity|].
  destruct (create_note_for_user_sound db_sound 7
              (mkNoteBase "Agenda" None (Some (Some 1)) (Some (Some [1])))
              Hs eq_refl eq_refl)
    as (db' & note & Heq & Hs' & Htab & _).
  by exists db', note.
Defined.

Lemma create_collection_for_user_sound_witness :
  store_sound db_sound
  ∧ get_collection_by_title_and_user db_sound "Projects" 7 = Ok None
  ∧ validate_tags db_sound 7 (Some [1]) = Ok ()
  ∧ ∃ db' collection,
      create_collection_for_user db_sound 7
        (mkCollectionBase "Projects" None None (Some (Some [1])))
      = Done (db', collection)
      ∧ store_sound db'
      ∧ db_collections db'
        = db_collections db_sound ++ [obj_row collection].
Proof.
  pose proof (proj1 db_sound_in_good_order) as Hs.
  split; [exact Hs|]. split; [reflexivity|]. split; [reflexivity|].
  destruct (create_collection_for_user_sound db_sound 7
              (mkCollectionBase "Projects" None None (Some (Some [1])))
              Hs eq_refl eq_refl)
    as (db' & collection & Heq & Hs' & _ & Htab & _).
  by exists db', collection.
Defined.

Lemma update_user_task_sound_witness :
  store_sound db_sound
  ∧ mkTaskRow 2 7 None "Call back" (Some "about the offer") "DONE" "HIGH" 6
    ∈ db_tasks db_sound
  ∧ validate_tags db_sound 7 (Some [1]) = Ok ()
  ∧ ∃ db' task,
      update_user_task db_sound 7 2
        (mkTaskBase "Call back today" None None None None (Some (Some [1])))
      = Ok (db', task)
      ∧ store_sound db'
      ∧ task_title (obj_row task) = "Call back today".
Proof.
  pose proof (proj1 db_sound_in_good_order) as Hs.
  assert (mkTaskRow 2 7 None "Call back" (Some "about the offer") "DONE"
            "HIGH" 6 ∈ db_tasks db_sound) as Hr by by_computation.
  split; [exact Hs|]. split; [exact Hr|]. split; [reflexivity|].
  destruct (update_user_task_sound db_sound 7 2
              (mkTaskBase "Call back today" None None None None
                 (Some (Some [1]))) _ Hs Hr eq_refl eq_refl eq_refl eq_refl)
    as (db' & task & Heq & Hs' & _ & _ & Htitle & _).
  by exists db', task.
Defined.

Lemma update_user_note_sound_witness :
  store_sound db_sound
  ∧ mkNoteRow 2 7 None "Ideas" None 7 ∈ db_notes db_sound
  ∧ validate_tags db_sound 7 None = Ok ()
  ∧ ∃ db' note,
      update_user_note db_sound 7 2 (mkNoteBase "Plans" None None None)
      = Ok (db', note)
      ∧ store_sound db'
      ∧ tag_note_association db' = tag_note_association db_sound.
Proof.
  pose proof (proj1 db_sound_in_good_order) as Hs.
  assert (mkNoteRow 2 7 None "Ideas" None 7 ∈ db_notes db_sound) as Hr
    by by_computation.
  split; [exact Hs|]. split; [exact Hr|]. split; [reflexivity|].
  destruct (update_user_note_sound db_sound 7 2
              (mkNoteBase "Plans" None None None) _ Hs Hr eq_refl eq_refl
              eq_refl eq_refl)
    as (db' & note & Heq & Hs' & _ & _ & _ & _ & _ & _ & Hlinks).
  by exists db', note.
Defined.

Lemma update_user_collection_sound_witness :
  store_sound db_sound ∧ collection_titles_unique db_sound
  ∧ mkCollectionRow 2 7 "Archive" None TASKS_ONLY 5 ∈ db_collections db_sound
  ∧ get_collection_by_title_and_user db_sound "Attic" 7 = Ok None
  ∧ ∃ db' collection,
      update_user_collection db_sound 7 2
        (mkCollectionBase "Attic" None (Some NOTES_ONLY) None)
      = Done (db', collection)
      ∧ store_sound db' ∧ collection_titles_unique db'
      ∧ db_tasks db' = db_tasks db_sound.
Proof.
  destruct db_sound_in_good_order as (Hs & _ & Hu).
  assert (mkCollectionRow 2 7 "Archive" None TASKS_ONLY 5
            ∈ db_collections db_sound) as Hr by by_computation.
  split; [exact Hs|]. split; [exact Hu|]. split; [exact Hr|].
  split; [reflexivity|].
  destruct (update_user_collection_sound db_sound 7 2
              (mkCollectionBase "Attic" None (Some NOTES_ONLY) None) _
              Hs Hu Hr eq_refl eq_refl (or_intror eq_refl) eq_refl)
    as (db' & c & Heq & Hs' & Hu' & _ & _ & _ & _ & Hsame & _).
  exists db', c. split; [done|]. split; [done|]. split; [done|].
  by destruct Hsame as (_ & ? & _).
Defined.

Lemma set_tags_keep_store_sound_witness :
  store_sound db_sound
  ∧ ∃ db' task',
      set_task_tags db_sound
        (loaded db_sound
           (mkTaskRow 1 7 (Some 1) "Team meeting" None "TODO" "MEDIUM" 5))
        [1]
      = Ok (db', task')
      ∧ store_sound db' ∧ tags_of_owner db' task'.
Proof.
  pose proof (proj1 db_sound_in_good_order) as Hs.
  split; [exact Hs|].
  set (task := loaded db_sound
         (mkTaskRow 1 7 (Some 1) "Team meeting" None "TODO" "MEDIUM" 5)).
  assert (attached db_sound task) as Hatt.
  { apply stored_attached; [by destruct Hs as (_ & [? _] & _)|done|].
    by_computation. }
  destruct (set_task_tags db_sound task [1]) as [[db' task']|e] eqn:Heq;
    [|by vm_compute in Heq].
  exists db', task'. split; [done|].
  destruct (proj1 (set_tags_keep_store_sound db_sound Hs) task [1] db' task'
              Hatt Heq) as (Hs' & _ & _ & Hto).
  by split.
Defined.

Lemma get_by_id_owned_or_404_witness :
  store_sound db_sound
  ∧ match get_user_task_by_id db_sound 7 3 with
    | Ok task =>
        obj_row task ∈ db_tasks db_sound ∧ task_id (obj_row task) = 3
        ∧ task_user_id (obj_row task) = 7
        ∧ task = loaded db_sound (obj_row task)
    | Raise e =>
        e = HTTPException 404 TaskNotFound
        ∧ ∀ r, r ∈ db_tasks db_sound → task_id r = 3 → task_user_id r ≠ 7
    end.
Proof.
  pose proof (proj1 db_sound_in_good_order) as Hs.
  split; [exact Hs|].
  exact (proj1 (get_by_id_owned_or_404 db_sound 7 3 Hs)).
Defined.

Lemma delete_user_task_note_sound_witness :
  store_sound db_sound
  ∧ ∃ db',
      delete_user_task db_sound 7 1 = Ok db'
      ∧ store_sound db'
      ∧ db_tasks db' = filter (λ r, task_id r ≠ 1) (db_tasks db_sound)
      ∧ tag_task_association db' = [(3, 2); (2, 3)].
Proof.
  pose proof (proj1 db_sound_in_good_order) as Hs.
  split; [exact Hs|].
  destruct (delete_user_task_note_sound db_sound 7 1 Hs) as [Hdel _].
  revert Hdel.
  destruct (delete_user_task db_sound 7 1) as [db'|e] eqn:Heq;
    [|by vm_compute in Heq].
  intros Hdel.
  exists db'. destruct Hdel as (_ & Hs' & Ht & Ha & _).
  split; [done|]. split; [done|]. split; [done|]. by rewrite Ha.
Defined.

Lemma delete_user_collection_cascades_witness :
  store_sound db_sound
  ∧ ∃ db',
      delete_user_collection db_sound 7 1 = Done db'
      ∧ store_sound db'
      ∧ db_tasks db'
        = filter (λ r, task_collection_id r ≠ Some 1) (db_tasks db_sound)
      ∧ db_notes db'
        = filter (λ r, note_collection_id r ≠ Some 1) (db_notes db_sound).
Proof.
  pose proof (proj1 db_sound_in_good_order) as Hs.
  split; [exact Hs|].
  pose proof (delete_user_collection_cascades db_sound 7 1 Hs) as Hdel.
  revert Hdel.
  destruct (delete_user_collection db_sound 7 1) as [db'|e] eqn:Heq;
    [|by vm_compute in Heq].
  intros Hdel.
  exists db'. destruct Hdel as (_ & Hs' & _ & Ht & Hn & _). done.
Defined.

Lemma create_tag_for_user_sound_witness :
  store_sound db_sound ∧ tag_titles_unique db_sound
  ∧ create_tag_for_user db_sound 7 "home"
    = Failed (HTTP 400 "Tag with this title already exists for the user")
  ∧ ∃ db' tag,
      create_tag_for_user db_sound 7 "errands" = Done (db', tag)
      ∧ store_sound db' ∧ tag_titles_unique db'
      ∧ db_tags db' = db_tags db_sound ++ [tag].
Proof.
  destruct db_sound_in_good_order as (Hs & Hu & _).
  split; [exact Hs|]. split; [exact Hu|]. split; [reflexivity|].
  pose proof (create_tag_for_user_sound db_sound 7 "errands" Hs Hu) as Hc.
  revert Hc.
  destruct (create_tag_for_user db_sound 7 "errands") as [[db' tag]|e]
    eqn:Heq; [|by vm_compute in Heq].
  intros Hc.
  exists db', tag. destruct Hc as (_ & Hs' & Hu' & Ht & _). done.
Defined.

Lemma update_user_tag_sound_witness :
  store_sound db_sound ∧ tag_titles_unique db_sound
  ∧ ∃ db' tag,
      update_user_tag db_sound 7 1 "house" = Done (db', tag)
      ∧ store_sound db' ∧ tag_titles_unique db'
      ∧ tag = mkTag 1 7 "house" 9.
Proof.
  destruct db_sound_in_good_order as (Hs & Hu & _).
  split; [exact Hs|]. split; [exact Hu|].
  pose proof (update_user_tag_sound db_sound 7 1 "house" Hs Hu) as Hc.
  revert Hc.
  destruct (update_user_tag db_sound 7 1 "house") as [[db' tag]|e]
    eqn:Heq; [|by vm_compute in Heq].
  intros Hc.
  exists db', tag. destruct Hc as (_ & _ & Hs' & Hu' & _).
  split; [done|]. split; [done|]. split; [done|].
  vm_compute in Heq. congruence.
Defined.

Lemma delete_user_tag_sound_witness :
  store_sound db_sound
  ∧ ∃ db',
      delete_user_tag db_sound 7 3 = Done db'
      ∧ store_sound db'
      ∧ tag_task_association db' = [(1, 1); (2, 3)]
      ∧ tag_collection_association db' = [].
Proof.
  pose proof (proj1 db_sound_in_good_order) as Hs.
  split; [exact Hs|].
  pose proof (delete_user_tag_sound db_sound 7 3 Hs) as Hdel.
  revert Hdel.
  destruct (delete_user_tag db_sound 7 3) as [db'|e] eqn:Heq;
    [|by vm_compute in Heq].
  intros Hdel.
  exists db'.
  destruct Hdel as (_ & Hs' & _ & _ & _ & _ & _ & Ht & _ & Hc).
  split; [done|]. split; [done|]. by rewrite Ht, Hc.
Defined.

Lemma created_is_fetched_witness :
  store_sound db_sound
  ∧ ∀ task_create db' task,
      create_task_for_user db_sound 7 task_create = Ok (db', task) →
      get_user_task_by_id db' 7 (task_id (obj_row task)) = Ok task
      ∧ ∀ other, other ≠ 7 →
          get_user_task_by_id db' other (task_id (obj_row task))
          = Raise (HTTPException 404 TaskNotFound).
Proof.
  pose proof (proj1 db_sound_in_good_order) as Hs.
  split; [exact Hs|].
  exact (proj1 (created_is_fetched db_sound 7 Hs)).
Defined.

Lemma collection_policy_witness :
  keys_unique CollectionRow db_policy ∧ 1 ≠ 0
  ∧ check_task_collection db_policy 7 (Some 1)
    = Raise (HTTPException 400 CannotAddTask)
  ∧ check_note_collection db_policy 7 (Some 1) = Ok ().
Proof.
  assert (keys_unique CollectionRow db_policy) as Hk
    by (unfold keys_unique; by_computation).
  assert (1 ≠ 0) as Hne by lia.
  split; [exact Hk|]. split; [exact Hne|].
  apply (proj1 (collection_policy db_policy 7 1 Hk Hne)
           (mkCollectionRow 1 7 "reading" None NOTES_ONLY 1));
    [by_computation|reflexivity|reflexivity].
Defined.
